(** * shutdowns: the outage-schedule bot of [src/index.js]

    A shallow embedding of [fetchShutdowns], [filterGPVKeys],
    [parseLightSchedule] and the [/start] handler, and the properties of
    the schedule extractor, the feeder filter and the interval compressor.

    Conventions of the embedding.
    - A JavaScript string is the list of its UTF-16 code units ([jsstring]).
    - A JavaScript value is a [value]: what [JSON.parse] can produce, plus
      [undefined].  An object is the list of its own enumerable properties
      in the order JavaScript enumerates them (array indices ascending,
      then the other keys in insertion order).  A value carries no
      prototype: it stands for an object with the default prototype, as
      the objects built by [JSON.parse] and by [{}] have, and a property
      is looked up among the own properties.  Where [filterGPVKeys]
      assigns to the key [__proto__], which sets a prototype, the
      embedding follows what becomes of the own properties and what is
      thrown; the object returned is given by its own properties.
    - A function that can throw returns a [completion]; a function that logs or
      replies returns the [event]s it produced, in order, with its result. *)

From Stdlib Require Import Ascii String DecimalString.
From Stdlib Require Import List ZArith NArith Lia Bool.
Import ListNotations.

Local Open Scope list_scope.

#[local] Set Warnings "-register-all".

(** ** Strings as UTF-16 code units *)

Definition jsstring := list N.

(** [lit] reads an ASCII literal, one code unit per character. *)
Definition lit (s : string) : jsstring :=
  map N_of_ascii (list_ascii_of_string s).

(** [utf8] decodes the UTF-8 bytes of a literal of this file into UTF-16
    code units (a code point above U+FFFF gives a surrogate pair). *)
Fixpoint utf8_decode (bs : list N) : jsstring :=
  match bs with
  | [] => []
  | b :: r =>
      if (b <? 128)%N then b :: utf8_decode r
      else if (b <? 224)%N then
        match r with
        | b1 :: r1 => ((b - 192) * 64 + (b1 - 128))%N :: utf8_decode r1
        | _ => []
        end
      else if (b <? 240)%N then
        match r with
        | b1 :: b2 :: r2 =>
            ((b - 224) * 4096 + (b1 - 128) * 64 + (b2 - 128))%N :: utf8_decode r2
        | _ => []
        end
      else
        match r with
        | b1 :: b2 :: b3 :: r3 =>
            let cp := ((b - 240) * 262144 + (b1 - 128) * 4096
                       + (b2 - 128) * 64 + (b3 - 128))%N in
            (55296 + (cp - 65536) / 1024)%N
              :: (56320 + (cp - 65536) mod 1024)%N :: utf8_decode r3
        | _ => []
        end
  end.

Definition utf8 (s : string) : jsstring := utf8_decode (lit s).

Fixpoint streq (a b : jsstring) : bool :=
  match a, b with
  | [], [] => true
  | x :: a', y :: b' => (x =? y)%N && streq a' b'
  | _, _ => false
  end.

(** [s.startsWith(p)] *)
Fixpoint startsWith (p s : jsstring) : bool :=
  match p, s with
  | [], _ => true
  | x :: p', y :: s' => (x =? y)%N && startsWith p' s'
  | _ :: _, [] => false
  end.

(** [s.includes(p)] *)
Fixpoint includes (p s : jsstring) : bool :=
  startsWith p s ||
  match s with
  | [] => false
  | _ :: s' => includes p s'
  end.

(** [s.replace(p, r)] for a string pattern [p] and a replacement [r]
    without [$]: the first occurrence of [p] is replaced, the others stay. *)
Fixpoint replaceFirst (p r s : jsstring) : jsstring :=
  if startsWith p s then r ++ skipn (length p) s
  else match s with
       | [] => []
       | c :: s' => c :: replaceFirst p r s'
       end.

(** [parts.join(sep)] *)
Fixpoint join (sep : jsstring) (parts : list jsstring) : jsstring :=
  match parts with
  | [] => []
  | [p] => p
  | p :: rest => p ++ sep ++ join sep rest
  end.

(** [n.toString()] and [`${n}`] for an integer [n]. *)
Definition numberToString (n : Z) : jsstring :=
  lit (NilZero.string_of_int (Z.to_int n)).

(** JavaScript's white space and line terminators: [\s] of a regular
    expression, and what [parseInt] skips. *)
Definition isWhiteSpace (c : N) : bool :=
  ((9 <=? c) && (c <=? 13) || (c =? 32) || (c =? 160) || (c =? 5760)
   || (8192 <=? c) && (c <=? 8202) || (c =? 8232) || (c =? 8233)
   || (c =? 8239) || (c =? 8287) || (c =? 12288) || (c =? 65279))%N.

Fixpoint dropWhiteSpace (s : jsstring) : jsstring :=
  match s with
  | c :: r => if isWhiteSpace c then dropWhiteSpace r else s
  | [] => []
  end.

Definition isDigit (c : N) : bool := ((48 <=? c) && (c <=? 57))%N.

(** [[a-zA-Z0-9_]], which is also the word character of [\b]. *)
Definition isWordChar (c : N) : bool :=
  (isDigit c || (65 <=? c) && (c <=? 90) || (97 <=? c) && (c <=? 122)
   || (c =? 95))%N.

(** ** Values, objects and property access *)

Inductive value : Type :=
| VUndefined
| VNull
| VBool (b : bool)
| VNum (mantissa exponent : Z)   (* the number [mantissa * 10 ^ exponent] *)
| VStr (s : jsstring)
| VArr (items : list value)
| VObj (props : list (jsstring * value)).

Inductive exn : Type :=
| HttpError (status : Z)   (* [new Error(`HTTP error: ${resp.status}`)] *)
| FetchRejected            (* the request itself failed *)
| TypeError
| EvalError.               (* the evaluation of the literal threw *)

(** How an evaluation completes: normally, with a value, or by a throw. *)
Inductive completion (A : Type) : Type :=
| Normal (a : A)
| Throw (e : exn).
Arguments Normal {A} a.
Arguments Throw {A} e.

Definition cbind {A B} (c : completion A) (k : A -> completion B) : completion B :=
  match c with
  | Normal a => k a
  | Throw e => Throw e
  end.

Declare Scope completion_scope.
Delimit Scope completion_scope with completion.
Notation "x <- c ;; k" := (cbind c (fun x => k))
  (at level 61, c at next level, right associativity) : completion_scope.
Local Open Scope completion_scope.

(** The value of a run of decimal digits, [None] when another character
    occurs. *)
Fixpoint digitsValue (acc : N) (s : jsstring) : option N :=
  match s with
  | [] => Some acc
  | c :: r => if isDigit c then digitsValue (acc * 10 + (c - 48))%N r else None
  end.

(** A property key is an array index when it is the canonical decimal form
    of an integer below 2^32 - 1; such keys are enumerated first, in
    ascending order. *)
Definition arrayIndex (k : jsstring) : option N :=
  match k with
  | [] => None
  | c :: r =>
      if (c =? 48)%N && negb (match r with [] => true | _ => false end)
      then None
      else match digitsValue 0 k with
           | Some n => if (n <? 4294967295)%N then Some n else None
           | None => None
           end
  end.

Fixpoint lookup {V : Type} (k : jsstring) (props : list (jsstring * V)) : option V :=
  match props with
  | [] => None
  | (k', v) :: r => if streq k' k then Some v else lookup k r
  end.

(** [o[k]] for a key that is no inherited property name: the program reads
    the keys it enumerated, [data], [status] and the hours ["1"].."24". *)
Definition getProp (o : value) (k : jsstring) : completion value :=
  match o with
  | VUndefined | VNull => Throw TypeError
  | VBool _ | VNum _ _ => Normal VUndefined
  | VStr s =>
      match arrayIndex k with
      | Some n => match nth_error s (N.to_nat n) with
                  | Some c => Normal (VStr [c])
                  | None => Normal VUndefined
                  end
      | None => Normal VUndefined
      end
  | VArr items =>
      match arrayIndex k with
      | Some n => match nth_error items (N.to_nat n) with
                  | Some v => Normal v
                  | None => Normal VUndefined
                  end
      | None => Normal VUndefined
      end
  | VObj props =>
      match lookup k props with
      | Some v => Normal v
      | None => Normal VUndefined
      end
  end.

(** [o[k] = v] on an ordinary object: an existing property keeps its place;
    a new array index goes among the indices, in ascending order; any other
    new key goes last.  The properties have values of any one type [V]. *)
Fixpoint setIndex {V : Type} (n : N) (k : jsstring) (v : V)
    (props : list (jsstring * V)) : list (jsstring * V) :=
  match props with
  | [] => [(k, v)]
  | (k', v') :: r =>
      if streq k' k then (k', v) :: r
      else match arrayIndex k' with
           | Some n' => if (n' <? n)%N then (k', v') :: setIndex n k v r
                        else (k, v) :: props
           | None => (k, v) :: props
           end
  end.

Fixpoint setNamed {V : Type} (k : jsstring) (v : V)
    (props : list (jsstring * V)) : list (jsstring * V) :=
  match props with
  | [] => [(k, v)]
  | (k', v') :: r =>
      if streq k' k then (k', v) :: r else (k', v') :: setNamed k v r
  end.

Definition setProp {V : Type} (k : jsstring) (v : V)
    (props : list (jsstring * V)) : list (jsstring * V) :=
  match arrayIndex k with
  | Some n => setIndex n k v props
  | None => setNamed k v props
  end.

(** The keys [0 .. n-1] of an array or of a string. *)
Definition indexKeys (n : nat) : list jsstring :=
  map (fun i => numberToString (Z.of_nat i)) (seq 0 n).

(** The keys [for (const k in o)] visits. *)
Definition forInKeys (o : value) : list jsstring :=
  match o with
  | VUndefined | VNull | VBool _ | VNum _ _ => []
  | VStr s => indexKeys (length s)
  | VArr items => indexKeys (length items)
  | VObj props => map fst props
  end.

(** [Object.entries(o)] *)
Definition objectEntries (o : value) : completion (list (jsstring * value)) :=
  match o with
  | VUndefined | VNull => Throw TypeError
  | VBool _ | VNum _ _ => Normal []
  | VStr s => Normal (combine (indexKeys (length s)) (map (fun c => VStr [c]) s))
  | VArr items => Normal (combine (indexKeys (length items)) items)
  | VObj props => Normal props
  end.

(** ** The host: what the program takes from its JavaScript engine *)

Record Host : Type := {
  (** [new Date(ms).toLocaleDateString('ru-RU')] for a time value [ms] in
      range; it depends on the time zone of the process. *)
  toLocaleDateString : Z -> jsstring;
  (** [Function('"use strict"; return (' + src + ');')()] *)
  evalLiteral : jsstring -> completion value;
  (** [`${v}`] *)
  templateText : value -> completion jsstring
}.

(** ** [parseInt] and the date of a timestamp key *)

Local Open Scope Z_scope.

Definition digitOf (radix c : N) : option N :=
  let d := if isDigit c then Some (c - 48)%N
           else if ((97 <=? c) && (c <=? 122))%N then Some (c - 87)%N
           else if ((65 <=? c) && (c <=? 90))%N then Some (c - 55)%N
           else None in
  match d with
  | Some n => if (n <? radix)%N then Some n else None
  | None => None
  end.

(** The value of the longest prefix of digits of [radix]; [acc] is [None]
    until a digit has been read. *)
Fixpoint readDigits (radix : N) (acc : option N) (s : jsstring) : option N :=
  match s with
  | c :: r =>
      match digitOf radix c with
      | Some d =>
          readDigits radix
            (Some match acc with Some a => (a * radix + d)%N | None => d end) r
      | None => acc
      end
  | [] => acc
  end.

(** [parseInt(s)], [None] for [NaN].  The integer is the exact one: the
    program multiplies it by 1000 and makes a date of the product, and
    where a double would round the integer or the product, the product is
    out of the range of dates, rounded or not. *)
Definition parseInt (s : jsstring) : option Z :=
  let s1 := dropWhiteSpace s in
  let '(negative, s2) :=
    match s1 with
    | 45%N :: r => (true, r)
    | 43%N :: r => (false, r)
    | _ => (false, s1)
    end in
  let '(radix, s3) :=
    match s2 with
    | 48%N :: x :: r =>
        if ((x =? 120) || (x =? 88))%N then (16%N, r) else (10%N, s2)
    | _ => (10%N, s2)
    end in
  match readDigits radix None s3 with
  | Some n => Some (if negative then - Z.of_N n else Z.of_N n)
  | None => None
  end.

(** ** [JSON.parse] *)

Definition isJsonSpace (c : N) : bool :=
  ((c =? 9) || (c =? 10) || (c =? 13) || (c =? 32))%N.

Fixpoint skipJsonSpace (s : jsstring) : jsstring :=
  match s with
  | c :: r => if isJsonSpace c then skipJsonSpace r else s
  | [] => []
  end.

Fixpoint takeDigits (s : jsstring) : jsstring * jsstring :=
  match s with
  | c :: r =>
      if isDigit c then let '(d, rest) := takeDigits r in (c :: d, rest)
      else ([], s)
  | [] => ([], [])
  end.

Definition digitsZ (d : jsstring) : Z :=
  fold_left (fun acc c => acc * 10 + Z.of_N (c - 48)) d 0.

(** A number: an optional minus sign; [0], or a digit from 1 to 9 and any
    digits; an optional fraction, a point and one digit or more; an optional
    exponent, [e] or [E], an optional sign and one digit or more. *)
Definition parseNumber (s : jsstring) : option (value * jsstring) :=
  let '(negative, s1) :=
    match s with 45%N :: r => (true, r) | _ => (false, s) end in
  let '(ip, s2) := takeDigits s1 in
  match ip with
  | [] => None
  | 48%N :: _ :: _ => None
  | _ =>
      let frac :=
        match s2 with
        | 46%N :: r =>
            let '(fp, s3) := takeDigits r in
            match fp with [] => None | _ => Some (fp, s3) end
        | _ => Some ([], s2)
        end in
      match frac with
      | None => None
      | Some (fp, s3) =>
          let expo :=
            match s3 with
            | c :: r =>
                if ((c =? 101) || (c =? 69))%N then
                  let '(eneg, r1) :=
                    match r with
                    | 45%N :: r' => (true, r')
                    | 43%N :: r' => (false, r')
                    | _ => (false, r)
                    end in
                  let '(ep, s4) := takeDigits r1 in
                  match ep with
                  | [] => None
                  | _ => Some (if eneg then - digitsZ ep else digitsZ ep, s4)
                  end
                else Some (0, s3)
            | [] => Some (0, s3)
            end in
          match expo with
          | None => None
          | Some (e, s4) =>
              let m := digitsZ (ip ++ fp) in
              Some (VNum (if negative then - m else m)
                         (e - Z.of_nat (length fp)), s4)
          end
      end
  end.

(** The text of a string after its opening quote, up to the closing one. *)
Fixpoint parseStringBody (acc s : jsstring) : option (jsstring * jsstring) :=
  match s with
  | [] => None
  | 34%N :: r => Some (acc, r)
  | 92%N :: e :: r =>
      if ((e =? 34) || (e =? 92) || (e =? 47))%N then parseStringBody (acc ++ [e]) r
      else if (e =? 98)%N then parseStringBody (acc ++ [8%N]) r
      else if (e =? 102)%N then parseStringBody (acc ++ [12%N]) r
      else if (e =? 110)%N then parseStringBody (acc ++ [10%N]) r
      else if (e =? 114)%N then parseStringBody (acc ++ [13%N]) r
      else if (e =? 116)%N then parseStringBody (acc ++ [9%N]) r
      else if (e =? 117)%N then
        match r with
        | h1 :: h2 :: h3 :: h4 :: r' =>
            match digitOf 16 h1, digitOf 16 h2, digitOf 16 h3, digitOf 16 h4 with
            | Some d1, Some d2, Some d3, Some d4 =>
                parseStringBody
                  (acc ++ [(d1 * 4096 + d2 * 256 + d3 * 16 + d4)%N]) r'
            | _, _, _, _ => None
            end
        | _ => None
        end
      else None
  | c :: r => if (c <? 32)%N then None else parseStringBody (acc ++ [c]) r
  end.

(** The elements of an array after the first [[], and the members of an
    object after the first [{]; [pv] reads one value. *)
Fixpoint parseElements (pv : jsstring -> option (value * jsstring))
    (fuel : nat) (acc : list value) (s : jsstring) : option (value * jsstring) :=
  match fuel with
  | O => None
  | S fuel' =>
      match pv s with
      | Some (v, r) =>
          match skipJsonSpace r with
          | 44%N :: r' => parseElements pv fuel' (acc ++ [v]) r'
          | 93%N :: r' => Some (VArr (acc ++ [v]), r')
          | _ => None
          end
      | None => None
      end
  end.

Fixpoint parseMembers (pv : jsstring -> option (value * jsstring))
    (fuel : nat) (acc : list (jsstring * value)) (s : jsstring)
    : option (value * jsstring) :=
  match fuel with
  | O => None
  | S fuel' =>
      match skipJsonSpace s with
      | 34%N :: r =>
          match parseStringBody [] r with
          | Some (k, r1) =>
              match skipJsonSpace r1 with
              | 58%N :: r2 =>
                  match pv r2 with
                  | Some (v, r3) =>
                      match skipJsonSpace r3 with
                      | 44%N :: r4 => parseMembers pv fuel' (setProp k v acc) r4
                      | 125%N :: r4 => Some (VObj (setProp k v acc), r4)
                      | _ => None
                      end
                  | None => None
                  end
              | _ => None
              end
          | None => None
          end
      | _ => None
      end
  end.

(** One value; [depth] bounds the nesting and [width] the length of an
    array or object, and the length of the text bounds both. *)
Fixpoint parseValue (width depth : nat) (s : jsstring) : option (value * jsstring) :=
  match depth with
  | O => None
  | S depth' =>
      match skipJsonSpace s with
      | 123%N :: r =>
          match skipJsonSpace r with
          | 125%N :: r' => Some (VObj [], r')
          | _ => parseMembers (parseValue width depth') width [] r
          end
      | 91%N :: r =>
          match skipJsonSpace r with
          | 93%N :: r' => Some (VArr [], r')
          | _ => parseElements (parseValue width depth') width [] r
          end
      | 34%N :: r =>
          match parseStringBody [] r with
          | Some (str, r') => Some (VStr str, r')
          | None => None
          end
      | 110%N :: 117%N :: 108%N :: 108%N :: r => Some (VNull, r)
      | 116%N :: 114%N :: 117%N :: 101%N :: r => Some (VBool true, r)
      | 102%N :: 97%N :: 108%N :: 115%N :: 101%N :: r => Some (VBool false, r)
      | s' => parseNumber s'
      end
  end.

(** [JSON.parse(s)], [None] when it throws a [SyntaxError]. *)
Definition JSON_parse (s : jsstring) : option value :=
  match parseValue (S (length s)) (S (length s)) s with
  | Some (v, r) => match skipJsonSpace r with [] => Some v | _ => None end
  | None => None
  end.

(** ** The two regular expressions of [fetchShutdowns] *)

(** The lookahead [(?=\s*DisconSchedule\.|\s*$)]. *)
Definition factLookahead (s : jsstring) : bool :=
  let r := dropWhiteSpace s in
  startsWith (lit "DisconSchedule.") r || match r with [] => true | _ => false end.

(** [[\s\S]*?\}] followed by the lookahead: the shortest text that ends
    with a closing brace after which the lookahead holds. *)
Fixpoint lazyObject (s : jsstring) : option jsstring :=
  match s with
  | [] => None
  | c :: r =>
      if (c =? 125)%N && factLookahead r then Some [c]
      else option_map (cons c) (lazyObject r)
  end.

(** The whole expression at the start of [s]; the result is group 1. *)
Definition matchFactAt (s : jsstring) : option jsstring :=
  if startsWith (lit "DisconSchedule.fact") s then
    match dropWhiteSpace (skipn (length (lit "DisconSchedule.fact")) s) with
    | 61%N :: r =>
        match dropWhiteSpace r with
        | 123%N :: body => option_map (cons 123%N) (lazyObject body)
        | _ => None
        end
    | _ => None
    end
  else None.

(** [txt.match(/DisconSchedule\.fact\s*=\s*(\{[\s\S]*?\})(?=\s*DisconSchedule\.|\s*$)/)]:
    group 1 of the leftmost match. *)
Fixpoint matchFact (txt : jsstring) : option jsstring :=
  match matchFactAt txt with
  | Some m1 => Some m1
  | None => match txt with [] => None | _ :: r => matchFact r end
  end.

Fixpoint takeWord (s : jsstring) : jsstring * jsstring :=
  match s with
  | c :: r =>
      if isWordChar c then let '(w, rest) := takeWord r in (c :: w, rest)
      else ([], s)
  | [] => ([], [])
  end.

(** [objStr.replace(/(\b[a-zA-Z0-9_]+)\s*:/g, '"$1":')]: a run of word
    characters followed by white space and a colon is put between double
    quotes, and the white space goes.  A run is read whole, for no word
    boundary lies inside it.  Every turn reads at least one character, so
    the length of the text is fuel enough. *)
Fixpoint quoteKeysFrom (fuel : nat) (s : jsstring) : jsstring :=
  match fuel with
  | O => s
  | S fuel' =>
      match s with
      | [] => []
      | c :: r =>
          if isWordChar c then
            let '(w, rest) := takeWord s in
            match dropWhiteSpace rest with
            | 58%N :: rest' => [34%N] ++ w ++ [34%N; 58%N] ++ quoteKeysFrom fuel' rest'
            | _ => w ++ quoteKeysFrom fuel' rest
            end
          else c :: quoteKeysFrom fuel' r
      end
  end.

Definition quoteKeys (s : jsstring) : jsstring := quoteKeysFrom (length s) s.

(** The first replacement of [objStr]: every single quote becomes a double
    quote. *)
Definition doubleQuotes (s : jsstring) : jsstring :=
  map (fun c => if (c =? 39)%N then 34%N else c) s.

Section Program.

Variable host : Host.

(** [new Date(parseInt(timestamp) * 1000).toLocaleDateString('ru-RU')] *)
Definition formattedDate (timestamp : jsstring) : jsstring :=
  match parseInt timestamp with
  | Some n =>
      if Z.abs (n * 1000) <=? 8640000000000000
      then toLocaleDateString host (n * 1000)
      else lit "Invalid Date"
  | None => lit "Invalid Date"
  end.

(** ** [filterGPVKeys] *)

(** [keysToKeep.includes(k)] for an array of strings. *)
Definition arrayIncludes (keysToKeep : list jsstring) (k : jsstring) : bool :=
  existsb (streq k) keysToKeep.

(** [obj.hasOwnProperty(k)]: the inherited method, unless an own property
    of that name hides it (a value read by [JSON.parse] is not callable). *)
Definition hasOwnProperty (obj : value) (k : jsstring) : completion bool :=
  match obj with
  | VUndefined | VNull => Throw TypeError
  | VBool _ | VNum _ _ => Normal false
  | VStr s =>
      Normal (streq k (lit "length") ||
              match arrayIndex k with
              | Some n => (N.to_nat n <? length s)%nat
              | None => false
              end)
  | VArr items =>
      Normal (streq k (lit "length") ||
              match arrayIndex k with
              | Some n => (N.to_nat n <? length items)%nat
              | None => false
              end)
  | VObj props =>
      match lookup (lit "hasOwnProperty") props with
      | Some _ => Throw TypeError
      | None => Normal (match lookup k props with Some _ => true | None => false end)
      end
  end.

(** [result] holds under each of its keys an object made by [{}]: it is
    kept as the list of the own properties of each. *)
Definition resultObject : Type := list (jsstring * list (jsstring * value)).

(** The key that an assignment does not make an own property of: on an
    object whose chain of prototypes reaches [Object.prototype], as that
    of [{}] does, [o.__proto__ = v] calls the setter of the accessor
    [__proto__]. *)
Definition protoKey : jsstring := lit "__proto__".

(** [result[dateKey][gpvKey] = v] for a [dateKey] other than [__proto__]:
    the object stored under [dateKey] is changed in place.  For the key
    [__proto__] the setter makes [v] the prototype of that object when [v]
    is an object or [null] and does nothing otherwise; no own property is
    made either way.  The keys assigned afterwards still become own
    properties, for the properties of a value are all writable data
    properties. *)
Definition assignInner (result : resultObject) (dateKey gpvKey : jsstring)
    (v : value) : completion resultObject :=
  match lookup dateKey result with
  | Some inner =>
      if streq gpvKey protoKey then Normal result
      else Normal (setProp dateKey (setProp gpvKey v inner) result)
  | None => Throw TypeError
  end.

Fixpoint gpvKeyLoop (keysToKeep : list jsstring) (obj : value)
    (dateKey : jsstring) (gpvKeys : list jsstring) (result : resultObject)
    : completion resultObject :=
  match gpvKeys with
  | [] => Normal result
  | gpvKey :: rest =>
      if arrayIncludes keysToKeep gpvKey then
        schedules <- getProp obj dateKey ;;
        v <- getProp schedules gpvKey ;;
        result' <- assignInner result dateKey gpvKey v ;;
        gpvKeyLoop keysToKeep obj dateKey rest result'
      else gpvKeyLoop keysToKeep obj dateKey rest result
  end.

(** *** The date key [__proto__]

    [result.__proto__ = {}] makes no own property either: it makes the
    new object the prototype of [result].  The inner loop then assigns to
    what [result.__proto__] reads, and that depends on the prototype of
    the new object, which the key [__proto__] under this date can set. *)

(** The prototype of the object that is the prototype of [result]. *)
Inductive protoSlot : Type :=
| DefaultProto            (* [Object.prototype], as [{}] has it *)
| SetProto (v : value).   (* an object of the input, or [null] *)

(** What [result.__proto__] reads. *)
Inductive protoTarget : Type :=
| Fresh            (* the prototype of [result]: the getter is reached *)
| Missing          (* [undefined]: the chain ends at [null] *)
| Held (w : value).   (* the own property [__proto__] of the object of the
                         input on the chain, which comes before the getter *)

Definition readProto (slot : protoSlot) : protoTarget :=
  match slot with
  | DefaultProto => Fresh
  | SetProto VNull => Missing
  | SetProto (VObj props) =>
      match lookup protoKey props with
      | Some w => Held w
      | None => Fresh
      end
  | SetProto _ => Fresh
  end.

(** [result.__proto__[gpvKey] = v].  On the prototype of [result] the key
    [__proto__] sets the prototype as above and any other key makes an
    own property of that object.  On [undefined] and [null] the
    assignment is a [TypeError]; on a boolean, a number or a string it is
    one too, the module being strict code, unless the key is [__proto__],
    which the setter ignores.  On an object of the input the assignment
    changes that object and not [result].  (An array of the input refuses
    some values of [length] with a [RangeError]; the conversion to a
    number that decides it is not part of the embedding, and the
    assignment is taken to pass.) *)
Definition assignProto (slot : protoSlot) (gpvKey : jsstring) (v : value)
    : completion protoSlot :=
  match readProto slot with
  | Fresh =>
      if streq gpvKey protoKey then
        match v with
        | VNull | VArr _ | VObj _ => Normal (SetProto v)
        | _ => Normal slot
        end
      else Normal slot
  | Missing => Throw TypeError
  | Held w =>
      match w with
      | VUndefined | VNull => Throw TypeError
      | VBool _ | VNum _ _ | VStr _ =>
          if streq gpvKey protoKey then Normal slot else Throw TypeError
      | VArr _ | VObj _ => Normal slot
      end
  end.

(** The inner loop under the date key [__proto__]. *)
Fixpoint protoKeyLoop (keysToKeep : list jsstring) (obj : value)
    (gpvKeys : list jsstring) (slot : protoSlot) : completion protoSlot :=
  match gpvKeys with
  | [] => Normal slot
  | gpvKey :: rest =>
      if arrayIncludes keysToKeep gpvKey then
        schedules <- getProp obj protoKey ;;
        v <- getProp schedules gpvKey ;;
        slot' <- assignProto slot gpvKey v ;;
        protoKeyLoop keysToKeep obj rest slot'
      else protoKeyLoop keysToKeep obj rest slot
  end.

Fixpoint dateKeyLoop (keysToKeep : list jsstring) (obj : value)
    (dateKeys : list jsstring) (result : resultObject) : completion resultObject :=
  match dateKeys with
  | [] => Normal result
  | dateKey :: rest =>
      own <- hasOwnProperty obj dateKey ;;
      if own : bool then
        if streq dateKey protoKey then
          schedules <- getProp obj dateKey ;;
          _ <- protoKeyLoop keysToKeep obj (forInKeys schedules) DefaultProto ;;
          dateKeyLoop keysToKeep obj rest result
        else
          let result1 := setProp dateKey [] result in
          schedules <- getProp obj dateKey ;;
          result2 <- gpvKeyLoop keysToKeep obj dateKey (forInKeys schedules) result1 ;;
          dateKeyLoop keysToKeep obj rest result2
      else dateKeyLoop keysToKeep obj rest result
  end.

(** [result] as a value: its own properties, and under each the own
    properties of the object stored there. *)
Definition objectOf (result : resultObject) : value :=
  VObj (map (fun kv => (fst kv, VObj (snd kv))) result).

(** What the function returns is given as its own properties show it, at
    both levels: a prototype that an assignment to [__proto__] has set is
    not part of a [value].  The program reads the result through
    [Object.entries] only. *)
Definition filterGPVKeys (obj : value) (keysToKeep : list jsstring)
    : completion value :=
  result <- dateKeyLoop keysToKeep obj (forInKeys obj) [] ;;
  Normal (objectOf result).

(** ** [parseLightSchedule] *)

Record period : Type := { start : Z; end_ : Z }.

(** [status === 'no'] *)
Definition isNo (status : value) : bool :=
  match status with
  | VStr s => streq s (lit "no")
  | _ => false
  end.

(** One turn of [for (let hour = 1; hour <= 24; hour++)]: the state is
    [noLightPeriods] and [currentPeriod]. *)
Definition hourStep (timeSlots : value) (st : list period * option period)
    (hour : Z) : completion (list period * option period) :=
  status <- getProp timeSlots (numberToString hour) ;;
  let '(noLightPeriods, currentPeriod) := st in
  Normal
    (if isNo status then
       match currentPeriod with
       | None => (noLightPeriods, Some {| start := hour - 1; end_ := hour |})
       | Some p => (noLightPeriods, Some {| start := start p; end_ := hour |})
       end
     else
       match currentPeriod with
       | Some p => (noLightPeriods ++ [p], None)
       | None => (noLightPeriods, None)
       end).

Fixpoint hourLoop (timeSlots : value) (hours : list Z)
    (st : list period * option period)
    : completion (list period * option period) :=
  match hours with
  | [] => Normal st
  | hour :: rest =>
      st' <- hourStep timeSlots st hour ;;
      hourLoop timeSlots rest st'
  end.

(** The hours 1, 2, ..., 24. *)
Definition hours : list Z := map Z.of_nat (seq 1 24).

(** The list [noLightPeriods] of one feeder when its loop and the closing
    [if (currentPeriod !== null)] are done. *)
Definition collectPeriods (timeSlots : value) : completion (list period) :=
  st <- hourLoop timeSlots hours ([], None) ;;
  let '(noLightPeriods, currentPeriod) := st in
  Normal match currentPeriod with
         | Some p => noLightPeriods ++ [p]
         | None => noLightPeriods
         end.

Definition periodText (p : period) : jsstring :=
  numberToString (start p) ++ lit " - " ++ numberToString (end_ p).

(** [scheduleName.replace('GPV', '')] *)
Definition feederSuffix (scheduleName : jsstring) : jsstring :=
  replaceFirst (lit "GPV") [] scheduleName.

Definition periodTexts (ps : list period) : jsstring :=
  join (lit ", ") (map periodText ps).

Definition scheduleLine (date scheduleName : jsstring) (ps : list period)
    : jsstring :=
  utf8 "Дата " ++ date ++ utf8 ", график " ++ feederSuffix scheduleName
    ++ utf8 ", света не будет в такие промежутки: " ++ periodTexts ps.

Fixpoint scheduleLoop (date : jsstring) (schedules : list (jsstring * value))
    (results : list jsstring) : completion (list jsstring) :=
  match schedules with
  | [] => Normal results
  | (scheduleName, timeSlots) :: rest =>
      ps <- collectPeriods timeSlots ;;
      scheduleLoop date rest
        match ps with
        | [] => results
        | _ :: _ => results ++ [scheduleLine date scheduleName ps]
        end
  end.

Fixpoint dateLoop (entries : list (jsstring * value)) (results : list jsstring)
    : completion (list jsstring) :=
  match entries with
  | [] => Normal results
  | (timestamp, schedules) :: rest =>
      feeders <- objectEntries schedules ;;
      results' <- scheduleLoop (formattedDate timestamp) feeders results ;;
      dateLoop rest results'
  end.

Definition parseLightSchedule (data : value) : completion jsstring :=
  entries <- objectEntries data ;;
  results <- dateLoop entries [] ;;
  Normal (join [10%N] results).

(** ** [fetchShutdowns] *)

(** What [fetch] and JSDOM hand to the extractor: whether the request was
    answered, [resp.ok], [resp.status], and the [textContent] of the
    [script] elements of the page, in document order. *)
Record response : Type := { ok : bool; status : Z; scripts : list jsstring }.

Inductive fetched : Type :=
| Rejected
| Responded (resp : response).

(** What the program writes and sends, in order.  The messaging channel
    is an external collaborator: [Reply] records the call of [ctx.reply],
    which is taken to succeed. *)
Inductive event : Type :=
| Log (text : jsstring)        (* [console.log(text)] *)
| LogValue (v : value)         (* [console.log(v)] *)
| LogError (e : exn)           (* [console.error('Error in /start handler:', ...)] *)
| Reply (text : jsstring).     (* [ctx.reply(text)] *)

Definition marker : jsstring := lit "DisconSchedule.fact".

Definition notFoundText : jsstring :=
  utf8 "Не удалось найти DisconSchedule.fact на странице".

(** From [let objStr = m[1]] to the two [return data]. *)
Definition parseFact (m1 : jsstring) : completion value :=
  let objStr := quoteKeys (doubleQuotes m1) in
  match JSON_parse objStr with
  | Some data => Normal data
  | None => evalLiteral host m1
  end.

(** [for (const script of scripts)]: [Some] when the loop returns or
    throws, [None] when it comes to its end. *)
Fixpoint scriptLoop (scripts : list jsstring) : option (completion value) :=
  match scripts with
  | [] => None
  | txt :: rest =>
      if match txt with [] => false | _ :: _ => true end && includes marker txt
      then match matchFact txt with
           | Some m1 => Some (parseFact m1)
           | None => scriptLoop rest
           end
      else scriptLoop rest
  end.

Definition fetchShutdowns (page : fetched) : list event * completion value :=
  match page with
  | Rejected => ([], Throw FetchRejected)
  | Responded resp =>
      if ok resp then
        match scriptLoop (scripts resp) with
        | Some c => ([], c)
        | None => ([Log notFoundText], Normal VUndefined)
        end
      else ([], Throw (HttpError (status resp)))
  end.

(** ** The [/start] handler *)

Record user : Type := {
  username : option jsstring;
  id : Z;
  first_name : option jsstring
}.

(** [s || other] for an optional string [s]. *)
Definition orElse (s : option jsstring) (other : jsstring) : jsstring :=
  match s with
  | Some (c :: r) => c :: r
  | _ => other
  end.

(** A number is [0] when its double is: the literal is at most half the
    least positive double, 2^-1075. *)
Definition numberIsZero (m e : Z) : bool :=
  (m =? 0) || ((e <? 0) && (Z.abs m * 2 ^ 1075 <=? 10 ^ (- e))).

Definition truthy (v : value) : bool :=
  match v with
  | VUndefined | VNull => false
  | VBool b => b
  | VNum m e => negb (numberIsZero m e)
  | VStr s => match s with [] => false | _ :: _ => true end
  | VArr _ | VObj _ => true
  end.

(** [data?.data] *)
Definition optionalData (data : value) : completion value :=
  match data with
  | VUndefined | VNull => Normal VUndefined
  | _ => getProp data (lit "data")
  end.

Definition isOk (v : value) : bool :=
  match v with
  | VStr s => streq s (lit "ok")
  | _ => false
  end.

Definition MAX_MSG_LEN : nat := 4000.

(** [for (let i = 0; i < text.length; i += MAX_MSG_LEN)] with
    [text.slice(i, i + MAX_MSG_LEN)]; [text] is what is left from [i] on. *)
Fixpoint sliceLoop (fuel : nat) (text : jsstring) : list event :=
  match fuel with
  | O => []
  | S fuel' =>
      match text with
      | [] => []
      | _ :: _ => Reply (firstn MAX_MSG_LEN text)
                    :: sliceLoop fuel' (skipn MAX_MSG_LEN text)
      end
  end.

Definition sendText (text : jsstring) : list event :=
  if (length text <=? MAX_MSG_LEN)%nat then [Reply text]
  else sliceLoop (length text) text.

Definition emptyText : jsstring := utf8 "Пустой ответ от API.".
Definition sorryText : jsstring :=
  utf8 "Упс — не удалось получить данные. Попробуйте позже.".
Definition keysOfStart : list jsstring := [lit "GPV5.1"; lit "GPV3.2"].

(** A block that writes and may throw: what the first does is kept when
    the second throws. *)
Definition andThen {A B} (c : list event * completion A)
    (k : A -> list event * completion B) : list event * completion B :=
  match c with
  | (evs, Normal a) => let '(evs', b) := k a in (evs ++ evs', b)
  | (evs, Throw e) => (evs, Throw e)
  end.

Definition pure {A} (c : completion A) : list event * completion A := ([], c).

(** The [try] block after [fetchShutdowns] has returned [data]; the filter
    and the compressor are arguments, [startHandler] passes
    [filterGPVKeys] and [parseLightSchedule]. *)
Definition reportFlow
    (filter : value -> list jsstring -> completion value)
    (compress : value -> completion jsstring)
    (data : value) : list event * completion unit :=
  andThen (pure (optionalData data)) (fun payload =>
  if negb (truthy payload) then ([Reply emptyText], Normal tt)
  else
    andThen (pure (getProp data (lit "status"))) (fun st =>
    if truthy st && negb (isOk st) then
      andThen (pure (templateText host st)) (fun t =>
      ([Reply (utf8 "API вернул статус: " ++ t)], Normal tt))
    else
      andThen ([LogValue payload], filter payload keysOfStart) (fun filteredData =>
      andThen (pure (compress filteredData)) (fun text =>
      (sendText text, Normal tt))))).

(** [`/start from ${user.username || user.id}`] *)
Definition startLogText (from : user) : jsstring :=
  utf8 "/start from " ++ orElse (username from) (numberToString (id from)).

(** [`Привет, ${user.first_name || 'пользователь'}! Запрашиваю данные...`] *)
Definition greetingText (from : user) : jsstring :=
  utf8 "Привет, " ++ orElse (first_name from) (utf8 "пользователь")
    ++ utf8 "! Запрашиваю данные...".

(** The handler: the log, the greeting, then the [try] block and its
    [catch]. *)
Definition startHandlerWith
    (filter : value -> list jsstring -> completion value)
    (compress : value -> completion jsstring)
    (from : user) (page : fetched) : list event :=
  [Log (startLogText from); Reply (greetingText from)]
  ++ match andThen (fetchShutdowns page) (reportFlow filter compress) with
     | (evs, Normal _) => evs
     | (evs, Throw err) => evs ++ [LogError err; Reply sorryText]
     end.

Definition startHandler : user -> fetched -> list event :=
  startHandlerWith filterGPVKeys parseLightSchedule.

End Program.

(** ** The shape of a schedule document *)

(** A Unix-timestamp string: decimal digits, at least one. *)
Definition isTimestamp (k : jsstring) : bool :=
  match k with
  | [] => false
  | _ :: _ => forallb isDigit k
  end.

(** [before k1 k2]: an object may enumerate [k1] earlier than [k2]. The
    keys differ, and an array index comes after smaller indices only. *)
Definition before (k1 k2 : jsstring) : bool :=
  negb (streq k1 k2) &&
  match arrayIndex k2 with
  | Some n2 => match arrayIndex k1 with
               | Some n1 => (n1 <? n2)%N
               | None => false
               end
  | None => true
  end.

(** The own keys of an object, in the order of enumeration: what
    [JSON.parse] returns and what an assignment makes of such keys are so
    ([JSON_parse_wellKeyed], [setProp_keys_ok]). *)
Fixpoint ownKeysOk (ks : list jsstring) : bool :=
  match ks with
  | [] => true
  | k :: r => forallb (before k) r && ownKeysOk r
  end.

(** Every object in the value has its keys in the order of enumeration. *)
Fixpoint wellKeyed (v : value) : bool :=
  match v with
  | VArr items => forallb wellKeyed items
  | VObj props =>
      ownKeysOk (map fst props) && forallb (fun kv => wellKeyed (snd kv)) props
  | _ => true
  end.

Definition isStatus (v : value) : bool :=
  match v with
  | VStr _ => true
  | _ => false
  end.

(** Hour-Status-Map: an object whose values are status tokens. *)
Definition isHourStatusMap (v : value) : bool :=
  match v with
  | VObj props => ownKeysOk (map fst props) && forallb (fun kv => isStatus (snd kv)) props
  | _ => false
  end.

(** The feeders of one date: an object from feeder identifiers to
    Hour-Status-Maps. *)
Definition isFeederMap (v : value) : bool :=
  match v with
  | VObj props =>
      ownKeysOk (map fst props) && forallb (fun kv => isHourStatusMap (snd kv)) props
  | _ => false
  end.

(** ScheduleDocument: an object from Unix-timestamp strings to the feeders
    of that date. *)
Definition isScheduleDocument (v : value) : bool :=
  match v with
  | VObj props =>
      ownKeysOk (map fst props)
      && forallb (fun kv => isTimestamp (fst kv) && isFeederMap (snd kv)) props
  | _ => false
  end.

(** The own properties of an object value. *)
Definition propsOf (v : value) : list (jsstring * value) :=
  match v with
  | VObj props => props
  | _ => []
  end.

(** ** A host for the examples

    Dates are written day.month.year in UTC, the evaluation of a literal
    always throws, and only a string is put into a template. *)

Definition twoDigits (n : Z) : jsstring :=
  if n <? 10 then 48%N :: numberToString n else numberToString n.

Definition utcDate (ms : Z) : jsstring :=
  let z := ms / 86400000 + 719468 in
  let era := z / 146097 in
  let doe := z - era * 146097 in
  let yoe := (doe - doe / 1460 + doe / 36524 - doe / 146096) / 365 in
  let doy := doe - (365 * yoe + yoe / 4 - yoe / 100) in
  let mp := (5 * doy + 2) / 153 in
  let d := doy - (153 * mp + 2) / 5 + 1 in
  let m := if mp <? 10 then mp + 3 else mp - 9 in
  let y := yoe + era * 400 + (if m <=? 2 then 1 else 0) in
  twoDigits d ++ lit "." ++ twoDigits m ++ lit "." ++ numberToString y.

Definition exampleHost : Host :=
  {| toLocaleDateString := utcDate;
     evalLiteral := fun _ => Throw EvalError;
     templateText := fun v => match v with
                              | VStr s => Normal s
                              | _ => Throw TypeError
                              end |}.

Definition exampleUser : user :=
  {| username := Some (lit "anna"); id := 42; first_name := None |}.

(** ** The operations as the specification words them

    The filter restricted to what the specification says of it, and the
    loop over the hours as a scan of flags; the properties below relate
    them to the program. *)

(** The filter as the specification words it: every date is kept, and
    under a date the feeders of the keep set, with their maps. *)
Definition restrictFeeders (keepSet : list jsstring)
    (feeders : list (jsstring * value)) : list (jsstring * value) :=
  filter (fun kv => arrayIncludes keepSet (fst kv)) feeders.

Definition restrictDates (keepSet : list jsstring)
    (dates : list (jsstring * value)) : resultObject :=
  map (fun kv => (fst kv, restrictFeeders keepSet (propsOf (snd kv)))) dates.

Definition restrictDocument (keepSet : list jsstring)
    (dates : list (jsstring * value)) : list (jsstring * value) :=
  map (fun kv => (fst kv, VObj (restrictFeeders keepSet (propsOf (snd kv))))) dates.

(** The keep set as the assignments honour it: a feeder named
    [__proto__] never becomes an own property of the result. *)
Definition withoutProto (keepSet : list jsstring) : list jsstring :=
  filter (fun k => negb (streq k protoKey)) keepSet.

(** One turn of the loop over the hours, given whether the status of the
    hour is ["no"]. *)
Definition advance (st : list period * option period) (hour : Z) (no : bool)
    : list period * option period :=
  let '(noLightPeriods, currentPeriod) := st in
  if no then
    match currentPeriod with
    | None => (noLightPeriods, Some {| start := hour - 1; end_ := hour |})
    | Some p => (noLightPeriods, Some {| start := start p; end_ := hour |})
    end
  else
    match currentPeriod with
    | Some p => (noLightPeriods ++ [p], None)
    | None => (noLightPeriods, None)
    end.

Fixpoint scan (flag : Z -> bool) (hs : list Z) (st : list period * option period)
    : list period * option period :=
  match hs with
  | [] => st
  | h :: r => scan flag r (advance st h (flag h))
  end.

(** The closing [if (currentPeriod !== null)]. *)
Definition close (st : list period * option period) : list period :=
  match snd st with
  | Some p => fst st ++ [p]
  | None => fst st
  end.

(** The hours [a, a+1, ...], [n] of them. *)
Fixpoint hoursFrom (a : Z) (n : nat) : list Z :=
  match n with
  | O => []
  | S n' => a :: hoursFrom (a + 1) n'
  end.

(** The periods lie in [lo .. hi], each is not empty, and each begins
    after the one before it has ended, with an hour between them. *)
Fixpoint separated (lo : Z) (ps : list period) (hi : Z) : Prop :=
  match ps with
  | [] => True
  | p :: r =>
      lo <= start p /\ start p < end_ p /\ end_ p <= hi /\
      separated (end_ p + 1) r hi
  end.

(** The hour [x], which stands for the time from [x-1] to [x], lies in one
    of the periods. *)
Definition covers (ps : list period) (x : Z) : Prop :=
  exists p, In p ps /\ start p < x <= end_ p.

(** Whether the status that [timeSlots] has under hour [h] is ["no"]. *)
Definition noAt (props : list (jsstring * value)) (h : Z) : bool :=
  match lookup (numberToString h) props with
  | Some status => isNo status
  | None => false
  end.

(** The state of the loop when the hours up to [h] are done. *)
Definition scanned (flag : Z -> bool) (h : Z) (st : list period * option period)
    : Prop :=
  match st with
  | (acc, None) =>
      separated 0 acc (h - 1) /\
      forall x, 1 <= x <= h -> (flag x = true <-> covers acc x)
  | (acc, Some p) =>
      separated 0 (acc ++ [p]) h /\ end_ p = h /\
      forall x, 1 <= x <= h -> (flag x = true <-> covers (acc ++ [p]) x)
  end.

(** ** Data for the examples *)

(** A document of two dates for the examples: feeders GPV5.1 and GPV1.1 on
    the first, GPV1.1 alone on the second. *)
Definition sampleDocument : value :=
  VObj
    [(lit "1700000000",
      VObj [(lit "GPV5.1", VObj [(lit "9", VStr (lit "no"));
                                 (lit "10", VStr (lit "no"));
                                 (lit "11", VStr (lit "yes"))]);
            (lit "GPV1.1", VObj [(lit "1", VStr (lit "no"))])]);
     (lit "1700086400",
      VObj [(lit "GPV1.1", VObj [(lit "24", VStr (lit "no"))])])].

(** A schedule document with a feeder named [__proto__], as [JSON.parse]
    builds it: the key is an own property there. *)
Definition protoFeeders : list (jsstring * value) :=
  [(protoKey, VObj [(lit "1", VStr (lit "no"))]);
   (lit "GPV5.1", VObj [(lit "2", VStr (lit "no"))])].

Definition protoDocument : value :=
  VObj [(lit "1700000000", VObj protoFeeders)].

(** A document one of whose keys is [hasOwnProperty]. *)
Definition hiddenMethodDocument : value :=
  VObj [(lit "1700000000", VObj [(lit "GPV5.1", VObj [])]);
        (lit "hasOwnProperty", VObj [])].

Definition gapFlags (h : Z) : bool :=
  (h =? 3) || (h =? 4) || (h =? 5) || (h =? 9).

Definition gapMap : list (jsstring * value) :=
  [(lit "3", VStr (lit "no")); (lit "4", VStr (lit "no"));
   (lit "5", VStr (lit "no")); (lit "6", VStr (lit "yes"));
   (lit "9", VStr (lit "no"))].

(** The map with the keys ["1"] to ["24"], each with the status ["no"]. *)
Definition wholeDayMap : list (jsstring * value) :=
  map (fun h => (numberToString h, VStr (lit "no"))) hours.

Definition nineOnly : list (jsstring * value) := [(lit "9", VStr (lit "no"))].

Definition nineAndOthers : list (jsstring * value) :=
  [(lit "0", VStr (lit "no")); (lit "9", VStr (lit "no"));
   (lit "25", VStr (lit "no")); (lit "09", VStr (lit "yes"));
   (lit "x", VStr (lit "no"))].

(** The page of the scenario: one script, which is the assignment. *)
Definition factScript : jsstring :=
  lit "DisconSchedule.fact = {'1700000000': {'GPV5.1': {'9':'no','10':'no','11':'yes'}}}".

(** The same assignment with the document under a field [data]. *)
Definition wrappedScript : jsstring :=
  lit "DisconSchedule.fact = {'data': {'1700000000': {'GPV5.1': {'9':'no','10':'no','11':'yes'}}}}".

Definition factDocument : value :=
  VObj [(lit "1700000000",
         VObj [(lit "GPV5.1", VObj [(lit "9", VStr (lit "no"));
                                    (lit "10", VStr (lit "no"));
                                    (lit "11", VStr (lit "yes"))])])].

Definition pageOf (txt : jsstring) : fetched :=
  Responded {| ok := true; status := 200; scripts := [txt] |}.

(** The line of the scenario: the date is the one the host gives for the
    time value 1700000000 * 1000. *)
Definition factLine (host : Host) : jsstring :=
  utf8 "Дата " ++ toLocaleDateString host 1700000000000
    ++ utf8 ", график 5.1, света не будет в такие промежутки: 8 - 10".

(** ** Further operations as the source shows them *)

(** No event of the list is a [console.error]. *)
Definition noError (evs : list event) : bool :=
  forallb (fun ev => match ev with LogError _ => false | _ => true end) evs.

(** An assignment whose object has the document under [data] and the
    status ["error"] beside it. *)
Definition statusScript : jsstring :=
  lit "DisconSchedule.fact = {'data': {'1700000000': {}}, 'status': 'error'}".

(** Group 1 of the first script that the expression of [fetchShutdowns]
    matches, in document order. *)
Fixpoint firstCapture (scripts : list jsstring) : option jsstring :=
  match scripts with
  | [] => None
  | txt :: rest =>
      match matchFact txt with
      | Some m1 => Some m1
      | None => firstCapture rest
      end
  end.

(** A script with two statements before the assignment and one after. *)
Definition longScript : jsstring :=
  lit "var a = {}; DisconSchedule.preset = {'x': {}}; DisconSchedule.fact  =  {'1': {}}   DisconSchedule.done = 1;".

(** The object has an own property [hasOwnProperty] and at least one
    key to enumerate: the call [obj.hasOwnProperty(dateKey)] finds the
    property in place of the method. *)
Definition hidesHasOwnProperty (obj : value) : bool :=
  match obj with
  | VObj (kv :: rest) =>
      match lookup (lit "hasOwnProperty") (kv :: rest) with
      | Some _ => true
      | None => false
      end
  | _ => false
  end.

(** The hours of all the periods together. *)
Definition duration (ps : list period) : Z :=
  fold_right (fun p total => (end_ p - start p) + total) 0 ps.

(** The line of one feeder: none when it has no interval, and none when
    its intervals cannot be read. *)
Definition feederLines (date scheduleName : jsstring) (timeSlots : value)
    : list jsstring :=
  match collectPeriods timeSlots with
  | Normal (p :: ps) => [scheduleLine date scheduleName (p :: ps)]
  | _ => []
  end.

(** The lines of a report, date after date and under a date feeder after
    feeder, of the feeders that [keep] accepts. *)
Definition reportLines (host : Host) (keep : jsstring -> bool)
    (dates : list (jsstring * value)) : list jsstring :=
  flat_map
    (fun d =>
       flat_map
         (fun f =>
            if keep (fst f)
            then feederLines (formattedDate host (fst d)) (fst f) (snd f)
            else [])
         (propsOf (snd d)))
    dates.

(** A document with a feeder whose map is [null]. *)
Definition nullFeederDocument : value :=
  VObj [(lit "1700000000",
         VObj [(lit "GPV5.1", VObj [(lit "9", VStr (lit "no"))]);
               (lit "GPV3.2", VNull)])].

(** A document none of whose hours from 1 to 24 is ["no"]. *)
Definition litDocument : value :=
  VObj [(lit "1700000000",
         VObj [(lit "GPV5.1", VObj [(lit "0", VStr (lit "no"));
                                    (lit "9", VStr (lit "yes"))]);
               (lit "GPV3.2", VObj [])]);
        (lit "1700086400", VObj [])].

(** ** Object literals as text

    The texts that a page may assign: objects of objects and strings, the
    strings between quotes of one kind, a key between the same quotes or,
    when it is a word, bare. *)

(** A character that a literal holds as it is in a key or a string: no
    control character, quote, backslash, colon or closing brace. *)
Definition isPlainChar (c : N) : bool :=
  ((32 <=? c)
   && negb ((c =? 34) || (c =? 39) || (c =? 92) || (c =? 58) || (c =? 125)))%N.

Definition isPlainText (s : jsstring) : bool := forallb isPlainChar s.

(** A key that may stand without quotes: word characters, at least one. *)
Definition isBareKey (k : jsstring) : bool :=
  match k with
  | [] => false
  | _ :: _ => forallb isWordChar k
  end.

Definition writeKey (quote : N) (bare : jsstring -> bool) (k : jsstring)
    : jsstring :=
  if bare k then k else quote :: k ++ [quote].

(** The text of a value; [bare] tells the keys that are written without
    quotes.  Values other than strings and objects are not written. *)
Fixpoint writeLiteral (quote : N) (bare : jsstring -> bool) (v : value)
    : jsstring :=
  match v with
  | VStr s => quote :: s ++ [quote]
  | VObj props =>
      [123%N]
        ++ join [44%N]
             (map (fun kv => writeKey quote bare (fst kv) ++ [58%N]
                               ++ writeLiteral quote bare (snd kv))
                props)
        ++ [125%N]
  | _ => []
  end.

Definition writeMember (quote : N) (bare : jsstring -> bool)
    (kv : jsstring * value) : jsstring :=
  writeKey quote bare (fst kv) ++ [58%N] ++ writeLiteral quote bare (snd kv).

(** A key as [bare] has it written: a word when bare, and plain text
    otherwise. *)
Definition keyOk (bare : jsstring -> bool) (k : jsstring) : bool :=
  if bare k then isBareKey k else isPlainText k.

(** The values that [writeLiteral] writes: strings of plain text and
    objects of such values, the keys in the order of enumeration, a bare
    key a word and any other key plain text. *)
Fixpoint isPlainLiteral (bare : jsstring -> bool) (v : value) : bool :=
  match v with
  | VStr s => isPlainText s
  | VObj props =>
      ownKeysOk (map fst props)
      && forallb
           (fun kv => keyOk bare (fst kv) && isPlainLiteral bare (snd kv))
           props
  | _ => false
  end.

(** The script that assigns the text [literal], with white space [gap1]
    and [gap2] about the equals sign, and [after] behind the literal. *)
Definition assignment (gap1 gap2 literal after : jsstring) : jsstring :=
  marker ++ gap1 ++ [61%N] ++ gap2 ++ literal ++ after.

(** A text begins with a comma or a closing brace. *)
Definition closes (t : jsstring) : bool :=
  match t with
  | c :: _ => ((c =? 44) || (c =? 125))%N
  | [] => false
  end.

(** A text does not begin with a word character. *)
Definition atBoundary (t : jsstring) : bool :=
  match t with
  | c :: _ => negb (isWordChar c)
  | [] => true
  end.

(** A script that assigns an object with the document of the scenario
    under a bare key [data], in single quotes, and a statement behind. *)
Definition bareScript : jsstring :=
  lit "DisconSchedule.fact  = {data:{'1700000000':{'GPV5.1':{'9':'no','10':'no','11':'yes'}}}} DisconSchedule.done = 1;".

(** * Properties *)

(** ** Evaluations *)

Example utf8_cyrillic : utf8 "Дата" = [1044; 1072; 1090; 1072]%N.
Proof. reflexivity. Qed.

Example numberToString_forms :
  numberToString 24 = lit "24" /\ numberToString 0 = lit "0" /\
  numberToString (-5) = lit "-5".
Proof. repeat split. Qed.

Example setProp_order :
  setProp (lit "2") VNull (setProp (lit "b") VNull (setProp (lit "10") VNull []))
  = [(lit "2", VNull); (lit "10", VNull); (lit "b", VNull)].
Proof. reflexivity. Qed.

Example utcDate_1700000000 : utcDate 1700000000000 = lit "14.11.2023".
Proof. reflexivity. Qed.

Example parseInt_forms :
  parseInt (lit "1700000000") = Some 1700000000 /\
  parseInt (lit "  -0x1fz") = Some (-31) /\
  parseInt (lit "12px") = Some 12 /\
  parseInt (lit "GPV") = None.
Proof. repeat split. Qed.

(** The group ends at the first closing brace that the next statement of
    the namespace, or the end of the script, follows. *)
Example matchFact_next_statement :
  matchFact (lit "var a; DisconSchedule.fact = {a:{}} DisconSchedule.preset = {}; ")
  = Some (lit "{a:{}}").
Proof. vm_compute. reflexivity. Qed.

Example matchFact_not_an_object :
  matchFact (lit "DisconSchedule.fact = 1;") = None.
Proof. vm_compute. reflexivity. Qed.

Example quoteKeys_bare_keys :
  doubleQuotes (quoteKeys (lit "{a : 1, 'b':2, c d: 3}"))
  = doubleQuotes (lit "{'a': 1, 'b':2, c 'd': 3}").
Proof. vm_compute. reflexivity. Qed.

(** Array indices come first, in ascending order; a key read twice keeps
    its place and takes the later value. *)
Example JSON_parse_order :
  JSON_parse (doubleQuotes (lit "{'b': [1, -2.50e3, true], '10': null, '2': 'x', 'b': {}}"))
  = Some (VObj [(lit "2", VStr (lit "x")); (lit "10", VNull); (lit "b", VObj [])]).
Proof. vm_compute. reflexivity. Qed.

Example JSON_parse_rejects :
  JSON_parse (lit "{a: 1}") = None /\
  JSON_parse (lit "[1,]") = None /\
  JSON_parse (lit "01") = None /\
  JSON_parse (lit "{} x") = None.
Proof. repeat split. Qed.

Example filterGPVKeys_sample :
  filterGPVKeys sampleDocument [lit "GPV1.1"]
  = Normal (VObj [(lit "1700000000",
                   VObj [(lit "GPV1.1", VObj [(lit "1", VStr (lit "no"))])]);
                  (lit "1700086400",
                   VObj [(lit "GPV1.1", VObj [(lit "24", VStr (lit "no"))])])]).
Proof. vm_compute. reflexivity. Qed.

(** The key [__proto__] in the filter.  Under a date it sets a prototype
    and makes no property; as a date it makes the new object the prototype
    of [result], so that the date is no property of the result; and when
    [null] has become the prototype of that object, [result.__proto__] is
    [undefined] and the next assignment throws. *)
Example filterGPVKeys_proto_keys :
  filterGPVKeys
    (VObj [(lit "1700000000",
            VObj [(protoKey, VObj [(lit "1", VStr (lit "no"))])])])
    [protoKey; lit "1"]
  = Normal (VObj [(lit "1700000000", VObj [])]) /\
  filterGPVKeys
    (VObj [(protoKey, VObj [(lit "GPV5.1", VObj [(lit "1", VStr (lit "no"))])]);
           (lit "1700000000", VObj [(lit "GPV5.1", VObj [])])])
    [lit "GPV5.1"]
  = Normal (VObj [(lit "1700000000", VObj [(lit "GPV5.1", VObj [])])]) /\
  filterGPVKeys
    (VObj [(protoKey, VObj [(protoKey, VNull); (lit "x", VNum 1 0)])])
    [protoKey; lit "x"]
  = Throw TypeError /\
  filterGPVKeys
    (VObj [(protoKey, VObj [(lit "x", VNum 1 0); (protoKey, VNull)])])
    [protoKey; lit "x"]
  = Normal (VObj []).
Proof. repeat split. Qed.

Example parseLightSchedule_sample :
  parseLightSchedule exampleHost sampleDocument
  = Normal (utf8 "Дата 14.11.2023, график 5.1, света не будет в такие промежутки: 8 - 10"
            ++ [10%N]
            ++ utf8 "Дата 14.11.2023, график 1.1, света не будет в такие промежутки: 0 - 1"
            ++ [10%N]
            ++ utf8 "Дата 15.11.2023, график 1.1, света не будет в такие промежутки: 23 - 24").
Proof. vm_compute. reflexivity. Qed.

Example factLine_utc :
  factLine exampleHost
  = utf8 "Дата 14.11.2023, график 5.1, света не будет в такие промежутки: 8 - 10".
Proof. vm_compute. reflexivity. Qed.

Example collectPeriods_of_null : collectPeriods VNull = Throw TypeError.
Proof. reflexivity. Qed.

Example startHandler_http_500 :
  startHandler exampleHost exampleUser
    (Responded {| ok := false; status := 500; scripts := [] |})
  = [Log (utf8 "/start from anna");
     Reply (utf8 "Привет, пользователь! Запрашиваю данные...");
     LogError (HttpError 500);
     Reply (utf8 "Упс — не удалось получить данные. Попробуйте позже.")].
Proof. vm_compute. reflexivity. Qed.

(** ** Strings and objects *)

Section ObjectFacts.

Context {V : Type}.
Implicit Types (v : V) (r : list (jsstring * V)).

Lemma streq_eq (a b : jsstring) : streq a b = true <-> a = b.
Proof.
  revert b; induction a as [|x a IH]; intros [|y b]; simpl; split;
    try congruence; try reflexivity.
  - intros H. apply andb_true_iff in H as [Hx Hab].
    apply N.eqb_eq in Hx. apply IH in Hab. congruence.
  - intros H. inversion H; subst. rewrite N.eqb_refl. simpl. now apply IH.
Qed.

Lemma streq_refl (a : jsstring) : streq a a = true.
Proof. now apply streq_eq. Qed.

Lemma streq_sym (a b : jsstring) : streq a b = streq b a.
Proof.
  destruct (streq a b) eqn:E1, (streq b a) eqn:E2; try reflexivity.
  - apply streq_eq in E1. subst. now rewrite streq_refl in E2.
  - apply streq_eq in E2. subst. now rewrite streq_refl in E1.
Qed.

Lemma lookup_setIndex_same n k v r : lookup k (setIndex n k v r) = Some v.
Proof.
  induction r as [|[k' v'] r IH]; simpl.
  - now rewrite streq_refl.
  - destruct (streq k' k) eqn:E; simpl.
    + now rewrite E.
    + destruct (arrayIndex k') as [n'|]; [destruct (n' <? n)%N|];
        simpl; rewrite ?E, ?streq_refl; auto.
Qed.

Lemma lookup_setNamed_same k v r : lookup k (setNamed k v r) = Some v.
Proof.
  induction r as [|[k' v'] r IH]; simpl.
  - now rewrite streq_refl.
  - destruct (streq k' k) eqn:E; simpl; now rewrite E.
Qed.

Lemma lookup_setProp_same k v r : lookup k (setProp k v r) = Some v.
Proof.
  unfold setProp. destruct (arrayIndex k).
  - apply lookup_setIndex_same.
  - apply lookup_setNamed_same.
Qed.

(** A second assignment to a key replaces the first. *)
Lemma setProp_setProp k v1 v2 r : setProp k v2 (setProp k v1 r) = setProp k v2 r.
Proof.
  unfold setProp. destruct (arrayIndex k) as [n|].
  - induction r as [|[k' v'] r IH]; simpl.
    + now rewrite streq_refl.
    + destruct (streq k' k) eqn:E; simpl.
      * now rewrite E.
      * destruct (arrayIndex k') as [n'|] eqn:En; [destruct (n' <? n)%N eqn:Elt|];
          simpl; rewrite ?E, ?En, ?Elt, ?streq_refl; simpl; congruence.
  - induction r as [|[k' v'] r IH]; simpl.
    + now rewrite streq_refl.
    + destruct (streq k' k) eqn:E; simpl; rewrite E; congruence.
Qed.

(** A key that may follow every key of the object is appended. *)
Lemma setProp_snoc k v r :
  Forall (fun kv => before (fst kv) k = true) r ->
  setProp k v r = r ++ [(k, v)].
Proof.
  unfold setProp, before. intros H.
  destruct (arrayIndex k) as [n|] eqn:Ek.
  - induction H as [|[k' v'] r Hk _ IH]; simpl; [reflexivity|].
    simpl in Hk. apply andb_true_iff in Hk as [Hne Hlt].
    apply negb_true_iff in Hne. rewrite Hne.
    destruct (arrayIndex k') as [n'|]; [|discriminate].
    rewrite Hlt. now rewrite IH.
  - induction H as [|[k' v'] r Hk _ IH]; simpl; [reflexivity|].
    simpl in Hk. apply andb_true_iff in Hk as [Hne _].
    apply negb_true_iff in Hne. rewrite Hne. now rewrite IH.
Qed.

Lemma ownKeysOk_app ks1 ks2 :
  ownKeysOk (ks1 ++ ks2) = true ->
  ownKeysOk ks1 = true /\ ownKeysOk ks2 = true /\
  forall k1 k2, In k1 ks1 -> In k2 ks2 -> before k1 k2 = true.
Proof.
  induction ks1 as [|k ks1 IH]; simpl; intros H.
  - split; [reflexivity|]. split; [assumption|]. intros ? ? [].
  - apply andb_true_iff in H as [Hk Hr].
    rewrite forallb_app in Hk. apply andb_true_iff in Hk as [Hk1 Hk2].
    destruct (IH Hr) as (H1 & H2 & H3).
    rewrite Hk1, H1. split; [reflexivity|]. split; [assumption|].
    intros k1 k2 [<-|Hin] Hin2; [|now apply H3].
    rewrite forallb_forall in Hk2. now apply Hk2.
Qed.

Lemma ownKeysOk_filter (f : jsstring -> bool) ks :
  ownKeysOk ks = true -> ownKeysOk (filter f ks) = true.
Proof.
  induction ks as [|k ks IH]; simpl; intros H; [reflexivity|].
  apply andb_true_iff in H as [Hk Hr].
  destruct (f k); simpl; [|now apply IH].
  rewrite IH by assumption. rewrite andb_true_r.
  rewrite forallb_forall in *. intros x Hx.
  apply filter_In in Hx as [Hx _]. now apply Hk.
Qed.

Lemma lookup_None k r :
  (forall kv, In kv r -> streq (fst kv) k = false) -> lookup k r = None.
Proof.
  induction r as [|[k' v'] r IH]; simpl; intros H; [reflexivity|].
  generalize (H (k', v') (or_introl eq_refl)). simpl. intros ->.
  apply IH. intros kv Hin. apply H. now right.
Qed.

(** The property at a place of a well-ordered object is the one found
    under its key. *)
Lemma lookup_middle prefix k v suffix :
  ownKeysOk (map fst (prefix ++ (k, v) :: suffix)) = true ->
  lookup k (prefix ++ (k, v) :: suffix) = Some v.
Proof.
  rewrite map_app. intros H. apply ownKeysOk_app in H as (_ & _ & H).
  induction prefix as [|[k' v'] prefix IH]; simpl.
  - now rewrite streq_refl.
  - assert (Hb : before k' k = true) by (apply H; simpl; auto).
    unfold before in Hb. apply andb_true_iff in Hb as [Hne _].
    apply negb_true_iff in Hne. rewrite Hne.
    apply IH. intros k1 k2 H1 H2. apply H; simpl; auto.
Qed.

Lemma lookup_In k v r :
  ownKeysOk (map fst r) = true -> In (k, v) r -> lookup k r = Some v.
Proof.
  intros Hok Hin. apply in_split in Hin as (l1 & l2 & ->).
  now apply lookup_middle.
Qed.

Lemma lookup_Some_In k v r : lookup k r = Some v -> In (k, v) r.
Proof.
  induction r as [|[k' v'] r IH]; simpl; [discriminate|].
  destruct (streq k' k) eqn:E.
  - intros [= ->]. apply streq_eq in E. subst. now left.
  - intros H. right. now apply IH.
Qed.

End ObjectFacts.

(** ** The order of the keys of an object *)

Section KeyOrder.

Lemma isDigit_range c : isDigit c = true -> (48 <= c <= 57)%N.
Proof.
  unfold isDigit. intros H. apply andb_true_iff in H as [H1 H2].
  apply N.leb_le in H1, H2. lia.
Qed.

Lemma digitsValue_snoc s : forall acc c,
  digitsValue acc (s ++ [c])
  = match digitsValue acc s with
    | Some v => if isDigit c then Some (v * 10 + (c - 48))%N else None
    | None => None
    end.
Proof.
  induction s as [|x s IH]; intros acc c; simpl.
  - reflexivity.
  - destruct (isDigit x); [apply IH|reflexivity].
Qed.

(** A run of digits that does not begin with [0] and is not empty has a
    positive value. *)
Lemma digitsValue_positive s : forall acc n,
  digitsValue acc s = Some n -> (acc <= n)%N /\
  (forall c r, s = c :: r -> acc = 0%N -> c <> 48%N -> (0 < n)%N).
Proof.
  induction s as [|x s IH]; intros acc n H; simpl in H.
  - injection H as <-. split; [lia|discriminate].
  - destruct (isDigit x) eqn:Ex; [|discriminate].
    apply isDigit_range in Ex. destruct (IH _ _ H) as [Hle _].
    split; [lia|]. intros c r [= <- <-] -> Hc. lia.
Qed.

(** Two runs of digits with the same value, neither beginning with [0],
    are the same run. *)
Lemma digitsValue_inj s1 : forall s2 n,
  digitsValue 0 s1 = Some n -> digitsValue 0 s2 = Some n ->
  hd 49%N s1 <> 48%N -> hd 49%N s2 <> 48%N -> s1 = s2.
Proof.
  induction s1 as [|c1 s1 IH] using rev_ind; intros s2 n H1 H2 Z1 Z2.
  - simpl in H1. injection H1 as <-.
    destruct s2 as [|c r]; [reflexivity|].
    destruct (digitsValue_positive _ _ _ H2) as [_ Hpos].
    specialize (Hpos c r eq_refl eq_refl Z2). lia.
  - destruct s2 as [|c2 s2 _] using rev_ind.
    + simpl in H2. injection H2 as <-.
      destruct (digitsValue_positive _ _ _ H1) as [_ Hpos].
      destruct s1 as [|x s1]; simpl in *.
      * specialize (Hpos c1 [] eq_refl eq_refl Z1). lia.
      * specialize (Hpos x (s1 ++ [c1]) eq_refl eq_refl Z1). lia.
    + rewrite digitsValue_snoc in H1, H2.
      destruct (digitsValue 0 s1) as [v1|] eqn:E1; [|discriminate].
      destruct (digitsValue 0 s2) as [v2|] eqn:E2; [|discriminate].
      destruct (isDigit c1) eqn:D1; [|discriminate].
      destruct (isDigit c2) eqn:D2; [|discriminate].
      apply isDigit_range in D1, D2.
      injection H1 as H1. injection H2 as H2.
      assert (v1 = v2 /\ c1 = c2) as [-> ->] by lia.
      f_equal. apply (IH s2 v2); auto.
      * destruct s1; simpl in *; [discriminate|assumption].
      * destruct s2; simpl in *; [discriminate|assumption].
Qed.

Lemma arrayIndex_digits k n :
  arrayIndex k = Some n ->
  digitsValue 0 k = Some n /\ k <> [] /\ (k = [48%N] \/ hd 49%N k <> 48%N).
Proof.
  unfold arrayIndex. destruct k as [|c r]; [discriminate|].
  destruct (c =? 48)%N eqn:Ec.
  - destruct r as [|x r]; [|discriminate]. cbn [andb negb].
    apply N.eqb_eq in Ec. subst c.
    destruct (digitsValue 0 [48%N]) as [v|]; [|discriminate].
    destruct (v <? 4294967295)%N; [|discriminate]. intros [= <-].
    repeat split; auto. discriminate.
  - cbn [andb]. apply N.eqb_neq in Ec.
    destruct (digitsValue 0 (c :: r)) as [v|]; [|discriminate].
    destruct (v <? 4294967295)%N; [|discriminate]. intros [= <-].
    repeat split; auto. discriminate.
Qed.

(** An array index has one key. *)
Lemma arrayIndex_inj k1 k2 n :
  arrayIndex k1 = Some n -> arrayIndex k2 = Some n -> k1 = k2.
Proof.
  intros H1 H2.
  apply arrayIndex_digits in H1 as (V1 & N1 & C1), H2 as (V2 & N2 & C2).
  destruct C1 as [->|C1], C2 as [->|C2]; try reflexivity.
  - simpl in V1. injection V1 as <-.
    destruct k2 as [|c r]; [contradiction|].
    destruct (digitsValue_positive _ _ _ V2) as [_ Hpos].
    specialize (Hpos c r eq_refl eq_refl C2). lia.
  - simpl in V2. injection V2 as <-.
    destruct k1 as [|c r]; [contradiction|].
    destruct (digitsValue_positive _ _ _ V1) as [_ Hpos].
    specialize (Hpos c r eq_refl eq_refl C1). lia.
  - exact (digitsValue_inj k1 k2 n V1 V2 C1 C2).
Qed.

Context {V : Type}.
Implicit Types (v : V) (r : list (jsstring * V)).

Lemma ownKeysOk_cons k ks :
  ownKeysOk (k :: ks) = true <->
  (forall k', In k' ks -> before k k' = true) /\ ownKeysOk ks = true.
Proof.
  simpl. rewrite andb_true_iff, forallb_forall. reflexivity.
Qed.

(** An assignment keeps the keys of an object in the order of
    enumeration. *)
Lemma setIndex_keys_ok n k v r :
  arrayIndex k = Some n ->
  ownKeysOk (map fst r) = true ->
  ownKeysOk (map fst (setIndex n k v r)) = true /\
  (forall k0, (forall k', In k' (map fst r) -> before k0 k' = true) ->
     before k0 k = true ->
     forall k', In k' (map fst (setIndex n k v r)) -> before k0 k' = true).
Proof.
  intros Hk. induction r as [|[k1 v1] r IH]; intros Hok.
  - simpl. split; [reflexivity|]. intros k0 _ Hb k' [<-|[]]. exact Hb.
  - cbn [map fst] in Hok. apply ownKeysOk_cons in Hok as [Hfirst Hrest].
    cbn [setIndex]. destruct (streq k1 k) eqn:E.
    + cbn [map fst]. split.
      * apply ownKeysOk_cons. auto.
      * intros k0 Hall _ k' Hin. apply Hall. exact Hin.
    + assert (Hne : k1 <> k).
      { intros ->. now rewrite streq_refl in E. }
      assert (Hinsert :
        (forall n1, arrayIndex k1 = Some n1 -> (n < n1)%N) ->
        ownKeysOk (map fst ((k, v) :: (k1, v1) :: r)) = true /\
        (forall k0, (forall k', In k' (map fst ((k1, v1) :: r)) -> before k0 k' = true) ->
           before k0 k = true ->
           forall k', In k' (map fst ((k, v) :: (k1, v1) :: r)) -> before k0 k' = true)).
      { intros Hgt. split.
        - cbn [map fst]. apply ownKeysOk_cons. split.
          + assert (Hk1 : before k k1 = true).
            { unfold before. rewrite streq_sym, E. cbn [negb andb]. rewrite Hk.
              destruct (arrayIndex k1) as [n1|] eqn:E1; [|reflexivity].
              apply N.ltb_lt. now apply Hgt. }
            intros k' [<-|Hin]; [exact Hk1|].
            specialize (Hfirst _ Hin). unfold before in *.
            apply andb_true_iff in Hfirst as [Hd Ho].
            apply andb_true_iff in Hk1 as [_ Ho1]. rewrite Hk in *.
            destruct (arrayIndex k') as [n'|] eqn:E'.
            * destruct (arrayIndex k1) as [n1|] eqn:E1; [|discriminate].
              apply N.ltb_lt in Ho, Ho1.
              apply andb_true_iff. split.
              -- apply negb_true_iff. destruct (streq k k') eqn:Ekk; [|reflexivity].
                 apply streq_eq in Ekk. subst k'. rewrite Hk in E'.
                 injection E' as <-. lia.
              -- apply N.ltb_lt. lia.
            * rewrite andb_true_r. apply negb_true_iff.
              destruct (streq k k') eqn:Ekk; [|reflexivity].
              apply streq_eq in Ekk. subst k'. congruence.
          + apply ownKeysOk_cons. auto.
        - intros k0 Hall Hb k' [<-|Hin]; [exact Hb|now apply Hall]. }
      destruct (arrayIndex k1) as [n1|] eqn:E1.
      * destruct (n1 <? n)%N eqn:Elt.
        -- destruct (IH Hrest) as [IH1 IH2]. cbn [map fst]. split.
           ++ apply ownKeysOk_cons. split; [|exact IH1].
              apply IH2; [exact Hfirst|].
              unfold before. rewrite E, Hk, E1, Elt. reflexivity.
           ++ intros k0 Hall Hb k' [<-|Hin].
              ** apply Hall. now left.
              ** apply (IH2 k0); auto. intros k2 H2. apply Hall. now right.
        -- apply Hinsert. intros n1' [= <-]. apply N.ltb_ge in Elt.
           assert (n1 <> n); [|lia]. intros ->.
           apply Hne. exact (arrayIndex_inj _ _ _ E1 Hk).
      * apply Hinsert. discriminate.
Qed.

Lemma setNamed_keys_ok k v r :
  arrayIndex k = None ->
  ownKeysOk (map fst r) = true ->
  ownKeysOk (map fst (setNamed k v r)) = true /\
  (forall k0, (forall k', In k' (map fst r) -> before k0 k' = true) ->
     before k0 k = true ->
     forall k', In k' (map fst (setNamed k v r)) -> before k0 k' = true).
Proof.
  intros Hk. induction r as [|[k1 v1] r IH]; intros Hok.
  - simpl. split; [reflexivity|]. intros k0 _ Hb k' [<-|[]]. exact Hb.
  - cbn [map fst] in Hok. apply ownKeysOk_cons in Hok as [Hfirst Hrest].
    cbn [setNamed]. destruct (streq k1 k) eqn:E; cbn [map fst].
    + split; [apply ownKeysOk_cons; auto|].
      intros k0 Hall _ k' Hin. now apply Hall.
    + destruct (IH Hrest) as [IH1 IH2]. split.
      * apply ownKeysOk_cons. split; [|exact IH1].
        apply IH2; [exact Hfirst|]. unfold before. now rewrite E, Hk.
      * intros k0 Hall Hb k' [<-|Hin].
        -- apply Hall. now left.
        -- apply (IH2 k0); auto. intros k2 H2. apply Hall. now right.
Qed.

Lemma setProp_keys_ok k v r :
  ownKeysOk (map fst r) = true -> ownKeysOk (map fst (setProp k v r)) = true.
Proof.
  intros Hok. unfold setProp. destruct (arrayIndex k) as [n|] eqn:Ek.
  - now apply setIndex_keys_ok.
  - now apply setNamed_keys_ok.
Qed.

End KeyOrder.

(** ** The keys of what [JSON.parse] returns *)

Section ParserKeys.

Lemma setProp_values {V} (P : V -> Prop) k (v : V) r :
  P v -> Forall (fun kv => P (snd kv)) r ->
  Forall (fun kv => P (snd kv)) (setProp k v r).
Proof.
  intros Hv Hr. unfold setProp. destruct (arrayIndex k) as [n|].
  - induction Hr as [|[k1 v1] r H1 Hr IH]; simpl.
    + repeat constructor. exact Hv.
    + destruct (streq k1 k).
      * constructor; auto.
      * destruct (arrayIndex k1) as [n1|]; [destruct (n1 <? n)%N|];
          repeat (constructor; auto).
  - induction Hr as [|[k1 v1] r H1 Hr IH]; simpl.
    + repeat constructor. exact Hv.
    + destruct (streq k1 k); constructor; auto.
Qed.

Variable pv : jsstring -> option (value * jsstring).
Hypothesis pv_ok : forall s v r, pv s = Some (v, r) -> wellKeyed v = true.

(** The cases of a code unit that a [match] on literals tells apart. *)
Ltac split_code c :=
  destruct c as [|?p];
  [try discriminate
  |repeat (match goal with p : positive |- _ => destruct p end; try discriminate)].

Lemma parseElements_wellKeyed fuel : forall acc s v r,
  forallb wellKeyed acc = true ->
  parseElements pv fuel acc s = Some (v, r) -> wellKeyed v = true.
Proof.
  induction fuel as [|fuel IH]; intros acc s v r Hacc H;
    [discriminate|].
  cbn [parseElements] in H.
  destruct (pv s) as [[x r1]|] eqn:Ex; [|discriminate].
  assert (Hx : forallb wellKeyed (acc ++ [x]) = true).
  { rewrite forallb_app, Hacc. simpl. now rewrite (pv_ok _ _ _ Ex). }
  destruct (skipJsonSpace r1) as [|c r2]; [discriminate|].
  split_code c;
    first [exact (IH _ _ _ _ Hx H) | injection H as <- _; exact Hx].
Qed.

Lemma parseMembers_wellKeyed fuel : forall acc s v r,
  wellKeyed (VObj acc) = true ->
  parseMembers pv fuel acc s = Some (v, r) -> wellKeyed v = true.
Proof.
  induction fuel as [|fuel IH]; intros acc s v r Hacc H;
    [discriminate|].
  cbn [parseMembers] in H.
  destruct (skipJsonSpace s) as [|q r0]; [discriminate|].
  split_code q.
  destruct (parseStringBody [] r0) as [[k r1]|]; [|discriminate].
  destruct (skipJsonSpace r1) as [|c r2]; [discriminate|].
  split_code c.
  destruct (pv r2) as [[x r3]|] eqn:Ex; [|discriminate].
  assert (Hx : wellKeyed (VObj (setProp k x acc)) = true).
  { cbn [wellKeyed] in Hacc |- *. apply andb_true_iff in Hacc as [Hk Hv].
    rewrite setProp_keys_ok by exact Hk. cbn [andb].
    apply forallb_forall. apply Forall_forall.
    apply (setProp_values (fun y => wellKeyed y = true));
      [exact (pv_ok _ _ _ Ex)|].
    apply Forall_forall. now apply forallb_forall. }
  destruct (skipJsonSpace r3) as [|d r4]; [discriminate|].
  split_code d;
    first [exact (IH _ _ _ _ Hx H) | injection H as <- _; exact Hx].
Qed.

End ParserKeys.

Lemma parseNumber_wellKeyed s v r : parseNumber s = Some (v, r) -> wellKeyed v = true.
Proof.
  unfold parseNumber. intros H.
  repeat match type of H with
         | context [let '(_, _) := ?e in _] => destruct e
         | context [match ?e with _ => _ end] => destruct e; try discriminate
         | context [if ?e then _ else _] => destruct e
         end; injection H as <- _; reflexivity.
Qed.

Lemma parseValue_wellKeyed width depth : forall s v r,
  parseValue width depth s = Some (v, r) -> wellKeyed v = true.
Proof.
  induction depth as [|depth IH]; intros s v r H; [discriminate|].
  cbn [parseValue] in H.
  repeat match type of H with
         | context [match ?x with _ => _ end] => destruct x
         end;
    first [ discriminate
          | injection H as <- _; reflexivity
          | exact (parseNumber_wellKeyed _ _ _ H)
          | solve [eapply (parseMembers_wellKeyed (parseValue width depth) IH); [|exact H]; reflexivity]
          | solve [eapply (parseElements_wellKeyed (parseValue width depth) IH); [|exact H]; reflexivity] ].
Qed.

(** What [JSON.parse] returns has its keys in the order of enumeration, at
    every depth. *)
Lemma JSON_parse_wellKeyed s v : JSON_parse s = Some v -> wellKeyed v = true.
Proof.
  unfold JSON_parse. intros H.
  destruct (parseValue (S (length s)) (S (length s)) s) as [[x r]|] eqn:E;
    [|discriminate].
  destruct (skipJsonSpace r); [|discriminate]. injection H as <-.
  exact (parseValue_wellKeyed _ _ _ _ _ E).
Qed.

(** ** The feeder filter *)

Section FilterFacts.

Variable keepSet : list jsstring.

Lemma restrictFeeders_app l1 l2 :
  restrictFeeders keepSet (l1 ++ l2)
  = restrictFeeders keepSet l1 ++ restrictFeeders keepSet l2.
Proof. apply filter_app. Qed.

Lemma restrictDocument_keys dates :
  map fst (restrictDocument keepSet dates) = map fst dates.
Proof.
  unfold restrictDocument. rewrite map_map. now apply map_ext.
Qed.

Lemma restrictFeeders_keys feeders :
  map fst (restrictFeeders keepSet feeders)
  = filter (arrayIncludes keepSet) (map fst feeders).
Proof.
  induction feeders as [|[k v] r IH]; simpl; [reflexivity|].
  destruct (arrayIncludes keepSet k); simpl; now rewrite IH.
Qed.

Lemma restrictFeeders_idem feeders :
  restrictFeeders keepSet (restrictFeeders keepSet feeders)
  = restrictFeeders keepSet feeders.
Proof.
  induction feeders as [|[k v] r IH]; simpl; [reflexivity|].
  destruct (arrayIncludes keepSet k) eqn:E; simpl; rewrite ?E, IH; reflexivity.
Qed.

Lemma restrictFeeders_none feeders :
  (forall g, In g (map fst feeders) -> arrayIncludes keepSet g = false) ->
  restrictFeeders keepSet feeders = [].
Proof.
  induction feeders as [|[k v] r IH]; simpl; intros H; [reflexivity|].
  rewrite (H k) by now left. apply IH. intros g Hg. apply H. now right.
Qed.

Lemma lookup_restrictFeeders g feeders :
  lookup g (restrictFeeders keepSet feeders)
  = if arrayIncludes keepSet g then lookup g feeders else None.
Proof.
  induction feeders as [|[k v] r IH]; simpl.
  - now destruct (arrayIncludes keepSet g).
  - destruct (arrayIncludes keepSet k) eqn:Ek; simpl;
      destruct (streq k g) eqn:Eg; auto.
    + apply streq_eq in Eg. subst. now rewrite Ek.
    + apply streq_eq in Eg. subst. rewrite Ek in *. exact IH.
Qed.

Lemma lookup_restrictDocument dateKey dates :
  lookup dateKey (restrictDocument keepSet dates)
  = match lookup dateKey dates with
    | Some v => Some (VObj (restrictFeeders keepSet (propsOf v)))
    | None => None
    end.
Proof.
  induction dates as [|[k v] r IH]; simpl; [reflexivity|].
  now destruct (streq k dateKey).
Qed.

Lemma restrictDates_keys dates :
  map fst (restrictDates keepSet dates) = map fst dates.
Proof.
  unfold restrictDates. rewrite map_map. now apply map_ext.
Qed.

Lemma objectOf_restrictDates dates :
  objectOf (restrictDates keepSet dates) = VObj (restrictDocument keepSet dates).
Proof.
  unfold objectOf, restrictDates, restrictDocument. now rewrite map_map.
Qed.

Lemma timestamp_keys_lookup (dates : list (jsstring * value)) k :
  forallb (fun kv => isTimestamp (fst kv)) dates = true ->
  isTimestamp k = false -> lookup k dates = None.
Proof.
  intros Hts Hk. apply lookup_None. intros [k' v'] Hin. simpl.
  rewrite forallb_forall in Hts. specialize (Hts _ Hin). simpl in Hts.
  destruct (streq k' k) eqn:E; [|reflexivity].
  apply streq_eq in E. congruence.
Qed.

Lemma scheduleDocument_parts dates :
  isScheduleDocument (VObj dates) = true ->
  ownKeysOk (map fst dates) = true /\
  forallb (fun kv => isTimestamp (fst kv)) dates = true /\
  forall kv, In kv dates -> isFeederMap (snd kv) = true.
Proof.
  simpl. intros H. apply andb_true_iff in H as [Hok Hall].
  rewrite forallb_forall in Hall. split; [assumption|]. split.
  - apply forallb_forall. intros kv Hin.
    specialize (Hall _ Hin). now apply andb_true_iff in Hall as [? _].
  - intros kv Hin. specialize (Hall _ Hin).
    now apply andb_true_iff in Hall as [_ ?].
Qed.

Lemma feederMap_parts v :
  isFeederMap v = true ->
  exists feeders, v = VObj feeders /\ ownKeysOk (map fst feeders) = true /\
    forall kv, In kv feeders -> isHourStatusMap (snd kv) = true.
Proof.
  destruct v; simpl; try discriminate. intros H.
  apply andb_true_iff in H as [Hok Hall]. exists props.
  rewrite forallb_forall in Hall. auto.
Qed.

(** The restricted document is a schedule document again. *)
Lemma restrictDocument_shape dates :
  isScheduleDocument (VObj dates) = true ->
  isScheduleDocument (VObj (restrictDocument keepSet dates)) = true.
Proof.
  intros Hdoc. apply scheduleDocument_parts in Hdoc as (Hok & Hts & Hfm).
  simpl. rewrite restrictDocument_keys, Hok. simpl.
  apply forallb_forall. intros [k v] Hin.
  unfold restrictDocument in Hin. apply in_map_iff in Hin as ([k0 v0] & [= <- <-] & Hin).
  rewrite forallb_forall in Hts. specialize (Hts _ Hin).
  destruct (feederMap_parts _ (Hfm _ Hin)) as (f & Hv & Hfok & Hhm).
  simpl in Hts, Hv. subst v0. cbn [fst snd propsOf isFeederMap].
  rewrite Hts. cbn [andb].
  rewrite restrictFeeders_keys, ownKeysOk_filter by assumption. simpl.
  apply forallb_forall. intros kv Hkv.
  apply filter_In in Hkv as [Hkv _]. now apply Hhm.
Qed.

End FilterFacts.

Section FilterRefinement.

Variable keepSet : list jsstring.

Lemma arrayIncludes_withoutProto g :
  arrayIncludes (withoutProto keepSet) g
  = arrayIncludes keepSet g && negb (streq g protoKey).
Proof.
  unfold arrayIncludes, withoutProto.
  induction keepSet as [|a l IH]; [reflexivity|]. cbn [filter existsb].
  destruct (streq a protoKey) eqn:Ea; cbn [negb existsb]; rewrite IH.
  - destruct (streq g a) eqn:Eg; [|reflexivity].
    apply streq_eq in Eg. subst a. rewrite Ea. cbn [negb orb].
    now rewrite andb_false_r.
  - destruct (streq g a) eqn:Eg; [|reflexivity].
    apply streq_eq in Eg. subst a. now rewrite Ea.
Qed.

Lemma withoutProto_absent :
  arrayIncludes keepSet protoKey = false -> withoutProto keepSet = keepSet.
Proof.
  unfold arrayIncludes, withoutProto.
  induction keepSet as [|a l IH]; [reflexivity|]. cbn [filter existsb].
  intros H. apply orb_false_iff in H as [Ha Hl].
  rewrite streq_sym, Ha. cbn [negb]. now rewrite (IH Hl).
Qed.

(** The inner loop, from any place of the feeders of [dateKey]: the
    object under [dateKey] holds the kept feeders met so far, less one
    named [__proto__]. *)
Lemma gpvKeyLoop_restrict dates dateKey feeders (result0 : resultObject) :
  lookup dateKey dates = Some (VObj feeders) ->
  ownKeysOk (map fst feeders) = true ->
  forall rest met, feeders = met ++ rest ->
  gpvKeyLoop keepSet (VObj dates) dateKey (map fst rest)
    (setProp dateKey (restrictFeeders (withoutProto keepSet) met) result0)
  = Normal (setProp dateKey (restrictFeeders (withoutProto keepSet) feeders)
              result0).
Proof.
  intros Hdate Hok rest.
  induction rest as [|[g v] rest IH]; intros met Hsplit.
  - rewrite app_nil_r in Hsplit. now subst.
  - assert (Hnext : feeders = (met ++ [(g, v)]) ++ rest)
      by now rewrite <- app_assoc.
    specialize (IH _ Hnext). rewrite restrictFeeders_app in IH.
    cbn [restrictFeeders filter fst] in IH.
    rewrite arrayIncludes_withoutProto in IH.
    cbn [map fst gpvKeyLoop].
    destruct (arrayIncludes keepSet g) eqn:Ekeep; cbn [andb] in IH.
    + assert (Hg : lookup g feeders = Some v)
        by (rewrite Hsplit; apply lookup_middle; now rewrite <- Hsplit).
      cbn [getProp]. rewrite Hdate. cbn [cbind getProp]. rewrite Hg.
      cbn [cbind]. unfold assignInner.
      rewrite lookup_setProp_same.
      destruct (streq g protoKey) eqn:Eproto; cbn [negb cbind] in IH |- *.
      * now rewrite app_nil_r in IH.
      * rewrite setProp_setProp. rewrite (setProp_snoc g v).
        -- exact IH.
        -- apply Forall_forall. intros [k' v'] Hin. simpl.
           rewrite Hsplit, map_app in Hok.
           apply ownKeysOk_app in Hok as (_ & _ & Hb).
           apply Hb; [|now left].
           apply filter_In in Hin as [Hin _].
           now apply (in_map fst) in Hin.
    + now rewrite app_nil_r in IH.
Qed.

(** The outer loop, from any place of the dates, none of which has the
    key [__proto__]. *)
Lemma dateKeyLoop_restrict dates :
  ownKeysOk (map fst dates) = true ->
  lookup (lit "hasOwnProperty") dates = None ->
  (forall kv, In kv dates -> streq (fst kv) protoKey = false) ->
  (forall kv, In kv dates ->
     exists feeders, snd kv = VObj feeders /\ ownKeysOk (map fst feeders) = true) ->
  forall rest met, dates = met ++ rest ->
  dateKeyLoop keepSet (VObj dates) (map fst rest)
    (restrictDates (withoutProto keepSet) met)
  = Normal (restrictDates (withoutProto keepSet) dates).
Proof.
  intros Hok Hhas Hproto Hshape rest.
  induction rest as [|[dateKey schedules] rest IH]; intros met Hsplit.
  - rewrite app_nil_r in Hsplit. now subst.
  - assert (Hnext : dates = (met ++ [(dateKey, schedules)]) ++ rest)
      by now rewrite <- app_assoc.
    assert (Hd : lookup dateKey dates = Some schedules)
      by (rewrite Hsplit; apply lookup_middle; now rewrite <- Hsplit).
    assert (Hin : In (dateKey, schedules) dates)
      by (rewrite Hsplit; apply in_or_app; right; now left).
    destruct (Hshape _ Hin) as (feeders & Hf & Hfok).
    pose proof (Hproto _ Hin) as Hkey. cbn [fst] in Hkey.
    simpl in Hf. subst schedules.
    cbn [map fst dateKeyLoop hasOwnProperty getProp cbind forInKeys].
    rewrite Hhas, Hd, Hkey. cbn [cbind forInKeys].
    change (setProp dateKey [] (restrictDates (withoutProto keepSet) met))
      with (setProp dateKey (restrictFeeders (withoutProto keepSet) [])
              (restrictDates (withoutProto keepSet) met)).
    rewrite (gpvKeyLoop_restrict dates dateKey feeders
               (restrictDates (withoutProto keepSet) met) Hd Hfok feeders []
               eq_refl).
    cbn [cbind]. rewrite setProp_snoc.
    + specialize (IH _ Hnext). unfold restrictDates in IH |- *.
      rewrite map_app in IH. exact IH.
    + apply Forall_forall. intros [k' v'] Hin'. simpl.
      apply (in_map fst) in Hin'. rewrite restrictDates_keys in Hin'.
      simpl in Hin'. rewrite Hsplit, map_app in Hok.
      apply ownKeysOk_app in Hok as (_ & _ & Hb).
      apply Hb; [assumption|now left].
Qed.

Lemma timestamp_not_protoKey k : isTimestamp k = true -> streq k protoKey = false.
Proof.
  destruct k as [|c r]; [discriminate|]. cbn [isTimestamp forallb].
  intros H. apply andb_true_iff in H as [Hc _]. apply isDigit_range in Hc.
  destruct (streq (c :: r) protoKey) eqn:E; [|reflexivity].
  apply streq_eq in E. assert (Hhead : protoKey = 95%N :: lit "_proto__")
    by reflexivity.
  rewrite Hhead in E. injection E as -> _. lia.
Qed.

(** On a schedule document the filter returns, and what it returns is
    the document restricted to the feeders of the keep set other than
    [__proto__]. *)
Lemma filterGPVKeys_own d :
  isScheduleDocument d = true ->
  filterGPVKeys d keepSet
  = Normal (VObj (restrictDocument (withoutProto keepSet) (propsOf d))).
Proof.
  destruct d as [| | | | | |dates]; try discriminate. intros Hdoc.
  apply scheduleDocument_parts in Hdoc as (Hok & Hts & Hfm).
  assert (Hloop : dateKeyLoop keepSet (VObj dates) (map fst dates) []
                  = Normal (restrictDates (withoutProto keepSet) dates)).
  { apply (dateKeyLoop_restrict dates Hok) with (met := []);
      [| | |reflexivity].
    - now apply timestamp_keys_lookup.
    - intros kv Hin. apply timestamp_not_protoKey.
      rewrite forallb_forall in Hts. now apply Hts.
    - intros kv Hin.
      destruct (feederMap_parts _ (Hfm kv Hin)) as (f & ? & ? & _). eauto. }
  unfold filterGPVKeys. cbn [forInKeys propsOf]. rewrite Hloop.
  cbn [cbind]. now rewrite objectOf_restrictDates.
Qed.

(** With a keep set that does not hold [__proto__], that is the document
    restricted as the specification says. *)
Lemma filterGPVKeys_restrict d :
  arrayIncludes keepSet protoKey = false ->
  isScheduleDocument d = true ->
  filterGPVKeys d keepSet = Normal (VObj (restrictDocument keepSet (propsOf d))).
Proof.
  intros Hproto Hdoc. rewrite (filterGPVKeys_own d Hdoc).
  now rewrite (withoutProto_absent Hproto).
Qed.

End FilterRefinement.

(** ** The interval compressor *)

Section CompressFacts.

Lemma hours_from_1 : hours = hoursFrom 1 24.
Proof. reflexivity. Qed.

Lemma hours_range h : In h hours <-> 1 <= h <= 24.
Proof.
  split.
  - intros H. unfold hours in H. simpl in H.
    repeat (destruct H as [<-|H]; [lia|]). destruct H.
  - intros H.
    assert (Hc : h = 1 \/ h = 2 \/ h = 3 \/ h = 4 \/ h = 5 \/ h = 6 \/ h = 7
                 \/ h = 8 \/ h = 9 \/ h = 10 \/ h = 11 \/ h = 12 \/ h = 13
                 \/ h = 14 \/ h = 15 \/ h = 16 \/ h = 17 \/ h = 18 \/ h = 19
                 \/ h = 20 \/ h = 21 \/ h = 22 \/ h = 23 \/ h = 24) by lia.
    unfold hours. simpl. intuition (subst; auto 30).
Qed.

Lemma hourStep_advance timeSlots st hour status :
  getProp timeSlots (numberToString hour) = Normal status ->
  hourStep timeSlots st hour = Normal (advance st hour (isNo status)).
Proof.
  intros H. unfold hourStep. rewrite H. now destruct st as [acc [p|]].
Qed.

(** When every hour of [hs] can be read, the loop is the scan of the
    flags. *)
Lemma hourLoop_scan timeSlots flag hs :
  (forall h, In h hs ->
     exists status, getProp timeSlots (numberToString h) = Normal status
                    /\ isNo status = flag h) ->
  forall st, hourLoop timeSlots hs st = Normal (scan flag hs st).
Proof.
  induction hs as [|h hs IH]; intros Hread st; simpl; [reflexivity|].
  destruct (Hread h (or_introl eq_refl)) as (status & Hs & Hf).
  rewrite (hourStep_advance _ _ _ _ Hs), Hf. simpl.
  apply IH. intros h' Hin. apply Hread. now right.
Qed.

Lemma collectPeriods_scan timeSlots flag :
  (forall h, 1 <= h <= 24 ->
     exists status, getProp timeSlots (numberToString h) = Normal status
                    /\ isNo status = flag h) ->
  collectPeriods timeSlots = Normal (close (scan flag hours ([], None))).
Proof.
  intros Hread. unfold collectPeriods.
  rewrite (hourLoop_scan timeSlots flag).
  - cbn [cbind]. unfold close.
    now destruct (scan flag hours ([], None)) as [acc [p|]].
  - intros h Hin. apply Hread. now apply hours_range.
Qed.

(** An object can be read at every key. *)
Lemma collectPeriods_object props :
  collectPeriods (VObj props)
  = Normal (close (scan (noAt props) hours ([], None))).
Proof.
  apply collectPeriods_scan. intros h _. unfold noAt. simpl.
  destruct (lookup (numberToString h) props) as [status|]; eauto.
Qed.

Lemma scan_ext flag1 flag2 hs :
  (forall h, In h hs -> flag1 h = flag2 h) ->
  forall st, scan flag1 hs st = scan flag2 hs st.
Proof.
  induction hs as [|h hs IH]; intros Hf st; simpl; [reflexivity|].
  rewrite (Hf h) by now left. apply IH. intros h' Hin. apply Hf. now right.
Qed.

Lemma separated_weaken lo ps hi hi' :
  separated lo ps hi -> hi <= hi' -> separated lo ps hi'.
Proof.
  revert lo; induction ps as [|p ps IH]; simpl; intros lo H Hle; [exact I|].
  destruct H as (H1 & H2 & H3 & H4). repeat split; try lia. now apply IH.
Qed.

Lemma separated_snoc lo ps p hi hi' :
  separated lo ps hi' -> hi' < start p -> lo <= start p ->
  start p < end_ p -> end_ p <= hi ->
  separated lo (ps ++ [p]) hi.
Proof.
  revert lo; induction ps as [|q ps IH]; simpl; intros lo H Hlt Hlo Hp Hhi.
  - repeat split; lia.
  - destruct H as (H1 & H2 & H3 & H4). repeat split; try lia.
    apply IH; try assumption; lia.
Qed.

Lemma separated_snoc_inv lo ps p hi :
  separated lo (ps ++ [p]) hi ->
  separated lo ps (start p - 1) /\ lo <= start p /\
  start p < end_ p /\ end_ p <= hi.
Proof.
  revert lo; induction ps as [|q ps IH]; simpl; intros lo H.
  - destruct H as (H1 & H2 & H3 & _). repeat split; lia.
  - destruct H as (H1 & H2 & H3 & H4).
    destruct (IH _ H4) as (I1 & I2 & I3 & I4). repeat split; try lia.
    exact I1.
Qed.

Lemma separated_bounds lo ps hi p :
  separated lo ps hi -> In p ps ->
  lo <= start p /\ start p < end_ p /\ end_ p <= hi.
Proof.
  revert lo; induction ps as [|q ps IH]; simpl; intros lo H Hin; [easy|].
  destruct H as (H1 & H2 & H3 & H4). destruct Hin as [->|Hin].
  - repeat split; lia.
  - destruct (IH _ H4 Hin) as (I1 & I2 & I3). repeat split; lia.
Qed.

Lemma separated_pairs lo ps hi i j p q :
  separated lo ps hi -> (i < j)%nat ->
  nth_error ps i = Some p -> nth_error ps j = Some q ->
  end_ p < start q.
Proof.
  revert lo i j; induction ps as [|r ps IH]; intros lo i j H Hij Hp Hq.
  - now destruct i.
  - destruct H as (H1 & H2 & H3 & H4). destruct j as [|j]; [lia|].
    simpl in Hq. apply nth_error_In in Hq as Hin.
    destruct i as [|i]; simpl in Hp.
    + injection Hp as <-.
      destruct (separated_bounds _ _ _ _ H4 Hin) as (B & _). lia.
    + apply (IH (end_ r + 1) i j); auto. lia.
Qed.

Lemma covers_snoc ps p x :
  covers (ps ++ [p]) x <-> covers ps x \/ start p < x <= end_ p.
Proof.
  unfold covers. split.
  - intros (q & Hin & Hx). apply in_app_or in Hin as [Hin|[<-|[]]]; eauto.
  - intros [(q & Hin & Hx)|Hx].
    + exists q. split; [apply in_or_app; now left|assumption].
    + exists p. split; [apply in_or_app; right; now left|assumption].
Qed.

Lemma advance_scanned flag h st :
  0 <= h -> scanned flag h st ->
  scanned flag (h + 1) (advance st (h + 1) (flag (h + 1))).
Proof.
  intros Hh. destruct st as [acc [p|]]; simpl;
    destruct (flag (h + 1)) eqn:Ef; simpl.
  - (* an open period goes on *)
    intros (Hsep & Hend & Hcov).
    apply separated_snoc_inv in Hsep as (S1 & S2 & S3 & S4).
    split; [|split; [reflexivity|]].
    + eapply separated_snoc; simpl; eauto; lia.
    + intros x Hx. rewrite covers_snoc. simpl.
      destruct (Z.eq_dec x (h + 1)) as [->|Hne].
      * split; [intros _; right; lia|intros _; exact Ef].
      * rewrite Hcov by lia. rewrite covers_snoc. intuition lia.
  - (* an open period is closed *)
    intros (Hsep & Hend & Hcov).
    split; [now replace (h + 1 - 1) with h by lia|].
    intros x Hx. destruct (Z.eq_dec x (h + 1)) as [->|Hne].
    + rewrite Ef. split; [discriminate|].
      intros (q & Hin & Hq).
      destruct (separated_bounds _ _ _ _ Hsep Hin) as (_ & _ & B). lia.
    + apply Hcov. lia.
  - (* a period opens *)
    intros (Hsep & Hcov).
    split; [|split; [reflexivity|]].
    + eapply separated_snoc; simpl; eauto; lia.
    + intros x Hx. rewrite covers_snoc. simpl.
      destruct (Z.eq_dec x (h + 1)) as [->|Hne].
      * split; [intros _; right; lia|intros _; exact Ef].
      * rewrite Hcov by lia. intuition lia.
  - (* no period is open *)
    intros (Hsep & Hcov).
    split; [apply (separated_weaken _ _ _ _ Hsep); lia|].
    intros x Hx. destruct (Z.eq_dec x (h + 1)) as [->|Hne].
    + rewrite Ef. split; [discriminate|].
      intros (q & Hin & Hq).
      destruct (separated_bounds _ _ _ _ Hsep Hin) as (_ & _ & B). lia.
    + apply Hcov. lia.
Qed.

Lemma scan_scanned flag n :
  forall h st, 0 <= h -> scanned flag h st ->
  scanned flag (h + Z.of_nat n) (scan flag (hoursFrom (h + 1) n) st).
Proof.
  induction n as [|n IH]; intros h st Hh Hst.
  - simpl. now rewrite Z.add_0_r.
  - cbn [hoursFrom scan].
    replace (h + Z.of_nat (S n)) with ((h + 1) + Z.of_nat n) by lia.
    apply IH; [lia|]. now apply advance_scanned.
Qed.

(** What the compressor makes of any flags of the hours 1 to 24. *)
Lemma close_scan_hours flag :
  let ps := close (scan flag hours ([], None)) in
  separated 0 ps 24 /\
  forall x, 1 <= x <= 24 -> (flag x = true <-> covers ps x).
Proof.
  assert (H0 : scanned flag 0 ([], None)).
  { simpl. split; [exact I|]. intros x Hx. lia. }
  pose proof (scan_scanned flag 24 0 _ (Z.le_refl 0) H0) as H.
  rewrite hours_from_1. change (0 + 1) with 1 in H.
  change (0 + Z.of_nat 24) with 24 in H.
  destruct (scan flag (hoursFrom 1 24) ([], None)) as [acc [p|]];
    unfold close; simpl in *.
  - destruct H as (Hs & _ & Hc). auto.
  - destruct H as (Hs & Hc). split; [|assumption].
    apply (separated_weaken _ _ _ _ Hs). lia.
Qed.

End CompressFacts.

(** ** The claims *)

Lemma arrayIncludes_In keepSet g : arrayIncludes keepSet g = true <-> In g keepSet.
Proof.
  unfold arrayIncludes. rewrite existsb_exists. split.
  - intros (x & Hin & Heq). apply streq_eq in Heq. now subst.
  - intros Hin. exists g. split; [assumption|apply streq_refl].
Qed.

Lemma forall_hours (P : Z -> Prop) :
  Forall P hours -> forall h, 1 <= h <= 24 -> P h.
Proof.
  intros H h Hh. rewrite Forall_forall in H. apply H. now apply hours_range.
Qed.

(** *** Feeder filter *)

(** C5.  A feeder named [__proto__] that the keep set holds is not kept.
    Of the schedule document
    [{"1700000000": {"__proto__": {"1": "no"}, "GPV5.1": {"2": "no"}}}],
    as [JSON.parse] builds it, and the keep set [["__proto__", "GPV5.1"]]
    the filter returns an object whose date has the one feeder
    ["GPV5.1"], though [__proto__] is a feeder of the document and a
    member of the keep set: the assignment of line 75 made the
    Hour-Status-Map of [__proto__] the prototype of the object of the
    date, not a property of it. *)
Theorem filter_drops_feeder_named_proto :
  JSON_parse (doubleQuotes
    (lit "{'1700000000':{'__proto__':{'1':'no'},'GPV5.1':{'2':'no'}}}"))
  = Some protoDocument /\
  isScheduleDocument protoDocument = true /\
  lookup protoKey protoFeeders = Some (VObj [(lit "1", VStr (lit "no"))]) /\
  arrayIncludes [protoKey; lit "GPV5.1"] protoKey = true /\
  filterGPVKeys protoDocument [protoKey; lit "GPV5.1"]
  = Normal (VObj [(lit "1700000000",
                   VObj [(lit "GPV5.1", VObj [(lit "2", VStr (lit "no"))])])]).
Proof. repeat split; vm_compute; reflexivity. Qed.

(** X21.  For a schedule document [d] and a keep set [S] that does not
    hold [__proto__], the filter returns a document with the date keys of
    [d]; under each date its feeders are the feeders of [d] that are
    members of [S], compared as strings, each with the Hour-Status-Map it
    had; a date none of whose feeders is in [S] keeps its key, with no
    feeder under it. *)
Theorem filter_keeps_dates_and_listed_feeders (d : value) (S : list jsstring) :
  arrayIncludes S protoKey = false ->
  isScheduleDocument d = true ->
  exists filtered,
    filterGPVKeys d S = Normal (VObj filtered) /\
    map fst filtered = map fst (propsOf d) /\
    forall dateKey feeders,
      lookup dateKey (propsOf d) = Some (VObj feeders) ->
      exists kept,
        lookup dateKey filtered = Some (VObj kept) /\
        (forall g, In g (map fst kept) <-> In g (map fst feeders) /\ In g S) /\
        (forall g, In g S -> lookup g kept = lookup g feeders) /\
        ((forall g, In g (map fst feeders) -> ~ In g S) -> kept = []).
Proof.
  intros Hproto Hdoc. exists (restrictDocument S (propsOf d)).
  split; [now apply filterGPVKeys_restrict|].
  split; [apply restrictDocument_keys|].
  intros dateKey feeders Hd. exists (restrictFeeders S feeders).
  rewrite lookup_restrictDocument, Hd. split; [reflexivity|]. split; [|split].
  - intros g. rewrite restrictFeeders_keys, filter_In, arrayIncludes_In.
    reflexivity.
  - intros g Hg. rewrite lookup_restrictFeeders.
    apply arrayIncludes_In in Hg. now rewrite Hg.
  - intros Hnone. apply restrictFeeders_none. intros g Hg.
    destruct (arrayIncludes S g) eqn:E; [|reflexivity].
    apply arrayIncludes_In in E. now destruct (Hnone g Hg).
Qed.

Lemma filter_keeps_dates_and_listed_feeders_witness :
  arrayIncludes [lit "GPV5.1"; lit "GPV3.2"] protoKey = false /\
  isScheduleDocument sampleDocument = true /\
  exists filtered,
    filterGPVKeys sampleDocument [lit "GPV5.1"; lit "GPV3.2"] = Normal (VObj filtered) /\
    map fst filtered = map fst (propsOf sampleDocument) /\
    forall dateKey feeders,
      lookup dateKey (propsOf sampleDocument) = Some (VObj feeders) ->
      exists kept,
        lookup dateKey filtered = Some (VObj kept) /\
        (forall g, In g (map fst kept)
                   <-> In g (map fst feeders) /\ In g [lit "GPV5.1"; lit "GPV3.2"]) /\
        (forall g, In g [lit "GPV5.1"; lit "GPV3.2"] ->
                   lookup g kept = lookup g feeders) /\
        ((forall g, In g (map fst feeders) -> ~ In g [lit "GPV5.1"; lit "GPV3.2"]) ->
         kept = []).
Proof.
  split; [reflexivity|]. split; [reflexivity|].
  apply (filter_keeps_dates_and_listed_feeders sampleDocument
           [lit "GPV5.1"; lit "GPV3.2"]); reflexivity.
Defined.

(** X22.  With a keep set that does not hold [__proto__] the filter is
    idempotent: on a schedule document it returns a document that it
    returns unchanged when it is applied again with the same keep set.
    (With a kept feeder [__proto__] the object of a date gets a
    prototype, whose keys a second run reads.) *)
Theorem filter_idempotent (d : value) (S : list jsstring) :
  arrayIncludes S protoKey = false ->
  isScheduleDocument d = true ->
  exists once,
    filterGPVKeys d S = Normal once /\ filterGPVKeys once S = Normal once.
Proof.
  intros Hproto Hdoc. exists (VObj (restrictDocument S (propsOf d))).
  split; [now apply filterGPVKeys_restrict|].
  destruct d as [| | | | | |dates]; try discriminate. cbn [propsOf].
  rewrite (filterGPVKeys_restrict S _ Hproto (restrictDocument_shape S _ Hdoc)).
  cbn [propsOf]. f_equal. f_equal.
  unfold restrictDocument. rewrite map_map. apply map_ext.
  intros [k v]. cbn [fst snd propsOf]. now rewrite restrictFeeders_idem.
Qed.

Lemma filter_idempotent_witness :
  arrayIncludes [lit "GPV1.1"] protoKey = false /\
  isScheduleDocument sampleDocument = true /\
  exists once,
    filterGPVKeys sampleDocument [lit "GPV1.1"] = Normal once /\
    filterGPVKeys once [lit "GPV1.1"] = Normal once.
Proof.
  split; [reflexivity|]. split; [reflexivity|].
  apply (filter_idempotent sampleDocument [lit "GPV1.1"]); reflexivity.
Defined.

(** *** Interval compressor *)

(** C3.  The intervals the compressor makes of the properties of an object
    (an Hour-Status-Map is one): every interval has
    [0 <= start < end <= 24]; an interval listed later begins after an
    earlier one has ended, with at least an hour between them, so that no
    two overlap or touch; and an hour from 1 to 24 has the status ["no"]
    exactly when it lies in one of the intervals, so that every interval is
    a whole run of ["no"] hours. *)
Theorem compress_intervals_separated_and_maximal (props : list (jsstring * value)) :
  exists ps,
    collectPeriods (VObj props) = Normal ps /\
    Forall (fun p => 0 <= start p /\ start p < end_ p /\ end_ p <= 24) ps /\
    (forall i j p q, (i < j)%nat ->
       nth_error ps i = Some p -> nth_error ps j = Some q ->
       end_ p < start q) /\
    (forall h, 1 <= h <= 24 ->
       (noAt props h = true <-> exists p, In p ps /\ start p < h <= end_ p)).
Proof.
  exists (close (scan (noAt props) hours ([], None))).
  destruct (close_scan_hours (noAt props)) as (Hsep & Hcov).
  split; [apply collectPeriods_object|]. split; [|split].
  - apply Forall_forall. intros p Hin.
    exact (separated_bounds _ _ _ _ Hsep Hin).
  - intros i j p q. now apply separated_pairs with (lo := 0) (hi := 24).
  - exact Hcov.
Qed.

(** C4.  When the status is ["no"] at the hours 3, 4, 5 and 9 and at no
    other hour from 1 to 24, the intervals are (2, 5) and (8, 9); the hour
    9 alone gives "8 - 9", and the text of the line ends with
    "2 - 5, 8 - 9". *)
Theorem compress_gap_example (props : list (jsstring * value))
    (date scheduleName : jsstring) :
  (forall h, 1 <= h <= 24 -> noAt props h = gapFlags h) ->
  collectPeriods (VObj props)
    = Normal [{| start := 2; end_ := 5 |}; {| start := 8; end_ := 9 |}] /\
  periodText {| start := 8; end_ := 9 |} = lit "8 - 9" /\
  scheduleLoop date [(scheduleName, VObj props)] []
    = Normal [utf8 "Дата " ++ date ++ utf8 ", график " ++ feederSuffix scheduleName
              ++ utf8 ", света не будет в такие промежутки: " ++ lit "2 - 5, 8 - 9"].
Proof.
  intros Hflags.
  assert (Hps : collectPeriods (VObj props)
                = Normal [{| start := 2; end_ := 5 |}; {| start := 8; end_ := 9 |}]).
  { rewrite collectPeriods_object.
    rewrite (scan_ext (noAt props) gapFlags hours).
    - reflexivity.
    - intros h Hin. apply Hflags. now apply hours_range. }
  split; [exact Hps|]. split; [reflexivity|].
  cbn [scheduleLoop]. rewrite Hps. reflexivity.
Qed.

Lemma compress_gap_example_witness :
  (forall h, 1 <= h <= 24 -> noAt gapMap h = gapFlags h) /\
  collectPeriods (VObj gapMap)
    = Normal [{| start := 2; end_ := 5 |}; {| start := 8; end_ := 9 |}] /\
  periodText {| start := 8; end_ := 9 |} = lit "8 - 9" /\
  scheduleLoop (lit "15.11.2023") [(lit "GPV5.1", VObj gapMap)] []
    = Normal [utf8 "Дата " ++ lit "15.11.2023" ++ utf8 ", график "
              ++ feederSuffix (lit "GPV5.1")
              ++ utf8 ", света не будет в такие промежутки: " ++ lit "2 - 5, 8 - 9"].
Proof.
  assert (H : forall h, 1 <= h <= 24 -> noAt gapMap h = gapFlags h).
  { apply forall_hours. repeat constructor. }
  split; [exact H|].
  exact (compress_gap_example gapMap (lit "15.11.2023") (lit "GPV5.1") H).
Defined.

(** C7.  When every hour from 1 to 24 has the status ["no"], there is one
    interval, (0, 24), and the line of the feeder ends with "0 - 24". *)
Theorem compress_whole_day (props : list (jsstring * value))
    (date scheduleName : jsstring) :
  (forall h, 1 <= h <= 24 -> noAt props h = true) ->
  collectPeriods (VObj props) = Normal [{| start := 0; end_ := 24 |}] /\
  scheduleLoop date [(scheduleName, VObj props)] []
    = Normal [utf8 "Дата " ++ date ++ utf8 ", график " ++ feederSuffix scheduleName
              ++ utf8 ", света не будет в такие промежутки: " ++ lit "0 - 24"].
Proof.
  intros Hflags.
  assert (Hps : collectPeriods (VObj props)
                = Normal [{| start := 0; end_ := 24 |}]).
  { rewrite collectPeriods_object.
    rewrite (scan_ext (noAt props) (fun _ => true) hours).
    - reflexivity.
    - intros h Hin. apply Hflags. now apply hours_range. }
  split; [exact Hps|].
  cbn [scheduleLoop]. rewrite Hps. reflexivity.
Qed.

Lemma compress_whole_day_witness :
  (forall h, 1 <= h <= 24 -> noAt wholeDayMap h = true) /\
  collectPeriods (VObj wholeDayMap) = Normal [{| start := 0; end_ := 24 |}] /\
  scheduleLoop (lit "15.11.2023") [(lit "GPV3.2", VObj wholeDayMap)] []
    = Normal [utf8 "Дата " ++ lit "15.11.2023" ++ utf8 ", график "
              ++ feederSuffix (lit "GPV3.2")
              ++ utf8 ", света не будет в такие промежутки: " ++ lit "0 - 24"].
Proof.
  assert (H : forall h, 1 <= h <= 24 -> noAt wholeDayMap h = true).
  { apply forall_hours. repeat constructor. }
  split; [exact H|].
  exact (compress_whole_day wholeDayMap (lit "15.11.2023") (lit "GPV3.2") H).
Defined.

Section CompressContext.

Variable host : Host.

Lemma scheduleLoop_same_periods date v1 v2 :
  collectPeriods v1 = collectPeriods v2 ->
  forall feedersBefore name feedersAfter results,
    scheduleLoop date (feedersBefore ++ (name, v1) :: feedersAfter) results
    = scheduleLoop date (feedersBefore ++ (name, v2) :: feedersAfter) results.
Proof.
  intros Hsame feedersBefore name feedersAfter.
  induction feedersBefore as [|[n v] l IH]; intros results.
  - cbn [app scheduleLoop]. now rewrite Hsame.
  - cbn [app scheduleLoop]. destruct (collectPeriods v); cbn [cbind]; auto.
Qed.

Lemma dateLoop_same_lines timestamp feeders1 feeders2 :
  (forall date results,
     scheduleLoop date feeders1 results = scheduleLoop date feeders2 results) ->
  forall datesBefore datesAfter results,
    dateLoop host (datesBefore ++ (timestamp, VObj feeders1) :: datesAfter) results
    = dateLoop host (datesBefore ++ (timestamp, VObj feeders2) :: datesAfter) results.
Proof.
  intros Hsame datesBefore datesAfter.
  induction datesBefore as [|[t v] l IH]; intros results.
  - cbn [app dateLoop objectEntries cbind]. now rewrite Hsame.
  - cbn [app dateLoop]. destruct (objectEntries v); cbn [cbind]; [|reflexivity].
    destruct (scheduleLoop (formattedDate host t) a results); cbn [cbind]; auto.
Qed.

End CompressContext.

(** C10.  Two Hour-Status-Maps that have the same entry, or none, under
    each of the keys ["1"] to ["24"] give the same intervals, and a document
    gives the same text with the one as with the other in its place:
    entries under other keys do not count. *)
Theorem compress_reads_hours_1_to_24_only (host : Host)
    (props1 props2 : list (jsstring * value)) :
  (forall h, 1 <= h <= 24 ->
     lookup (numberToString h) props1 = lookup (numberToString h) props2) ->
  collectPeriods (VObj props1) = collectPeriods (VObj props2) /\
  forall datesBefore datesAfter timestamp feedersBefore feedersAfter name,
    parseLightSchedule host
      (VObj (datesBefore
             ++ (timestamp, VObj (feedersBefore ++ (name, VObj props1) :: feedersAfter))
             :: datesAfter))
    = parseLightSchedule host
        (VObj (datesBefore
               ++ (timestamp, VObj (feedersBefore ++ (name, VObj props2) :: feedersAfter))
               :: datesAfter)).
Proof.
  intros Hagree.
  assert (Hsame : collectPeriods (VObj props1) = collectPeriods (VObj props2)).
  { rewrite !collectPeriods_object. f_equal. f_equal.
    apply scan_ext. intros h Hin. apply hours_range in Hin.
    unfold noAt. now rewrite (Hagree h Hin). }
  split; [exact Hsame|]. intros. unfold parseLightSchedule.
  cbn [objectEntries cbind].
  rewrite (dateLoop_same_lines host timestamp
             (feedersBefore ++ (name, VObj props1) :: feedersAfter)
             (feedersBefore ++ (name, VObj props2) :: feedersAfter)).
  - reflexivity.
  - intros date results. now apply scheduleLoop_same_periods.
Qed.

Lemma compress_reads_hours_1_to_24_only_witness :
  (forall h, 1 <= h <= 24 ->
     lookup (numberToString h) nineOnly = lookup (numberToString h) nineAndOthers) /\
  collectPeriods (VObj nineOnly) = collectPeriods (VObj nineAndOthers) /\
  forall datesBefore datesAfter timestamp feedersBefore feedersAfter name,
    parseLightSchedule exampleHost
      (VObj (datesBefore
             ++ (timestamp, VObj (feedersBefore ++ (name, VObj nineOnly) :: feedersAfter))
             :: datesAfter))
    = parseLightSchedule exampleHost
        (VObj (datesBefore
               ++ (timestamp,
                   VObj (feedersBefore ++ (name, VObj nineAndOthers) :: feedersAfter))
               :: datesAfter)).
Proof.
  assert (H : forall h, 1 <= h <= 24 ->
            lookup (numberToString h) nineOnly
            = lookup (numberToString h) nineAndOthers).
  { apply forall_hours. repeat constructor. }
  split; [exact H|].
  exact (compress_reads_hours_1_to_24_only exampleHost nineOnly nineAndOthers H).
Defined.

(** *** The feeder suffix of a line *)

Lemma replaceFirst_absent p r s :
  includes p s = false -> replaceFirst p r s = s.
Proof.
  induction s as [|c s IH]; simpl; intros H.
  - apply orb_false_iff in H as [H _]. now rewrite H.
  - apply orb_false_iff in H as [H1 H2]. rewrite H1. now rewrite IH.
Qed.

Lemma replaceFirst_head p r s :
  startsWith p s = true -> replaceFirst p r s = r ++ skipn (length p) s.
Proof.
  intros H. destruct s; unfold replaceFirst; fold replaceFirst; now rewrite H.
Qed.

Lemma startsWith_app p b : startsWith p (p ++ b) = true.
Proof.
  induction p as [|x p IH]; simpl; [reflexivity|]. now rewrite N.eqb_refl.
Qed.

Lemma skipn_length_app (p b : jsstring) : skipn (length p) (p ++ b) = b.
Proof. induction p as [|x p IH]; simpl; auto. Qed.

Lemma replaceFirst_at p r a b :
  (forall i, (i < length a)%nat -> startsWith p (skipn i (a ++ p ++ b)) = false) ->
  replaceFirst p r (a ++ p ++ b) = a ++ r ++ b.
Proof.
  induction a as [|c a IH]; intros Hfirst.
  - cbn [app]. rewrite replaceFirst_head by apply startsWith_app.
    now rewrite skipn_length_app.
  - pose proof (Hfirst 0%nat ltac:(simpl; lia)) as H0. cbn [skipn] in H0.
    cbn [app]. cbn [app] in H0.
    unfold replaceFirst; fold replaceFirst. rewrite H0. f_equal.
    apply IH. intros i Hi. apply (Hfirst (S i)). simpl. lia.
Qed.

(** C8, as the program has it.  The suffix of a line is the identifier
    without the first ["GPV"] in it, wherever that stands: without its
    prefix when the identifier starts with ["GPV"], and the identifier
    itself when ["GPV"] does not occur in it. *)
Theorem feederSuffix_removes_first_GPV (name : jsstring) :
  (startsWith (lit "GPV") name = true -> feederSuffix name = skipn 3 name) /\
  (includes (lit "GPV") name = false -> feederSuffix name = name) /\
  (forall a b,
     name = a ++ lit "GPV" ++ b ->
     (forall i, (i < length a)%nat ->
        startsWith (lit "GPV") (skipn i name) = false) ->
     feederSuffix name = a ++ b).
Proof.
  unfold feederSuffix. split; [|split].
  - intros H. now rewrite replaceFirst_head.
  - apply replaceFirst_absent.
  - intros a b -> Hfirst.
    exact (replaceFirst_at (lit "GPV") [] a b Hfirst).
Qed.

Lemma feederSuffix_removes_first_GPV_witness :
  feederSuffix (lit "GPV5.1") = lit "5.1" /\
  feederSuffix (lit "5.1") = lit "5.1" /\
  feederSuffix (lit "5GPV.1") = lit "5.1".
Proof.
  destruct (feederSuffix_removes_first_GPV (lit "GPV5.1")) as (H1 & _ & _).
  destruct (feederSuffix_removes_first_GPV (lit "5.1")) as (_ & H2 & _).
  destruct (feederSuffix_removes_first_GPV (lit "5GPV.1")) as (_ & _ & H3).
  split; [exact (H1 eq_refl)|]. split; [exact (H2 eq_refl)|].
  apply (H3 (lit "5") (lit ".1") eq_refl).
  intros [|i] Hi; [reflexivity|]. simpl in Hi. lia.
Defined.

(** C8 as the specification words it fails: ["5GPV.1"] does not start with
    ["GPV"], and its suffix is ["5.1"], not the identifier. *)
Lemma feederSuffix_inner_GPV_counterexample :
  startsWith (lit "GPV") (lit "5GPV.1") = false /\
  feederSuffix (lit "5GPV.1") = lit "5.1" /\
  streq (feederSuffix (lit "5GPV.1")) (lit "5GPV.1") = false.
Proof. repeat split. Qed.

(** *** Schedule extractor and the [/start] handler *)

Section HandlerFacts.

Variable host : Host.

Lemma scriptLoop_no_marker scripts :
  Forall (fun txt => includes marker txt = false) scripts ->
  scriptLoop host scripts = None.
Proof.
  induction 1 as [|txt scripts Hm _ IH]; simpl; [reflexivity|].
  rewrite Hm, andb_false_r. exact IH.
Qed.

Lemma scheduleDocument_no_data doc :
  isScheduleDocument doc = true -> optionalData doc = Normal VUndefined.
Proof.
  destruct doc as [| | | | | |dates]; try discriminate. intros Hdoc.
  apply scheduleDocument_parts in Hdoc as (_ & Hts & _).
  cbn [optionalData getProp].
  now rewrite (timestamp_keys_lookup dates (lit "data") Hts eq_refl).
Qed.

Lemma sendText_factLine :
  (length (toLocaleDateString host 1700000000000) <= 3900)%nat ->
  sendText (factLine host) = [Reply (factLine host)].
Proof.
  intros Hshort. unfold sendText.
  assert (Hlen : (length (factLine host) <=? MAX_MSG_LEN)%nat = true).
  { apply Nat.leb_le. unfold factLine. rewrite !length_app.
    assert (Ha : (length (utf8 "Дата ") <=? 20)%nat = true)
      by (vm_compute; reflexivity).
    assert (Hb : (length (utf8 ", график 5.1, света не будет в такие промежутки: 8 - 10")
                  <=? 80)%nat = true) by (vm_compute; reflexivity).
    apply Nat.leb_le in Ha, Hb. unfold MAX_MSG_LEN. lia. }
  now rewrite Hlen.
Qed.

End HandlerFacts.

(** C1, as the program has it.  From the page of the scenario the
    extractor returns the document; the filter, with a keep set that holds
    ["GPV5.1"], returns it unchanged; the compressor makes one line of it,
    with the date of 1700000000 and the interval "8 - 10".  The handler
    sends that line when the assigned object holds the document under
    [data], the field it reads. *)
Theorem report_of_scenario (host : Host) (keepSet : list jsstring) (from : user) :
  In (lit "GPV5.1") keepSet ->
  fetchShutdowns host (pageOf factScript) = ([], Normal factDocument) /\
  filterGPVKeys factDocument keepSet = Normal factDocument /\
  dateLoop host (propsOf factDocument) [] = Normal [factLine host] /\
  parseLightSchedule host factDocument = Normal (factLine host) /\
  startHandler host from (pageOf wrappedScript)
  = [Log (startLogText from); Reply (greetingText from); LogValue factDocument]
    ++ sendText (factLine host) /\
  ((length (toLocaleDateString host 1700000000000) <= 3900)%nat ->
   sendText (factLine host) = [Reply (factLine host)]).
Proof.
  intros Hkeep. apply arrayIncludes_In in Hkeep.
  assert (Hfilter : forall S, arrayIncludes S (lit "GPV5.1") = true ->
                    filterGPVKeys factDocument S = Normal factDocument).
  { intros S HS. rewrite filterGPVKeys_own by (vm_compute; reflexivity).
    unfold factDocument. cbn [propsOf restrictDocument map fst snd].
    unfold restrictFeeders. cbn [filter fst].
    rewrite arrayIncludes_withoutProto, HS. reflexivity. }
  assert (Hparse : parseLightSchedule host factDocument = Normal (factLine host))
    by (vm_compute; reflexivity).
  split; [vm_compute; reflexivity|]. split; [now apply Hfilter|].
  split; [vm_compute; reflexivity|]. split; [exact Hparse|].
  split; [|apply sendText_factLine].
  assert (Hfetch : fetchShutdowns host (pageOf wrappedScript)
                   = ([], Normal (VObj [(lit "data", factDocument)])))
    by (vm_compute; reflexivity).
  assert (Hdata : optionalData (VObj [(lit "data", factDocument)])
                  = Normal factDocument) by (vm_compute; reflexivity).
  assert (Hstatus : getProp (VObj [(lit "data", factDocument)]) (lit "status")
                    = Normal VUndefined) by (vm_compute; reflexivity).
  unfold startHandler, startHandlerWith. rewrite Hfetch.
  cbn [andThen]. unfold reportFlow. rewrite Hdata. unfold pure at 1.
  cbn [andThen]. change (truthy factDocument) with true. cbn [negb].
  rewrite Hstatus. unfold pure at 1. cbn [andThen truthy andb].
  rewrite (Hfilter keysOfStart) by (vm_compute; reflexivity).
  cbn [andThen]. rewrite Hparse. unfold pure. cbn [andThen app].
  reflexivity.
Qed.

Lemma report_of_scenario_witness :
  In (lit "GPV5.1") keysOfStart /\
  fetchShutdowns exampleHost (pageOf factScript) = ([], Normal factDocument) /\
  filterGPVKeys factDocument keysOfStart = Normal factDocument /\
  dateLoop exampleHost (propsOf factDocument) [] = Normal [factLine exampleHost] /\
  parseLightSchedule exampleHost factDocument = Normal (factLine exampleHost) /\
  startHandler exampleHost exampleUser (pageOf wrappedScript)
  = [Log (startLogText exampleUser); Reply (greetingText exampleUser);
     LogValue factDocument]
    ++ sendText (factLine exampleHost) /\
  ((length (toLocaleDateString exampleHost 1700000000000) <= 3900)%nat ->
   sendText (factLine exampleHost) = [Reply (factLine exampleHost)]).
Proof.
  assert (H : In (lit "GPV5.1") keysOfStart) by (left; reflexivity).
  split; [exact H|].
  exact (report_of_scenario exampleHost keysOfStart exampleUser H).
Defined.

(** C1 as the specification words it fails: for the page of the scenario
    the handler sends its greeting and the empty-response message, and no
    line of the report. *)
Lemma report_of_scenario_counterexample :
  startHandler exampleHost exampleUser (pageOf factScript)
  = [Log (utf8 "/start from anna");
     Reply (utf8 "Привет, пользователь! Запрашиваю данные...");
     Reply (utf8 "Пустой ответ от API.")].
Proof. vm_compute. reflexivity. Qed.

(** C2.  When the extractor returns a schedule document, the handler
    finds no field [data] in it, replies with the empty-response message
    and is done: whatever the filter and the compressor are, they are not
    used. *)
Theorem start_replies_empty_for_schedule_document (host : Host)
    (filter : value -> list jsstring -> completion value)
    (compress : value -> completion jsstring)
    (from : user) (page : fetched) (logs : list event) (doc : value) :
  fetchShutdowns host page = (logs, Normal doc) ->
  isScheduleDocument doc = true ->
  optionalData doc = Normal VUndefined /\
  reportFlow host filter compress doc = ([Reply emptyText], Normal tt) /\
  startHandlerWith host filter compress from page
  = [Log (startLogText from); Reply (greetingText from)]
    ++ logs ++ [Reply emptyText].
Proof.
  intros Hfetch Hdoc.
  pose proof (scheduleDocument_no_data doc Hdoc) as Hdata.
  assert (Hflow : reportFlow host filter compress doc
                  = ([Reply emptyText], Normal tt)).
  { unfold reportFlow. rewrite Hdata. unfold pure. cbn [andThen truthy negb].
    reflexivity. }
  split; [exact Hdata|]. split; [exact Hflow|].
  unfold startHandlerWith. rewrite Hfetch. cbn [andThen]. now rewrite Hflow.
Qed.

Lemma start_replies_empty_for_schedule_document_witness :
  fetchShutdowns exampleHost (pageOf factScript) = ([], Normal factDocument) /\
  isScheduleDocument factDocument = true /\
  optionalData factDocument = Normal VUndefined /\
  reportFlow exampleHost filterGPVKeys (parseLightSchedule exampleHost) factDocument
  = ([Reply emptyText], Normal tt) /\
  startHandlerWith exampleHost filterGPVKeys (parseLightSchedule exampleHost)
    exampleUser (pageOf factScript)
  = [Log (startLogText exampleUser); Reply (greetingText exampleUser)]
    ++ [] ++ [Reply emptyText].
Proof.
  assert (H1 : fetchShutdowns exampleHost (pageOf factScript)
               = ([], Normal factDocument)) by (vm_compute; reflexivity).
  assert (H2 : isScheduleDocument factDocument = true) by (vm_compute; reflexivity).
  split; [exact H1|]. split; [exact H2|].
  exact (start_replies_empty_for_schedule_document exampleHost filterGPVKeys
           (parseLightSchedule exampleHost) exampleUser (pageOf factScript) []
           factDocument H1 H2).
Defined.

(** C9.  When the page was fetched and no script of it holds the marker,
    the extractor logs that it found nothing and returns [undefined]; it
    does not throw.  The handler then replies with the empty-response
    message and logs no error. *)
Theorem extractor_reports_absent_marker (host : Host) (from : user)
    (code : Z) (texts : list jsstring) :
  Forall (fun txt => includes marker txt = false) texts ->
  fetchShutdowns host (Responded {| ok := true; status := code; scripts := texts |})
  = ([Log notFoundText], Normal VUndefined) /\
  startHandler host from
    (Responded {| ok := true; status := code; scripts := texts |})
  = [Log (startLogText from); Reply (greetingText from);
     Log notFoundText; Reply emptyText].
Proof.
  intros Habsent.
  assert (Hfetch : fetchShutdowns host
                     (Responded {| ok := true; status := code; scripts := texts |})
                   = ([Log notFoundText], Normal VUndefined)).
  { unfold fetchShutdowns. cbn [ok scripts].
    now rewrite (scriptLoop_no_marker host texts Habsent). }
  split; [exact Hfetch|].
  unfold startHandler, startHandlerWith. rewrite Hfetch.
  cbn [andThen]. unfold reportFlow, pure. cbn [optionalData andThen truthy negb].
  reflexivity.
Qed.

Lemma extractor_reports_absent_marker_witness :
  Forall (fun txt => includes marker txt = false)
    [lit "var DisconSchedule = {};"; []; lit "DisconSchedule.preset = {}"] /\
  fetchShutdowns exampleHost
    (Responded {| ok := true; status := 200;
                  scripts := [lit "var DisconSchedule = {};"; [];
                              lit "DisconSchedule.preset = {}"] |})
  = ([Log notFoundText], Normal VUndefined) /\
  startHandler exampleHost exampleUser
    (Responded {| ok := true; status := 200;
                  scripts := [lit "var DisconSchedule = {};"; [];
                              lit "DisconSchedule.preset = {}"] |})
  = [Log (startLogText exampleUser); Reply (greetingText exampleUser);
     Log notFoundText; Reply emptyText].
Proof.
  assert (H : Forall (fun txt => includes marker txt = false)
                [lit "var DisconSchedule = {};"; [];
                 lit "DisconSchedule.preset = {}"])
    by (repeat constructor).
  split; [exact H|].
  exact (extractor_reports_absent_marker exampleHost exampleUser 200 _ H).
Defined.

(** * Further properties *)
(** * Further properties *)

(** ** The replies of the handler *)

Section SendFacts.

Lemma sliceLoop_chunks fuel : forall text,
  (length text <= fuel)%nat ->
  text <> [] ->
  exists full last,
    sliceLoop fuel text = map Reply (full ++ [last]) /\
    Forall (fun chunk => length chunk = MAX_MSG_LEN) full /\
    (0 < length last <= MAX_MSG_LEN)%nat /\
    concat (full ++ [last]) = text.
Proof.
  induction fuel as [|fuel IH]; intros text Hlen Hne.
  - destruct text; [contradiction|simpl in Hlen; lia].
  - destruct text as [|c text']; [contradiction|].
    cbn [sliceLoop]. set (text := c :: text') in *.
    assert (Hmax : (0 < MAX_MSG_LEN)%nat) by (unfold MAX_MSG_LEN; lia).
    destruct (skipn MAX_MSG_LEN text) as [|d rest] eqn:Erest.
    + exists [], (firstn MAX_MSG_LEN text).
      assert (Hall : firstn MAX_MSG_LEN text = text).
      { rewrite <- (firstn_skipn MAX_MSG_LEN text) at 2.
        now rewrite Erest, app_nil_r. }
      split.
      * destruct fuel; reflexivity.
      * split; [constructor|]. split.
        -- rewrite Hall. split.
           ++ subst text. simpl. lia.
           ++ rewrite <- Hall, length_firstn. lia.
        -- cbn [app concat]. now rewrite app_nil_r.
    + assert (Hfull : length (firstn MAX_MSG_LEN text) = MAX_MSG_LEN).
      { rewrite length_firstn.
        assert (length (skipn MAX_MSG_LEN text) <> 0)%nat
          by (rewrite Erest; discriminate).
        rewrite length_skipn in H. lia. }
      destruct (IH (d :: rest)) as (full & last & Hloop & Hfulls & Hlast & Hcat).
      * rewrite <- Erest, length_skipn. subst text. simpl in *. lia.
      * discriminate.
      * exists (firstn MAX_MSG_LEN text :: full), last.
        split; [cbn [app map]; now rewrite Hloop|].
        split; [now constructor|]. split; [exact Hlast|].
        cbn [app concat]. rewrite Hcat, <- Erest. apply firstn_skipn.
Qed.

End SendFacts.

(** X1.  Whatever the text, [sendText] sends replies only; their texts put
    together are the text; all but the last have [MAX_MSG_LEN] code units
    and the last has at most as many; and only an empty text gives an
    empty reply. *)
Theorem sendText_chunks (text : jsstring) :
  exists full last,
    sendText text = map Reply (full ++ [last]) /\
    Forall (fun chunk => length chunk = MAX_MSG_LEN) full /\
    (length last <= MAX_MSG_LEN)%nat /\
    concat (full ++ [last]) = text /\
    (last = [] <-> text = []).
Proof.
  unfold sendText. destruct (length text <=? MAX_MSG_LEN)%nat eqn:E.
  - apply Nat.leb_le in E. exists [], text. cbn [app map concat].
    rewrite app_nil_r. repeat split; auto.
  - apply Nat.leb_gt in E.
    assert (Hne : text <> []) by (intros ->; simpl in E; lia).
    destruct (sliceLoop_chunks (length text) text (Nat.le_refl _) Hne)
      as (full & last & Hloop & Hfull & Hlast & Hcat).
    exists full, last. repeat split; auto; try lia.
    + intros ->. simpl in Hlast. lia.
    + intros ->. contradiction.
Qed.

Section HandlerShape.

Variable host : Host.
Variable filter : value -> list jsstring -> completion value.
Variable compress : value -> completion jsstring.

Lemma noError_app evs1 evs2 :
  noError (evs1 ++ evs2) = noError evs1 && noError evs2.
Proof. apply forallb_app. Qed.

Lemma noError_replies texts : noError (map Reply texts) = true.
Proof. induction texts; simpl; auto. Qed.

Lemma sendText_replies text :
  exists texts last, sendText text = map Reply texts ++ [Reply last].
Proof.
  unfold sendText. destruct (length text <=? MAX_MSG_LEN)%nat eqn:E.
  - now exists [], text.
  - apply Nat.leb_gt in E.
    assert (Hne : text <> []) by (intros ->; simpl in E; lia).
    destruct (sliceLoop_chunks (length text) text (Nat.le_refl _) Hne)
      as (full & last & Hloop & _).
    exists full, last. now rewrite Hloop, map_app.
Qed.

Lemma fetchShutdowns_logs page logs c :
  fetchShutdowns host page = (logs, c) -> noError logs = true.
Proof.
  unfold fetchShutdowns. destruct page as [|resp]; [now intros [= <- _]|].
  destruct (ok resp); [|now intros [= <- _]].
  destruct (scriptLoop host (scripts resp)); now intros [= <- _].
Qed.

(** The [try] block logs no error itself, and when it comes to its end
    the last thing it did was to reply. *)
Lemma reportFlow_events data evs c :
  reportFlow host filter compress data = (evs, c) ->
  noError evs = true /\
  (forall u, c = Normal u -> exists evs' text, evs = evs' ++ [Reply text]).
Proof.
  unfold reportFlow, andThen, pure.
  destruct (optionalData data) as [payload|e]; [|intros [= <- <-]; split; [reflexivity|discriminate]].
  destruct (truthy payload); cbn [negb].
  - destruct (getProp data (lit "status")) as [st|e];
      [|intros [= <- <-]; split; [reflexivity|discriminate]].
    destruct (truthy st && negb (isOk st)).
    + destruct (templateText host st) as [t|e]; intros [= <- <-].
      * split; [reflexivity|]. intros _ _. now exists [], (utf8 "API вернул статус: " ++ t).
      * split; [reflexivity|discriminate].
    + destruct (filter payload keysOfStart) as [filteredData|e];
        [|intros [= <- <-]; split; [reflexivity|discriminate]].
      destruct (compress filteredData) as [text|e]; intros [= <- <-].
      * destruct (sendText_replies text) as (texts & last & ->).
        split.
        -- cbn [app]. unfold noError. cbn [forallb andb]. rewrite forallb_app.
           fold (noError (map Reply texts)). now rewrite noError_replies.
        -- intros _ _. exists (LogValue payload :: map Reply texts), last.
           reflexivity.
      * split; [reflexivity|discriminate].
  - intros [= <- <-]. split; [reflexivity|]. intros _ _. now exists [], emptyText.
Qed.

End HandlerShape.

(** X2.  The handler always answers: after the log of the command and the
    greeting come events that end with a reply.  Either no error is logged
    at all, or one is, as the last event but one, and the last reply is
    the apology.  This holds for every page, host, filter and
    compressor. *)
Theorem startHandler_always_replies (host : Host)
    (filter : value -> list jsstring -> completion value)
    (compress : value -> completion jsstring) (from : user) (page : fetched) :
  exists evs text,
    startHandlerWith host filter compress from page
    = Log (startLogText from) :: Reply (greetingText from) :: evs ++ [Reply text] /\
    (noError evs = true \/
     exists evs' err,
       evs = evs' ++ [LogError err] /\ noError evs' = true /\ text = sorryText).
Proof.
  unfold startHandlerWith, andThen.
  destruct (fetchShutdowns host page) as [logs [data|e]] eqn:Hfetch.
  - apply fetchShutdowns_logs in Hfetch.
    destruct (reportFlow host filter compress data) as [evs [u|e]] eqn:Hflow;
      destruct (reportFlow_events _ _ _ _ _ _ Hflow) as [Hno Hlast].
    + destruct (Hlast u eq_refl) as (evs' & text & ->).
      exists (logs ++ evs'), text. split.
      * cbn [app]. now rewrite app_assoc.
      * left. rewrite noError_app in Hno |- *.
        apply andb_true_iff in Hno as [Hno _]. now rewrite Hfetch, Hno.
    + exists ((logs ++ evs) ++ [LogError e]), sorryText. split.
      * cbn [app]. now rewrite <- !app_assoc.
      * right. exists (logs ++ evs), e. rewrite noError_app, Hfetch, Hno. auto.
  - apply fetchShutdowns_logs in Hfetch.
    exists (logs ++ [LogError e]), sorryText. split.
    + cbn [app]. now rewrite <- app_assoc.
    + right. exists logs, e. auto.
Qed.

(** X3.  When the response is not [ok], the extractor throws the error of
    its status without reading the scripts, and the handler logs that
    error and replies with the apology; the filter and the compressor are
    not used. *)
Theorem http_error_gives_apology (host : Host)
    (filter : value -> list jsstring -> completion value)
    (compress : value -> completion jsstring) (from : user)
    (code : Z) (texts : list jsstring) :
  fetchShutdowns host (Responded {| ok := false; status := code; scripts := texts |})
  = ([], Throw (HttpError code)) /\
  startHandlerWith host filter compress from
    (Responded {| ok := false; status := code; scripts := texts |})
  = [Log (startLogText from); Reply (greetingText from);
     LogError (HttpError code); Reply sorryText].
Proof.
  split; [reflexivity|].
  unfold startHandlerWith, fetchShutdowns. cbn [ok status andThen app].
  reflexivity.
Qed.

(** X4.  When the extracted object has a truthy [data] and a status that
    is a string other than the empty one and ["ok"], the handler replies
    with that status and does nothing more: the filter and the compressor
    are not used.  The host is taken to put a string into a template as
    it is. *)
Theorem status_other_than_ok_is_reported (host : Host)
    (filter : value -> list jsstring -> completion value)
    (compress : value -> completion jsstring) (from : user) (page : fetched)
    (logs : list event) (props : list (jsstring * value))
    (payload : value) (st : jsstring) :
  fetchShutdowns host page = (logs, Normal (VObj props)) ->
  lookup (lit "data") props = Some payload -> truthy payload = true ->
  lookup (lit "status") props = Some (VStr st) ->
  st <> [] -> st <> lit "ok" ->
  templateText host (VStr st) = Normal st ->
  startHandlerWith host filter compress from page
  = [Log (startLogText from); Reply (greetingText from)]
    ++ logs ++ [Reply (utf8 "API вернул статус: " ++ st)].
Proof.
  intros Hfetch Hdata Htruthy Hstatus Hne Hok Htemplate.
  unfold startHandlerWith. rewrite Hfetch. cbn [andThen].
  unfold reportFlow, pure. cbn [optionalData getProp]. rewrite Hdata.
  cbn [andThen]. rewrite Htruthy. cbn [negb]. rewrite Hstatus. cbn [andThen].
  assert (Hst : truthy (VStr st) && negb (isOk (VStr st)) = true).
  { destruct st as [|c s]; [contradiction|]. cbn [truthy isOk andb].
    apply negb_true_iff. destruct (streq (c :: s) (lit "ok")) eqn:E; [|reflexivity].
    apply streq_eq in E. contradiction. }
  rewrite Hst, Htemplate. cbn [andThen app]. reflexivity.
Qed.

Lemma status_other_than_ok_is_reported_witness :
  fetchShutdowns exampleHost (pageOf statusScript)
  = ([], Normal (VObj [(lit "data", VObj [(lit "1700000000", VObj [])]);
                       (lit "status", VStr (lit "error"))])) /\
  startHandlerWith exampleHost filterGPVKeys (parseLightSchedule exampleHost)
    exampleUser (pageOf statusScript)
  = [Log (startLogText exampleUser); Reply (greetingText exampleUser)]
    ++ [] ++ [Reply (utf8 "API вернул статус: " ++ lit "error")].
Proof.
  assert (H : fetchShutdowns exampleHost (pageOf statusScript)
              = ([], Normal (VObj [(lit "data", VObj [(lit "1700000000", VObj [])]);
                                   (lit "status", VStr (lit "error"))])))
    by (vm_compute; reflexivity).
  split; [exact H|].
  apply (status_other_than_ok_is_reported exampleHost filterGPVKeys
           (parseLightSchedule exampleHost) exampleUser (pageOf statusScript) []
           _ (VObj [(lit "1700000000", VObj [])]) (lit "error") H);
    try reflexivity; discriminate.
Defined.

(** ** The extractor *)

Section ExtractorFacts.

Lemma matchFact_marker txt m1 :
  matchFact txt = Some m1 -> includes marker txt = true /\ txt <> [].
Proof.
  induction txt as [|c txt IH]; cbn [matchFact includes].
  - unfold matchFactAt. cbn [startsWith lit]. discriminate.
  - intros H. split; [|discriminate].
    destruct (matchFactAt (c :: txt)) as [m|] eqn:E.
    + unfold matchFactAt in E. fold marker in E.
      destruct (startsWith marker (c :: txt)); [reflexivity|discriminate].
    + destruct (IH H) as [Hin _]. rewrite Hin. apply orb_true_r.
Qed.

Lemma scriptLoop_firstCapture host scripts :
  scriptLoop host scripts = option_map (parseFact host) (firstCapture scripts).
Proof.
  induction scripts as [|txt rest IH]; cbn [scriptLoop firstCapture];
    [reflexivity|].
  destruct (matchFact txt) as [m1|] eqn:E.
  - destruct (matchFact_marker _ _ E) as [Hin Hne]. rewrite Hin.
    destruct txt; [contradiction|reflexivity].
  - rewrite IH. now destruct (_ && _).
Qed.

Lemma firstCapture_app first rest :
  firstCapture (first ++ rest)
  = match firstCapture first with
    | Some m1 => Some m1
    | None => firstCapture rest
    end.
Proof.
  induction first as [|txt first IH]; cbn [app firstCapture]; [reflexivity|].
  now destruct (matchFact txt).
Qed.

Lemma dropWhiteSpace_split s :
  exists gap, s = gap ++ dropWhiteSpace s /\ forallb isWhiteSpace gap = true.
Proof.
  induction s as [|c s (gap & Hs & Hgap)]; cbn [dropWhiteSpace].
  - now exists [].
  - destruct (isWhiteSpace c) eqn:E.
    + exists (c :: gap). cbn [app forallb]. rewrite E, Hgap. now rewrite <- Hs.
    + now exists [].
Qed.

Lemma startsWith_split p s : startsWith p s = true -> s = p ++ skipn (length p) s.
Proof.
  revert s; induction p as [|x p IH]; intros s H; [reflexivity|].
  destruct s as [|y s]; [discriminate|]. cbn [startsWith] in H.
  apply andb_true_iff in H as [Hx Hp]. apply N.eqb_eq in Hx. subst y.
  cbn [length skipn app]. f_equal. now apply IH.
Qed.

Lemma lazyObject_split s m :
  lazyObject s = Some m ->
  exists body rest,
    m = body ++ [125%N] /\ s = m ++ rest /\ factLookahead rest = true.
Proof.
  revert m; induction s as [|c s IH]; intros m; cbn [lazyObject];
    [discriminate|].
  destruct ((c =? 125)%N && factLookahead s) eqn:E.
  - intros [= <-]. apply andb_true_iff in E as [Ec El].
    apply N.eqb_eq in Ec. subst c. now exists [], s.
  - destruct (lazyObject s) as [m'|]; [|discriminate]. intros [= <-].
    destruct (IH _ eq_refl) as (body & rest & -> & -> & Hl).
    exists (c :: body), rest. auto.
Qed.

End ExtractorFacts.

(** X5.  The extractor answers with the first script, in document order,
    that its expression matches: what it returns is that script's group 1,
    parsed, and the scripts after it are not read; a script that holds the
    marker and is not matched is passed over; with no match at all, the
    result is the log and [undefined].  The test for the marker before the
    match changes nothing. *)
Theorem extractor_takes_first_match (host : Host) (code : Z)
    (texts : list jsstring) :
  fetchShutdowns host (Responded {| ok := true; status := code; scripts := texts |})
  = match firstCapture texts with
    | Some m1 => ([], parseFact host m1)
    | None => ([Log notFoundText], Normal VUndefined)
    end /\
  forall first txt m1 rest,
    texts = first ++ txt :: rest ->
    firstCapture first = None -> matchFact txt = Some m1 ->
    fetchShutdowns host (Responded {| ok := true; status := code; scripts := texts |})
    = ([], parseFact host m1).
Proof.
  assert (H : fetchShutdowns host
                (Responded {| ok := true; status := code; scripts := texts |})
              = match firstCapture texts with
                | Some m1 => ([], parseFact host m1)
                | None => ([Log notFoundText], Normal VUndefined)
                end).
  { unfold fetchShutdowns. cbn [ok scripts]. rewrite scriptLoop_firstCapture.
    now destruct (firstCapture texts). }
  split; [exact H|].
  intros first txt m1 rest -> Hfirst Hm. rewrite H, firstCapture_app, Hfirst.
  cbn [firstCapture]. now rewrite Hm.
Qed.

(** X6.  What the expression captures: the script holds the marker, white
    space, [=], white space and then the group; the group begins with an
    opening brace and ends with a closing one; and after the group comes
    white space and then the end of the script or [DisconSchedule.]. *)
Theorem capture_is_braced_and_followed (txt m1 : jsstring) :
  matchFact txt = Some m1 ->
  exists before gap1 gap2 body rest,
    txt = before ++ marker ++ gap1 ++ [61%N] ++ gap2 ++ m1 ++ rest /\
    forallb isWhiteSpace gap1 = true /\ forallb isWhiteSpace gap2 = true /\
    m1 = [123%N] ++ body ++ [125%N] /\
    (startsWith (lit "DisconSchedule.") (dropWhiteSpace rest) = true
     \/ dropWhiteSpace rest = []).
Proof.
  revert m1; induction txt as [|c txt IH]; intros m1; cbn [matchFact].
  - unfold matchFactAt. cbn [startsWith lit]. discriminate.
  - destruct (matchFactAt (c :: txt)) as [m|] eqn:E.
    + intros [= <-]. unfold matchFactAt in E. fold marker in E.
      destruct (startsWith marker (c :: txt)) eqn:Es; [|discriminate].
      apply startsWith_split in Es.
      destruct (dropWhiteSpace_split (skipn (length marker) (c :: txt)))
        as (gap1 & H1 & Hg1).
      destruct (dropWhiteSpace (skipn (length marker) (c :: txt)))
        as [|eq r]; [discriminate|].
      destruct (eq =? 61)%N eqn:Eeq;
        [apply N.eqb_eq in Eeq; subst eq
        |exfalso; apply N.eqb_neq in Eeq; destruct eq as [|p]; [discriminate|];
         repeat (match goal with p : positive |- _ => destruct p end;
                 try discriminate); congruence].
      destruct (dropWhiteSpace_split r) as (gap2 & H2 & Hg2).
      destruct (dropWhiteSpace r) as [|br body0]; [discriminate|].
      destruct (br =? 123)%N eqn:Ebr;
        [apply N.eqb_eq in Ebr; subst br
        |exfalso; apply N.eqb_neq in Ebr; destruct br as [|p]; [discriminate|];
         repeat (match goal with p : positive |- _ => destruct p end;
                 try discriminate); congruence].
      destruct (lazyObject body0) as [m'|] eqn:El; [|discriminate].
      injection E as <-.
      destruct (lazyObject_split _ _ El) as (body & rest & -> & Hb & Hl).
      exists [], gap1, gap2, body, rest. cbn [app].
      split; [|split; [exact Hg1|split; [exact Hg2|split; [reflexivity|]]]].
      * rewrite Es at 1. f_equal. rewrite H1. f_equal. cbn [app]. f_equal.
        rewrite H2. f_equal. cbn [app]. f_equal. rewrite Hb.
        now rewrite <- app_assoc.
      * unfold factLookahead in Hl. apply orb_true_iff in Hl as [Hl|Hl]; auto.
        right. now destruct (dropWhiteSpace rest).
    + intros H. destruct (IH _ H) as (before & gap1 & gap2 & body & rest & -> & Hrest).
      exists (c :: before), gap1, gap2, body, rest. auto.
Qed.

Lemma capture_is_braced_and_followed_witness :
  matchFact longScript = Some (lit "{'1': {}}") /\
  exists before gap1 gap2 body rest,
    longScript = before ++ marker ++ gap1 ++ [61%N] ++ gap2 ++ lit "{'1': {}}" ++ rest /\
    forallb isWhiteSpace gap1 = true /\ forallb isWhiteSpace gap2 = true /\
    lit "{'1': {}}" = [123%N] ++ body ++ [125%N] /\
    (startsWith (lit "DisconSchedule.") (dropWhiteSpace rest) = true
     \/ dropWhiteSpace rest = []).
Proof.
  assert (H : matchFact longScript = Some (lit "{'1': {}}"))
    by (vm_compute; reflexivity).
  split; [exact H|]. exact (capture_is_braced_and_followed _ _ H).
Defined.

(** ** The feeder filter, further *)

Section FilterMore.

Lemma arrayIncludes_ext S S' :
  (forall g, In g S <-> In g S') ->
  forall g, arrayIncludes S g = arrayIncludes S' g.
Proof.
  intros H g.
  destruct (arrayIncludes S g) eqn:E1, (arrayIncludes S' g) eqn:E2; auto.
  - apply arrayIncludes_In, H, arrayIncludes_In in E1. congruence.
  - apply arrayIncludes_In, H, arrayIncludes_In in E2. congruence.
Qed.

Lemma gpvKeyLoop_ext S S' obj dateKey :
  (forall g, arrayIncludes S g = arrayIncludes S' g) ->
  forall gpvKeys result,
    gpvKeyLoop S obj dateKey gpvKeys result
    = gpvKeyLoop S' obj dateKey gpvKeys result.
Proof.
  intros H gpvKeys. induction gpvKeys as [|g rest IH]; intros result;
    cbn [gpvKeyLoop]; [reflexivity|].
  rewrite <- H. destruct (arrayIncludes S g); [|apply IH].
  destruct (getProp obj dateKey) as [schedules|]; cbn [cbind]; [|reflexivity].
  destruct (getProp schedules g) as [v|]; cbn [cbind]; [|reflexivity].
  destruct (assignInner result dateKey g v); cbn [cbind]; [apply IH|reflexivity].
Qed.

Lemma protoKeyLoop_ext S S' obj :
  (forall g, arrayIncludes S g = arrayIncludes S' g) ->
  forall gpvKeys slot,
    protoKeyLoop S obj gpvKeys slot = protoKeyLoop S' obj gpvKeys slot.
Proof.
  intros H gpvKeys. induction gpvKeys as [|g rest IH]; intros slot;
    cbn [protoKeyLoop]; [reflexivity|].
  rewrite <- H. destruct (arrayIncludes S g); [|apply IH].
  destruct (getProp obj protoKey) as [schedules|]; cbn [cbind]; [|reflexivity].
  destruct (getProp schedules g) as [v|]; cbn [cbind]; [|reflexivity].
  destruct (assignProto slot g v); cbn [cbind]; [apply IH|reflexivity].
Qed.

Lemma dateKeyLoop_ext S S' obj :
  (forall g, arrayIncludes S g = arrayIncludes S' g) ->
  forall dateKeys result,
    dateKeyLoop S obj dateKeys result = dateKeyLoop S' obj dateKeys result.
Proof.
  intros H dateKeys. induction dateKeys as [|k rest IH]; intros result;
    cbn [dateKeyLoop]; [reflexivity|].
  destruct (hasOwnProperty obj k) as [[|]|]; cbn [cbind]; auto.
  destruct (streq k protoKey).
  - destruct (getProp obj k) as [schedules|]; cbn [cbind]; [|reflexivity].
    rewrite (protoKeyLoop_ext S S' obj H).
    destruct (protoKeyLoop S' obj _ _); cbn [cbind]; auto.
  - destruct (getProp obj k) as [schedules|]; cbn [cbind]; [|reflexivity].
    rewrite (gpvKeyLoop_ext S S' obj k H).
    destruct (gpvKeyLoop S' obj k _ _); cbn [cbind]; auto.
Qed.

Lemma restrictFeeders_twice S1 S2 S feeders :
  (forall g, In g S <-> In g S1 /\ In g S2) ->
  restrictFeeders S2 (restrictFeeders S1 feeders) = restrictFeeders S feeders.
Proof.
  intros H. unfold restrictFeeders.
  induction feeders as [|[k v] r IH]; [reflexivity|].
  assert (Hk : arrayIncludes S k = arrayIncludes S1 k && arrayIncludes S2 k).
  { destruct (arrayIncludes S k) eqn:E.
    - apply arrayIncludes_In, H in E as [E1 E2].
      apply arrayIncludes_In in E1, E2. now rewrite E1, E2.
    - destruct (arrayIncludes S1 k) eqn:E1, (arrayIncludes S2 k) eqn:E2; auto.
      apply arrayIncludes_In in E1, E2.
      assert (Hin : In k S) by (apply H; auto).
      apply arrayIncludes_In in Hin. congruence. }
  cbn [filter fst]. rewrite Hk.
  destruct (arrayIncludes S1 k); cbn [andb filter fst].
  - destruct (arrayIncludes S2 k); now rewrite IH.
  - exact IH.
Qed.

Lemma restrictDocument_twice S1 S2 S dates :
  (forall g, In g S <-> In g S1 /\ In g S2) ->
  restrictDocument S2 (restrictDocument S1 dates) = restrictDocument S dates.
Proof.
  intros H. unfold restrictDocument. rewrite map_map. apply map_ext.
  intros [k v]. cbn [fst snd propsOf]. now rewrite (restrictFeeders_twice S1 S2 S).
Qed.

Lemma restrictFeeders_all S feeders :
  (forall g, In g (map fst feeders) -> In g S) ->
  restrictFeeders S feeders = feeders.
Proof.
  unfold restrictFeeders.
  induction feeders as [|[k v] r IH]; intros H; [reflexivity|].
  assert (Hk : arrayIncludes S k = true)
    by (apply arrayIncludes_In, H; now left).
  cbn [filter fst]. rewrite Hk. f_equal. apply IH. intros g Hg. apply H. now right.
Qed.

(** Every value but [undefined] and [null] can be read at any key. *)
Lemma getProp_normal o k :
  o <> VUndefined -> o <> VNull -> exists v, getProp o k = Normal v.
Proof.
  intros H1 H2. destruct o; try contradiction; cbn [getProp]; eauto.
  - destruct (arrayIndex k); eauto. destruct (nth_error s _); eauto.
  - destruct (arrayIndex k); eauto. destruct (nth_error items _); eauto.
  - destruct (lookup k props); eauto.
Qed.

Lemma gpvKeyLoop_normal S obj dateKey schedules :
  getProp obj dateKey = Normal schedules ->
  forall gpvKeys result,
    (gpvKeys = [] \/ (schedules <> VUndefined /\ schedules <> VNull)) ->
    lookup dateKey result <> None ->
    exists result',
      gpvKeyLoop S obj dateKey gpvKeys result = Normal result' /\
      lookup dateKey result' <> None.
Proof.
  intros Hobj gpvKeys. induction gpvKeys as [|g rest IH]; intros result Hs Hr;
    cbn [gpvKeyLoop]; [eauto|].
  destruct Hs as [Hs|[Hs1 Hs2]]; [discriminate|].
  destruct (arrayIncludes S g); [|apply IH; auto].
  rewrite Hobj. cbn [cbind].
  destruct (getProp_normal schedules g Hs1 Hs2) as (v & ->). cbn [cbind].
  unfold assignInner. destruct (lookup dateKey result) as [inner|] eqn:E;
    [|contradiction].
  destruct (streq g protoKey); cbn [cbind]; apply IH; auto.
  - now rewrite E.
  - rewrite lookup_setProp_same. discriminate.
Qed.

Lemma forInKeys_nil_or_readable o :
  forInKeys o = [] \/ (o <> VUndefined /\ o <> VNull).
Proof. destruct o; cbn [forInKeys]; auto; right; split; discriminate. Qed.

Lemma dateKeyLoop_normal S obj :
  (forall k, exists b, hasOwnProperty obj k = Normal b) ->
  obj <> VUndefined -> obj <> VNull ->
  forall dateKeys result,
    arrayIncludes dateKeys protoKey = false ->
    exists result', dateKeyLoop S obj dateKeys result = Normal result'.
Proof.
  intros Hown H1 H2 dateKeys.
  induction dateKeys as [|k rest IH]; intros result Hkeys;
    cbn [dateKeyLoop]; [eauto|].
  unfold arrayIncludes in Hkeys. cbn [existsb] in Hkeys.
  apply orb_false_iff in Hkeys as [Hk Hrest]. rewrite streq_sym in Hk.
  specialize (fun r => IH r Hrest).
  destruct (Hown k) as (b & ->). cbn [cbind]. destruct b; [|apply IH].
  rewrite Hk.
  destruct (getProp_normal obj k H1 H2) as (schedules & Hs). rewrite Hs.
  cbn [cbind].
  destruct (gpvKeyLoop_normal S obj k schedules Hs (forInKeys schedules)
              (setProp k [] result) (forInKeys_nil_or_readable schedules))
    as (result' & -> & _).
  - rewrite lookup_setProp_same. discriminate.
  - cbn [cbind]. apply IH.
Qed.

End FilterMore.

(** X7.  Filtering twice keeps the feeders of both keep sets, neither of
    which holds [__proto__]: on a schedule document, filtering with [S1]
    and then with [S2] returns what filtering with [S2] and then with [S1]
    returns, and what one filtering returns with any keep set whose
    members are those of both. *)
Theorem filter_twice_is_filter_of_common (d : value) (S1 S2 S : list jsstring) :
  arrayIncludes S1 protoKey = false -> arrayIncludes S2 protoKey = false ->
  isScheduleDocument d = true ->
  (forall g, In g S <-> In g S1 /\ In g S2) ->
  exists d1 d2 both,
    filterGPVKeys d S1 = Normal d1 /\ filterGPVKeys d1 S2 = Normal both /\
    filterGPVKeys d S2 = Normal d2 /\ filterGPVKeys d2 S1 = Normal both /\
    filterGPVKeys d S = Normal both.
Proof.
  intros Hp1 Hp2 Hdoc HS.
  assert (Hp : arrayIncludes S protoKey = false).
  { destruct (arrayIncludes S protoKey) eqn:E; [|reflexivity].
    apply arrayIncludes_In, HS in E as [E _].
    apply arrayIncludes_In in E. congruence. }
  destruct d as [| | | | | |dates]; try discriminate.
  exists (VObj (restrictDocument S1 dates)), (VObj (restrictDocument S2 dates)),
    (VObj (restrictDocument S dates)).
  rewrite (filterGPVKeys_restrict S1 _ Hp1 Hdoc).
  rewrite (filterGPVKeys_restrict S2 _ Hp2 Hdoc).
  rewrite (filterGPVKeys_restrict S _ Hp Hdoc).
  cbn [propsOf].
  rewrite (filterGPVKeys_restrict S2 _ Hp2 (restrictDocument_shape S1 _ Hdoc)).
  rewrite (filterGPVKeys_restrict S1 _ Hp1 (restrictDocument_shape S2 _ Hdoc)).
  cbn [propsOf].
  rewrite (restrictDocument_twice S1 S2 S) by exact HS.
  rewrite (restrictDocument_twice S2 S1 S)
    by (intros g; rewrite HS; tauto).
  auto.
Qed.

Lemma filter_twice_is_filter_of_common_witness :
  arrayIncludes [lit "GPV5.1"; lit "GPV1.1"] protoKey = false /\
  arrayIncludes [lit "GPV1.1"; lit "GPV3.2"] protoKey = false /\
  isScheduleDocument sampleDocument = true /\
  (forall g, In g [lit "GPV1.1"]
             <-> In g [lit "GPV5.1"; lit "GPV1.1"] /\ In g [lit "GPV1.1"; lit "GPV3.2"]) /\
  exists d1 d2 both,
    filterGPVKeys sampleDocument [lit "GPV5.1"; lit "GPV1.1"] = Normal d1 /\
    filterGPVKeys d1 [lit "GPV1.1"; lit "GPV3.2"] = Normal both /\
    filterGPVKeys sampleDocument [lit "GPV1.1"; lit "GPV3.2"] = Normal d2 /\
    filterGPVKeys d2 [lit "GPV5.1"; lit "GPV1.1"] = Normal both /\
    filterGPVKeys sampleDocument [lit "GPV1.1"] = Normal both.
Proof.
  assert (H1 : isScheduleDocument sampleDocument = true) by reflexivity.
  assert (H2 : forall g, In g [lit "GPV1.1"]
                 <-> In g [lit "GPV5.1"; lit "GPV1.1"]
                     /\ In g [lit "GPV1.1"; lit "GPV3.2"]).
  { intros g. simpl. split.
    - intros [<-|[]]. auto.
    - intros [[<-|[<-|[]]] [H|[H|[]]]]; auto; discriminate. }
  split; [reflexivity|]. split; [reflexivity|].
  split; [exact H1|]. split; [exact H2|].
  exact (filter_twice_is_filter_of_common sampleDocument
           [lit "GPV5.1"; lit "GPV1.1"] [lit "GPV1.1"; lit "GPV3.2"]
           [lit "GPV1.1"] eq_refl eq_refl H1 H2).
Defined.

(** X8.  The keep set counts as a set: two keep sets with the same
    members, in any order and with any repetitions, give the same result,
    for every value passed as the document. *)
Theorem filter_reads_keep_set_as_set (obj : value) (S S' : list jsstring) :
  (forall g, In g S <-> In g S') ->
  filterGPVKeys obj S = filterGPVKeys obj S'.
Proof.
  intros H. unfold filterGPVKeys.
  now rewrite (dateKeyLoop_ext S S' obj (arrayIncludes_ext S S' H)).
Qed.

Lemma filter_reads_keep_set_as_set_witness :
  (forall g, In g [lit "GPV5.1"; lit "GPV3.2"]
             <-> In g [lit "GPV3.2"; lit "GPV5.1"; lit "GPV3.2"]) /\
  filterGPVKeys sampleDocument [lit "GPV5.1"; lit "GPV3.2"]
  = filterGPVKeys sampleDocument [lit "GPV3.2"; lit "GPV5.1"; lit "GPV3.2"].
Proof.
  assert (H : forall g, In g [lit "GPV5.1"; lit "GPV3.2"]
                <-> In g [lit "GPV3.2"; lit "GPV5.1"; lit "GPV3.2"])
    by (intros g; simpl; tauto).
  split; [exact H|].
  exact (filter_reads_keep_set_as_set sampleDocument _ _ H).
Defined.

(** X9.  A keep set that holds every feeder of a schedule document, and
    not [__proto__], leaves the document as it is. *)
Theorem filter_with_all_feeders_is_identity (d : value) (S : list jsstring) :
  arrayIncludes S protoKey = false ->
  isScheduleDocument d = true ->
  (forall dateKey feeders g,
     In (dateKey, VObj feeders) (propsOf d) -> In g (map fst feeders) -> In g S) ->
  filterGPVKeys d S = Normal d.
Proof.
  intros Hproto Hdoc Hall. rewrite (filterGPVKeys_restrict S d Hproto Hdoc).
  destruct d as [| | | | | |dates]; try discriminate. cbn [propsOf] in *.
  f_equal. f_equal.
  apply scheduleDocument_parts in Hdoc as (_ & _ & Hfm).
  unfold restrictDocument. rewrite <- (map_id dates) at 2.
  apply map_ext_in. intros [k v] Hin. cbn [fst snd].
  destruct (feederMap_parts _ (Hfm _ Hin)) as (feeders & Hv & _).
  cbn [snd] in Hv. subst v. cbn [propsOf].
  rewrite restrictFeeders_all; [reflexivity|].
  intros g Hg. exact (Hall k feeders g Hin Hg).
Qed.

Lemma filter_with_all_feeders_is_identity_witness :
  arrayIncludes [lit "GPV1.1"; lit "GPV5.1"] protoKey = false /\
  isScheduleDocument sampleDocument = true /\
  (forall dateKey feeders g,
     In (dateKey, VObj feeders) (propsOf sampleDocument) ->
     In g (map fst feeders) -> In g [lit "GPV1.1"; lit "GPV5.1"]) /\
  filterGPVKeys sampleDocument [lit "GPV1.1"; lit "GPV5.1"] = Normal sampleDocument.
Proof.
  assert (H1 : isScheduleDocument sampleDocument = true) by reflexivity.
  assert (H2 : forall dateKey feeders g,
            In (dateKey, VObj feeders) (propsOf sampleDocument) ->
            In g (map fst feeders) -> In g [lit "GPV1.1"; lit "GPV5.1"]).
  { intros dateKey feeders g [[= <- <-]|[[= <- <-]|[]]] Hg; simpl in Hg |- *;
      tauto. }
  split; [reflexivity|]. split; [exact H1|]. split; [exact H2|].
  exact (filter_with_all_feeders_is_identity sampleDocument
           [lit "GPV1.1"; lit "GPV5.1"] eq_refl H1 H2).
Defined.

(** X10.  Given a value none of whose keys is [__proto__], the filter
    throws in one case only: when the value is an object with a key to
    enumerate and an own property [hasOwnProperty], the call of the
    method is a [TypeError].  In every other case it returns an object;
    for [undefined], [null], a boolean, a number and an object without
    keys, the empty one. *)
Theorem filter_throws_only_on_hidden_method (obj : value) (S : list jsstring) :
  arrayIncludes (forInKeys obj) protoKey = false ->
  (if hidesHasOwnProperty obj
   then filterGPVKeys obj S = Throw TypeError
   else exists result, filterGPVKeys obj S = Normal (VObj result)) /\
  (forInKeys obj = [] -> filterGPVKeys obj S = Normal (VObj [])).
Proof.
  intros Hproto. split.
  - destruct (hidesHasOwnProperty obj) eqn:Eh.
    + destruct obj as [| | | | | |[|[k v] rest]]; try discriminate.
      unfold hidesHasOwnProperty in Eh. unfold filterGPVKeys.
      cbn [forInKeys map fst dateKeyLoop hasOwnProperty].
      destruct (lookup (lit "hasOwnProperty") ((k, v) :: rest));
        [reflexivity|discriminate].
    + assert (Hloop : forInKeys obj = [] \/ exists result,
                dateKeyLoop S obj (forInKeys obj) [] = Normal result).
      { destruct obj as [| | | | | |props]; auto; right;
          apply dateKeyLoop_normal; try discriminate; try exact Hproto;
          intros k; cbn [hasOwnProperty]; eauto.
        destruct props as [|kv rest]; [cbn [lookup]; eauto|].
        unfold hidesHasOwnProperty in Eh.
        destruct (lookup (lit "hasOwnProperty") (kv :: rest));
          [discriminate|eauto]. }
      unfold filterGPVKeys. destruct Hloop as [Hkeys|(result & ->)].
      * rewrite Hkeys. cbn [dateKeyLoop cbind]. unfold objectOf. eauto.
      * cbn [cbind]. unfold objectOf. eauto.
  - intros Hkeys. unfold filterGPVKeys. rewrite Hkeys. reflexivity.
Qed.

Lemma filter_throws_only_on_hidden_method_witness :
  arrayIncludes (forInKeys hiddenMethodDocument) protoKey = false /\
  hidesHasOwnProperty hiddenMethodDocument = true /\
  filterGPVKeys hiddenMethodDocument [lit "GPV5.1"] = Throw TypeError /\
  arrayIncludes (forInKeys (VStr (lit "ab"))) protoKey = false /\
  hidesHasOwnProperty (VStr (lit "ab")) = false /\
  exists result, filterGPVKeys (VStr (lit "ab")) [lit "0"] = Normal (VObj result).
Proof.
  assert (H1 : arrayIncludes (forInKeys hiddenMethodDocument) protoKey = false)
    by reflexivity.
  assert (H2 : arrayIncludes (forInKeys (VStr (lit "ab"))) protoKey = false)
    by reflexivity.
  split; [exact H1|]. split; [reflexivity|].
  split; [exact (proj1 (filter_throws_only_on_hidden_method
                          hiddenMethodDocument [lit "GPV5.1"] H1))|].
  split; [exact H2|]. split; [reflexivity|].
  exact (proj1 (filter_throws_only_on_hidden_method
                  (VStr (lit "ab")) [lit "0"] H2)).
Defined.

(** ** The interval compressor, further *)

Section CompressMore.

Lemma collectPeriods_nil_iff props :
  collectPeriods (VObj props) = Normal []
  <-> forall h, 1 <= h <= 24 -> noAt props h = false.
Proof.
  rewrite collectPeriods_object.
  destruct (close_scan_hours (noAt props)) as (Hsep & Hcov).
  set (ps := close (scan (noAt props) hours ([], None))) in *.
  split.
  - intros [= Hps] h Hh. destruct (noAt props h) eqn:E; [|reflexivity].
    apply Hcov in E; [|exact Hh]. destruct E as (p & Hin & _).
    rewrite Hps in Hin. destruct Hin.
  - intros Hnone. destruct ps as [|p ps']; [reflexivity|]. exfalso.
    destruct (separated_bounds 0 (p :: ps') 24 p Hsep (or_introl eq_refl))
      as (B1 & B2 & B3).
    assert (Hc : noAt props (end_ p) = true).
    { apply Hcov; [lia|]. exists p. split; [now left|lia]. }
    rewrite Hnone in Hc by lia. discriminate.
Qed.

Lemma duration_app ps qs : duration (ps ++ qs) = duration ps + duration qs.
Proof.
  induction ps as [|p ps IH]; cbn [app duration fold_right]; [reflexivity|].
  fold (duration (ps ++ qs)). fold (duration ps). lia.
Qed.

(** The hours of the periods so far are the ["no"] hours so far; an open
    period ends at the hour just done. *)
Lemma scan_duration flag n : forall h st,
  match snd st with Some p => end_ p = h | None => True end ->
  duration (close (scan flag (hoursFrom (h + 1) n) st))
  = duration (close st) + Z.of_nat (length (filter flag (hoursFrom (h + 1) n))).
Proof.
  induction n as [|n IH]; intros h st Hst.
  - cbn [hoursFrom scan filter length]. lia.
  - cbn [hoursFrom scan filter]. rewrite IH.
    + destruct st as [acc [p|]]; cbn [snd] in Hst;
        destruct (flag (h + 1)); unfold close; cbn [advance fst snd length];
        rewrite ?duration_app; cbn [duration fold_right start end_]; lia.
    + destruct st as [acc [p|]]; destruct (flag (h + 1)); cbn [advance snd];
        auto.
Qed.

Lemma collectPeriods_only_TypeError timeSlots e :
  collectPeriods timeSlots = Throw e -> e = TypeError.
Proof.
  destruct timeSlots; try (rewrite collectPeriods_object; discriminate);
    try (intros H; vm_compute in H; congruence).
  - (* a string *)
    rewrite (collectPeriods_scan (VStr s)
               (fun h => match getProp (VStr s) (numberToString h) with
                         | Normal status => isNo status
                         | Throw _ => false
                         end)); [discriminate|].
    intros h _. destruct (getProp_normal (VStr s) (numberToString h))
      as (v & Hv); try discriminate. rewrite Hv. eauto.
  - (* an array *)
    rewrite (collectPeriods_scan (VArr items)
               (fun h => match getProp (VArr items) (numberToString h) with
                         | Normal status => isNo status
                         | Throw _ => false
                         end)); [discriminate|].
    intros h _. destruct (getProp_normal (VArr items) (numberToString h))
      as (v & Hv); try discriminate. rewrite Hv. eauto.
Qed.

Lemma scheduleLoop_lines date feeders : forall results,
  (forall f, In f feeders -> exists props, snd f = VObj props) ->
  scheduleLoop date feeders results
  = Normal (results ++ flat_map (fun f => feederLines date (fst f) (snd f)) feeders).
Proof.
  induction feeders as [|[name timeSlots] rest IH]; intros results Hobj.
  - cbn [scheduleLoop flat_map]. now rewrite app_nil_r.
  - destruct (Hobj (name, timeSlots) (or_introl eq_refl)) as (props & Hp).
    cbn [snd] in Hp. subst timeSlots.
    cbn [scheduleLoop flat_map fst snd]. unfold feederLines.
    rewrite collectPeriods_object. cbn [cbind].
    rewrite IH by (intros f Hf; apply Hobj; now right).
    destruct (close _) as [|p ps]; [reflexivity|]. now rewrite <- app_assoc.
Qed.

Lemma scheduleLoop_only_TypeError date feeders : forall results e,
  scheduleLoop date feeders results = Throw e -> e = TypeError.
Proof.
  induction feeders as [|[name timeSlots] rest IH]; intros results e;
    cbn [scheduleLoop]; [discriminate|].
  destruct (collectPeriods timeSlots) as [ps|e'] eqn:E; cbn [cbind].
  - apply IH.
  - intros [= <-]. exact (collectPeriods_only_TypeError _ _ E).
Qed.

Lemma scheduleLoop_null date feeders name : forall results,
  In (name, VNull) feeders -> scheduleLoop date feeders results = Throw TypeError.
Proof.
  induction feeders as [|[n timeSlots] rest IH]; intros results Hin;
    [destruct Hin|].
  cbn [scheduleLoop]. destruct Hin as [[= -> ->]|Hin]; [reflexivity|].
  destruct (collectPeriods timeSlots) as [ps|e] eqn:E; cbn [cbind].
  - now apply IH.
  - now rewrite (collectPeriods_only_TypeError _ _ E).
Qed.

Lemma objectEntries_only_TypeError o e : objectEntries o = Throw e -> e = TypeError.
Proof. destruct o; cbn [objectEntries]; congruence. Qed.

Variable host : Host.

Lemma dateLoop_lines dates : forall results,
  (forall d, In d dates ->
     exists feeders, snd d = VObj feeders /\
       forall f, In f feeders -> exists props, snd f = VObj props) ->
  dateLoop host dates results
  = Normal (results ++ reportLines host (fun _ => true) dates).
Proof.
  induction dates as [|[timestamp schedules] rest IH]; intros results Hobj.
  - cbn [dateLoop reportLines flat_map]. now rewrite app_nil_r.
  - destruct (Hobj (timestamp, schedules) (or_introl eq_refl))
      as (feeders & Hs & Hf).
    cbn [snd] in Hs. subst schedules.
    cbn [dateLoop objectEntries cbind].
    rewrite scheduleLoop_lines by exact Hf. cbn [cbind].
    rewrite IH by (intros d Hd; apply Hobj; now right).
    unfold reportLines. cbn [flat_map fst snd propsOf]. now rewrite <- app_assoc.
Qed.

Lemma dateLoop_only_TypeError dates : forall results e,
  dateLoop host dates results = Throw e -> e = TypeError.
Proof.
  induction dates as [|[timestamp schedules] rest IH]; intros results e;
    cbn [dateLoop]; [discriminate|].
  destruct (objectEntries schedules) as [feeders|e'] eqn:E; cbn [cbind];
    [|intros [= <-]; exact (objectEntries_only_TypeError _ _ E)].
  destruct (scheduleLoop _ feeders results) as [results'|e'] eqn:Es; cbn [cbind].
  - apply IH.
  - intros [= <-]. exact (scheduleLoop_only_TypeError _ _ _ _ Es).
Qed.

Lemma dateLoop_null dates timestamp feeders name : forall results,
  In (timestamp, VObj feeders) dates -> In (name, VNull) feeders ->
  dateLoop host dates results = Throw TypeError.
Proof.
  induction dates as [|[t schedules] rest IH]; intros results Hd Hf;
    [destruct Hd|].
  cbn [dateLoop]. destruct Hd as [[= -> ->]|Hd].
  - cbn [objectEntries cbind]. now rewrite (scheduleLoop_null _ _ name).
  - destruct (objectEntries schedules) as [fs|e] eqn:E; cbn [cbind];
      [|now rewrite (objectEntries_only_TypeError _ _ E)].
    destruct (scheduleLoop _ fs results) as [results'|e] eqn:Es; cbn [cbind].
    + now apply IH.
    + now rewrite (scheduleLoop_only_TypeError _ _ _ _ Es).
Qed.

Lemma scheduleDocument_objects dates :
  isScheduleDocument (VObj dates) = true ->
  forall d, In d dates ->
    exists feeders, snd d = VObj feeders /\
      forall f, In f feeders -> exists props, snd f = VObj props.
Proof.
  intros Hdoc d Hd. apply scheduleDocument_parts in Hdoc as (_ & _ & Hfm).
  destruct (feederMap_parts _ (Hfm _ Hd)) as (feeders & Hv & _ & Hhm).
  exists feeders. split; [exact Hv|]. intros f Hf. specialize (Hhm _ Hf).
  destruct (snd f); try discriminate. eauto.
Qed.

Lemma reportLines_restrict S dates :
  reportLines host (fun _ => true) (restrictDocument S dates)
  = reportLines host (arrayIncludes S) dates.
Proof.
  unfold reportLines, restrictDocument. rewrite flat_map_concat_map, map_map.
  rewrite <- flat_map_concat_map. apply flat_map_ext. intros [t v].
  cbn [fst snd propsOf]. unfold restrictFeeders.
  induction (propsOf v) as [|[n hmap] r IH]; [reflexivity|].
  cbn [filter flat_map fst snd].
  destruct (arrayIncludes S n); cbn [flat_map fst snd]; now rewrite IH.
Qed.

End CompressMore.

(** X11.  A feeder is silent exactly when it has no outage: the list of
    its intervals is empty, and no line is written for it, if and only if
    no hour from 1 to 24 has the status ["no"]. *)
Theorem feeder_silent_iff_no_outage (props : list (jsstring * value))
    (date scheduleName : jsstring) :
  (collectPeriods (VObj props) = Normal []
   <-> forall h, 1 <= h <= 24 -> noAt props h = false) /\
  (scheduleLoop date [(scheduleName, VObj props)] [] = Normal []
   <-> forall h, 1 <= h <= 24 -> noAt props h = false).
Proof.
  split; [apply collectPeriods_nil_iff|].
  rewrite <- collectPeriods_nil_iff. cbn [scheduleLoop].
  destruct (collectPeriods (VObj props)) as [[|p ps]|e]; cbn [cbind app];
    split; try reflexivity; discriminate.
Qed.

(** X12.  The intervals of a feeder cover as many hours as it has ["no"]
    hours from 1 to 24: the lengths of the intervals add up to their
    number. *)
Theorem intervals_cover_the_outage_hours (props : list (jsstring * value)) :
  exists ps,
    collectPeriods (VObj props) = Normal ps /\
    duration ps = Z.of_nat (length (filter (noAt props) hours)).
Proof.
  exists (close (scan (noAt props) hours ([], None))).
  split; [apply collectPeriods_object|].
  rewrite hours_from_1.
  pose proof (scan_duration (noAt props) 24 0 ([], None) I) as H.
  change (0 + 1) with 1 in H. rewrite H.
  unfold close. cbn [snd fst duration fold_right]. lia.
Qed.

(** X13.  The report of a schedule document is its lines joined by line
    feeds: one line for every feeder that has an interval, none for the
    others, date after date and, under a date, feeder after feeder. *)
Theorem report_is_lines_in_date_then_feeder_order (host : Host) (d : value) :
  isScheduleDocument d = true ->
  parseLightSchedule host d
  = Normal (join [10%N] (reportLines host (fun _ => true) (propsOf d))).
Proof.
  intros Hdoc. destruct d as [| | | | | |dates]; try discriminate.
  unfold parseLightSchedule. cbn [objectEntries cbind propsOf].
  rewrite (dateLoop_lines host dates [])
    by exact (scheduleDocument_objects dates Hdoc).
  reflexivity.
Qed.

Lemma report_is_lines_in_date_then_feeder_order_witness :
  isScheduleDocument sampleDocument = true /\
  parseLightSchedule exampleHost sampleDocument
  = Normal (join [10%N]
              (reportLines exampleHost (fun _ => true) (propsOf sampleDocument))).
Proof.
  split; [reflexivity|].
  apply (report_is_lines_in_date_then_feeder_order exampleHost sampleDocument).
  reflexivity.
Defined.

(** X14.  With a keep set that does not hold [__proto__], filtering and
    then compressing gives the lines of the feeders of the keep set, in
    the order they have in the document: the lines that the document
    gives without filtering, less those of the other feeders. *)
Theorem filtered_report_is_lines_of_kept_feeders (host : Host) (d : value)
    (S : list jsstring) :
  arrayIncludes S protoKey = false ->
  isScheduleDocument d = true ->
  exists filteredData,
    filterGPVKeys d S = Normal filteredData /\
    parseLightSchedule host filteredData
    = Normal (join [10%N] (reportLines host (arrayIncludes S) (propsOf d))).
Proof.
  intros Hproto Hdoc. destruct d as [| | | | | |dates]; try discriminate.
  exists (VObj (restrictDocument S dates)).
  split; [now apply filterGPVKeys_restrict|].
  pose proof (restrictDocument_shape S dates Hdoc) as Hshape.
  unfold parseLightSchedule. cbn [objectEntries cbind propsOf].
  rewrite (dateLoop_lines host _ [])
    by exact (scheduleDocument_objects _ Hshape).
  cbn [cbind app]. now rewrite reportLines_restrict.
Qed.

Lemma filtered_report_is_lines_of_kept_feeders_witness :
  arrayIncludes [lit "GPV1.1"] protoKey = false /\
  isScheduleDocument sampleDocument = true /\
  exists filteredData,
    filterGPVKeys sampleDocument [lit "GPV1.1"] = Normal filteredData /\
    parseLightSchedule exampleHost filteredData
    = Normal (join [10%N]
                (reportLines exampleHost (arrayIncludes [lit "GPV1.1"])
                   (propsOf sampleDocument))).
Proof.
  split; [reflexivity|]. split; [reflexivity|].
  apply (filtered_report_is_lines_of_kept_feeders exampleHost sampleDocument
           [lit "GPV1.1"]); reflexivity.
Defined.

Section ReportEmpty.

Lemma join_nil sep lines :
  (forall l, In l lines -> l <> []) -> join sep lines = [] -> lines = [].
Proof.
  destruct lines as [|p [|q rest]]; intros Hne H; [reflexivity| |].
  - cbn [join] in H. subst p. now destruct (Hne [] (or_introl eq_refl)).
  - cbn [join] in H. apply app_eq_nil in H as [-> _].
    now destruct (Hne [] (or_introl eq_refl)).
Qed.

Lemma scheduleLine_not_empty date name ps : scheduleLine date name ps <> [].
Proof.
  unfold scheduleLine. destruct (utf8 "Дата ") eqn:E; [discriminate E|discriminate].
Qed.

Lemma feederLines_not_empty date name timeSlots l :
  In l (feederLines date name timeSlots) -> l <> [].
Proof.
  unfold feederLines. destruct (collectPeriods timeSlots) as [[|p ps]|e];
    cbn [In]; try contradiction.
  intros [<-|[]]. apply scheduleLine_not_empty.
Qed.

Lemma reportLines_not_empty host keep dates l :
  In l (reportLines host keep dates) -> l <> [].
Proof.
  unfold reportLines. intros H.
  apply in_flat_map in H as (d & _ & H). apply in_flat_map in H as (f & _ & H).
  destruct (keep (fst f)); [|destruct H]. exact (feederLines_not_empty _ _ _ _ H).
Qed.

Lemma flat_map_nil {A B} (f : A -> list B) l :
  flat_map f l = [] <-> forall x, In x l -> f x = [].
Proof.
  induction l as [|a l IH]; cbn [flat_map].
  - split; [intros _ x []|reflexivity].
  - split.
    + intros H. apply app_eq_nil in H as [Ha Hl].
      intros x [<-|Hx]; [exact Ha|]. now apply IH.
    + intros H. rewrite (H a) by now left. apply IH. intros x Hx. apply H. now right.
Qed.

Lemma feederLines_nil date name props :
  feederLines date name (VObj props) = []
  <-> forall h, 1 <= h <= 24 -> noAt props h = false.
Proof.
  rewrite <- collectPeriods_nil_iff. unfold feederLines.
  destruct (collectPeriods (VObj props)) as [[|p ps]|e] eqn:E;
    split; try reflexivity; try discriminate.
  rewrite collectPeriods_object in E. discriminate.
Qed.

End ReportEmpty.

(** X15.  The report of a schedule document is the empty text exactly
    when no feeder of any date has an hour from 1 to 24 with the status
    ["no"]. *)
Theorem report_empty_iff_no_outage (host : Host) (d : value) :
  isScheduleDocument d = true ->
  (parseLightSchedule host d = Normal []
   <-> forall timestamp feeders scheduleName props h,
         In (timestamp, VObj feeders) (propsOf d) ->
         In (scheduleName, VObj props) feeders ->
         1 <= h <= 24 -> noAt props h = false).
Proof.
  intros Hdoc. destruct d as [| | | | | |dates]; try discriminate.
  unfold parseLightSchedule. cbn [objectEntries cbind propsOf].
  rewrite (dateLoop_lines host dates [])
    by exact (scheduleDocument_objects dates Hdoc).
  cbn [cbind app].
  assert (Hlines : reportLines host (fun _ => true) dates = []
                   <-> forall timestamp feeders scheduleName props h,
                         In (timestamp, VObj feeders) dates ->
                         In (scheduleName, VObj props) feeders ->
                         1 <= h <= 24 -> noAt props h = false).
  { unfold reportLines. rewrite flat_map_nil. split.
    - intros H timestamp feeders scheduleName props h Hd Hf.
      specialize (H _ Hd). cbn [fst snd propsOf] in H.
      rewrite flat_map_nil in H. specialize (H _ Hf). cbn [fst snd] in H.
      exact (proj1 (feederLines_nil _ _ _) H h).
    - intros H [timestamp schedules] Hd. cbn [fst snd].
      destruct (scheduleDocument_objects dates Hdoc _ Hd) as (feeders & Hs & Hobj).
      cbn [snd] in Hs. subst schedules. cbn [propsOf].
      apply flat_map_nil. intros [scheduleName timeSlots] Hf.
      destruct (Hobj _ Hf) as (props & Hp). cbn [snd] in Hp. subst timeSlots.
      cbn [fst snd]. apply feederLines_nil. intros h. now apply (H timestamp feeders scheduleName). }
  rewrite <- Hlines. split.
  - intros [= H]. apply join_nil in H; [exact H|].
    intros l. apply reportLines_not_empty.
  - intros ->. reflexivity.
Qed.

Lemma report_empty_iff_no_outage_witness :
  isScheduleDocument litDocument = true /\
  (parseLightSchedule exampleHost litDocument = Normal []
   <-> forall timestamp feeders scheduleName props h,
         In (timestamp, VObj feeders) (propsOf litDocument) ->
         In (scheduleName, VObj props) feeders ->
         1 <= h <= 24 -> noAt props h = false) /\
  parseLightSchedule exampleHost litDocument = Normal [].
Proof.
  split; [reflexivity|].
  split; [|vm_compute; reflexivity].
  apply (report_empty_iff_no_outage exampleHost litDocument). reflexivity.
Defined.

(** X16.  One feeder whose Hour-Status-Map is [null] fails the whole
    report: the compressor throws a [TypeError], also when other feeders
    have intervals; and it throws nothing but a [TypeError], whatever
    value it is given. *)
Theorem null_feeder_fails_the_report (host : Host) :
  (forall dates timestamp feeders scheduleName,
     In (timestamp, VObj feeders) dates ->
     In (scheduleName, VNull) feeders ->
     parseLightSchedule host (VObj dates) = Throw TypeError) /\
  (forall data e, parseLightSchedule host data = Throw e -> e = TypeError).
Proof.
  split.
  - intros dates timestamp feeders scheduleName Hd Hf.
    unfold parseLightSchedule. cbn [objectEntries cbind].
    now rewrite (dateLoop_null host dates timestamp feeders scheduleName [] Hd Hf).
  - intros data e. unfold parseLightSchedule.
    destruct (objectEntries data) as [entries|e'] eqn:E; cbn [cbind];
      [|intros [= <-]; exact (objectEntries_only_TypeError _ _ E)].
    destruct (dateLoop host entries []) as [results|e'] eqn:Ed; cbn [cbind];
      [discriminate|].
    intros [= <-]. exact (dateLoop_only_TypeError host _ _ _ Ed).
Qed.

Lemma null_feeder_fails_the_report_witness :
  In (lit "1700000000",
      VObj [(lit "GPV5.1", VObj [(lit "9", VStr (lit "no"))]);
            (lit "GPV3.2", VNull)])
     (propsOf nullFeederDocument) /\
  parseLightSchedule exampleHost nullFeederDocument = Throw TypeError.
Proof.
  assert (H : In (lit "1700000000",
                  VObj [(lit "GPV5.1", VObj [(lit "9", VStr (lit "no"))]);
                        (lit "GPV3.2", VNull)])
                 (propsOf nullFeederDocument)) by (left; reflexivity).
  split; [exact H|].
  apply (proj1 (null_feeder_fails_the_report exampleHost) _ _ _ (lit "GPV3.2") H).
  right. left. reflexivity.
Defined.

(** ** The date of a line *)

Section DateFacts.

Lemma digit_cases c :
  isDigit c = true ->
  c = 48%N \/ c = 49%N \/ c = 50%N \/ c = 51%N \/ c = 52%N \/ c = 53%N
  \/ c = 54%N \/ c = 55%N \/ c = 56%N \/ c = 57%N.
Proof. intros H. apply isDigit_range in H. lia. Qed.

Lemma digitOf_decimal c : isDigit c = true -> digitOf 10 c = Some (c - 48)%N.
Proof.
  intros H. destruct (digit_cases c H) as [->|[->|[->|[->|[->|[->|[->|[->|[->| ->]]]]]]]]];
    reflexivity.
Qed.

Lemma readDigits_decimal s : forall acc n,
  forallb isDigit s = true -> digitsValue acc s = Some n ->
  readDigits 10 (Some acc) s = Some n.
Proof.
  induction s as [|c s IH]; intros acc n Hd Hv; cbn [readDigits].
  - exact Hv.
  - cbn [forallb] in Hd. apply andb_true_iff in Hd as [Hc Hs].
    cbn [digitsValue] in Hv. rewrite Hc in Hv.
    rewrite (digitOf_decimal c Hc). now apply IH.
Qed.

(** [parseInt] reads a run of decimal digits as its value. *)
Lemma parseInt_digits k n :
  isTimestamp k = true -> digitsValue 0 k = Some n ->
  parseInt k = Some (Z.of_N n).
Proof.
  destruct k as [|c r]; [discriminate|]. cbn [isTimestamp forallb].
  intros Hd Hv. apply andb_true_iff in Hd as [Hc Hr].
  assert (Hread : readDigits 10 None (c :: r) = Some n).
  { cbn [readDigits]. rewrite (digitOf_decimal c Hc).
    apply readDigits_decimal; [exact Hr|].
    cbn [digitsValue] in Hv. now rewrite Hc in Hv. }
  unfold parseInt.
  assert (Hws : dropWhiteSpace (c :: r) = c :: r).
  { cbn [dropWhiteSpace].
    destruct (digit_cases c Hc) as [->|[->|[->|[->|[->|[->|[->|[->|[->| ->]]]]]]]]];
      reflexivity. }
  rewrite Hws.
  destruct r as [|x r'].
  - destruct (digit_cases c Hc) as [->|[->|[->|[->|[->|[->|[->|[->|[->| ->]]]]]]]]];
      cbv beta iota; rewrite Hread; reflexivity.
  - cbn [forallb] in Hr. apply andb_true_iff in Hr as [Hx _].
    destruct (digit_cases c Hc) as [->|[->|[->|[->|[->|[->|[->|[->|[->| ->]]]]]]]]];
      cbv beta iota;
      try (rewrite Hread; reflexivity).
    destruct (digit_cases x Hx) as [->|[->|[->|[->|[->|[->|[->|[->|[->| ->]]]]]]]]];
      cbv beta iota delta [N.eqb Pos.eqb orb]; cbv beta iota;
      rewrite Hread; reflexivity.
Qed.

Lemma digitsValue_total s : forall acc,
  forallb isDigit s = true -> exists n, digitsValue acc s = Some n.
Proof.
  induction s as [|c s IH]; intros acc H; cbn [digitsValue]; [eauto|].
  cbn [forallb] in H. apply andb_true_iff in H as [Hc Hs]. rewrite Hc.
  now apply IH.
Qed.

End DateFacts.

(** X17.  The date of a line is the host's date of the key's value times
    1000, the key being read as a decimal number, when that time value is
    within the range of dates; beyond it, and for a key that [parseInt]
    does not read, the date is ["Invalid Date"]. *)
Theorem date_of_a_timestamp_key (host : Host) (timestamp : jsstring) :
  (isTimestamp timestamp = true ->
   exists n,
     digitsValue 0 timestamp = Some n /\
     formattedDate host timestamp
     = if Z.of_N n * 1000 <=? 8640000000000000
       then toLocaleDateString host (Z.of_N n * 1000)
       else lit "Invalid Date") /\
  (parseInt timestamp = None -> formattedDate host timestamp = lit "Invalid Date").
Proof.
  split.
  - intros Hts.
    assert (Hd : forallb isDigit timestamp = true)
      by (destruct timestamp; [discriminate|exact Hts]).
    destruct (digitsValue_total timestamp 0 Hd) as (n & Hn).
    exists n. split; [exact Hn|].
    unfold formattedDate. rewrite (parseInt_digits timestamp n Hts Hn).
    now rewrite Z.abs_eq by lia.
  - intros H. unfold formattedDate. now rewrite H.
Qed.

Lemma date_of_a_timestamp_key_witness :
  isTimestamp (lit "1700000000") = true /\
  parseInt (lit "GPV") = None /\
  formattedDate exampleHost (lit "1700000000") = lit "14.11.2023" /\
  formattedDate exampleHost (lit "99999999999999") = lit "Invalid Date" /\
  formattedDate exampleHost (lit "GPV") = lit "Invalid Date".
Proof.
  assert (H1 : isTimestamp (lit "1700000000") = true) by reflexivity.
  assert (H2 : parseInt (lit "GPV") = None) by reflexivity.
  split; [exact H1|]. split; [exact H2|].
  destruct (date_of_a_timestamp_key exampleHost (lit "1700000000")) as [Hd _].
  destruct (Hd H1) as (n & Hn & ->).
  vm_compute in Hn. injection Hn as <-.
  destruct (date_of_a_timestamp_key exampleHost (lit "99999999999999")) as [Hbig _].
  destruct (Hbig eq_refl) as (m & Hm & ->).
  vm_compute in Hm. injection Hm as <-.
  destruct (date_of_a_timestamp_key exampleHost (lit "GPV")) as [_ Hnan].
  rewrite (Hnan H2).
  repeat split; vm_compute; reflexivity.
Defined.

(** ** The handler on a document under [data] *)

(** The [try] block on an object with a schedule document under [data]
    and a status that lets it pass. *)
Lemma reportFlow_on_data (host : Host) (props : list (jsstring * value))
    (doc : value) :
  lookup (lit "data") props = Some doc ->
  isScheduleDocument doc = true ->
  (forall st, lookup (lit "status") props = Some st ->
     truthy st = false \/ st = VStr (lit "ok")) ->
  reportFlow host filterGPVKeys (parseLightSchedule host) (VObj props)
  = ([LogValue doc]
       ++ sendText (join [10%N]
                      (reportLines host (arrayIncludes keysOfStart)
                         (propsOf doc))),
     Normal tt).
Proof.
  intros Hdata Hdoc Hstatus.
  assert (Htruthy : truthy doc = true)
    by (destruct doc; try discriminate; reflexivity).
  unfold reportFlow, pure. cbn [optionalData getProp]. rewrite Hdata.
  cbn [andThen]. rewrite Htruthy. cbn [negb].
  assert (Hst : forall st, match lookup (lit "status") props with
                           | Some v => Normal v
                           | None => Normal VUndefined
                           end = Normal st ->
                truthy st && negb (isOk st) = false).
  { intros st E. destruct (lookup (lit "status") props) as [v|] eqn:El.
    - injection E as <-. destruct (Hstatus v eq_refl) as [Hf| ->].
      + now rewrite Hf.
      + reflexivity.
    - injection E as <-. reflexivity. }
  destruct (lookup (lit "status") props) as [v|]; cbn [andThen];
    rewrite (Hst _ eq_refl);
    rewrite (filterGPVKeys_restrict keysOfStart doc eq_refl Hdoc);
    cbn [andThen];
    (destruct doc as [| | | | | |dates]; try discriminate);
    pose proof (restrictDocument_shape keysOfStart dates Hdoc) as Hshape;
    unfold parseLightSchedule; cbn [objectEntries cbind propsOf];
    rewrite (dateLoop_lines host _ [])
      by exact (scheduleDocument_objects _ Hshape);
    cbn [cbind app andThen]; rewrite reportLines_restrict;
    reflexivity.
Qed.

(** X18.  When the extracted object holds a schedule document under
    [data], and its [status] is absent, falsy or ["ok"], the handler logs
    the document and sends, in messages of at most [MAX_MSG_LEN] units,
    the lines of the feeders ["GPV5.1"] and ["GPV3.2"], date after date,
    joined by line feeds, and nothing else; what the extractor logged
    comes before. *)
Theorem start_sends_lines_of_the_two_feeders (host : Host) (from : user)
    (page : fetched) (logs : list event) (props : list (jsstring * value))
    (doc : value) :
  fetchShutdowns host page = (logs, Normal (VObj props)) ->
  lookup (lit "data") props = Some doc ->
  isScheduleDocument doc = true ->
  (forall st, lookup (lit "status") props = Some st ->
     truthy st = false \/ st = VStr (lit "ok")) ->
  startHandler host from page
  = [Log (startLogText from); Reply (greetingText from)]
    ++ logs ++ [LogValue doc]
    ++ sendText (join [10%N]
                   (reportLines host (arrayIncludes keysOfStart) (propsOf doc))).
Proof.
  intros Hfetch Hdata Hdoc Hstatus.
  unfold startHandler, startHandlerWith. rewrite Hfetch. cbn [andThen].
  rewrite (reportFlow_on_data host props doc Hdata Hdoc Hstatus).
  reflexivity.
Qed.

Lemma start_sends_lines_of_the_two_feeders_witness :
  fetchShutdowns exampleHost (pageOf wrappedScript)
  = ([], Normal (VObj [(lit "data", factDocument)])) /\
  startHandler exampleHost exampleUser (pageOf wrappedScript)
  = [Log (startLogText exampleUser); Reply (greetingText exampleUser)]
    ++ [] ++ [LogValue factDocument]
    ++ sendText (join [10%N]
                   (reportLines exampleHost (arrayIncludes keysOfStart)
                      (propsOf factDocument))).
Proof.
  assert (H : fetchShutdowns exampleHost (pageOf wrappedScript)
              = ([], Normal (VObj [(lit "data", factDocument)])))
    by (vm_compute; reflexivity).
  split; [exact H|].
  apply (start_sends_lines_of_the_two_feeders exampleHost exampleUser
           (pageOf wrappedScript) [] [(lit "data", factDocument)] factDocument H).
  - reflexivity.
  - vm_compute; reflexivity.
  - intros st E. vm_compute in E. discriminate E.
Defined.

(** ** Reading back an object literal *)

Lemma value_nested_ind (P : value -> Prop) :
  P VUndefined -> P VNull -> (forall b, P (VBool b)) ->
  (forall m e, P (VNum m e)) -> (forall s, P (VStr s)) ->
  (forall items, Forall P items -> P (VArr items)) ->
  (forall props, Forall (fun kv => P (snd kv)) props -> P (VObj props)) ->
  forall v, P v.
Proof.
  intros Hu Hn Hb Hm Hs Ha Ho. fix IH 1.
  intros [| |b|m e|s|items|props];
    [exact Hu|exact Hn|apply Hb|apply Hm|apply Hs| |].
  - apply Ha. induction items as [|x r IHr]; constructor; [apply IH|exact IHr].
  - apply Ho. induction props as [|kv r IHr]; constructor; [apply IH|exact IHr].
Qed.

Section TextFacts.

Lemma includes_prefix p r : includes p (p ++ r) = true.
Proof.
  destruct (p ++ r) as [|c s] eqn:E; cbn [includes]; rewrite <- E;
    now rewrite startsWith_app.
Qed.

Lemma dropWhiteSpace_gap gap c r :
  forallb isWhiteSpace gap = true -> isWhiteSpace c = false ->
  dropWhiteSpace (gap ++ c :: r) = c :: r.
Proof.
  intros Hgap Hc. induction gap as [|x gap IH]; cbn [app dropWhiteSpace].
  - now rewrite Hc.
  - cbn [forallb] in Hgap. apply andb_true_iff in Hgap as [Hx Hgap].
    rewrite Hx. now apply IH.
Qed.

Lemma join_two (sep p q : jsstring) rest :
  join sep (p :: q :: rest) = p ++ sep ++ join sep (q :: rest).
Proof. reflexivity. Qed.

Lemma join_length_part (sep : jsstring) parts p :
  In p parts -> (length p <= length (join sep parts))%nat.
Proof.
  induction parts as [|a [|b r] IH]; [intros []| |].
  - intros [<-|[]]. cbn [join]. lia.
  - intros Hin. rewrite join_two, !length_app.
    destruct Hin as [<-|Hin]; [lia|]. specialize (IH Hin).
    change jsstring with (list N) in *. lia.
Qed.

Lemma join_length_parts (sep : jsstring) parts :
  Forall (fun p => (1 <= length p)%nat) parts ->
  (length parts <= length (join sep parts))%nat.
Proof.
  induction parts as [|a [|b r] IH]; intros H; [cbn; lia| |].
  - inversion H; subst. cbn [join length]. lia.
  - inversion H; subst. rewrite join_two, !length_app.
    specialize (IH H3). cbn [length] in *.
    change jsstring with (list N) in *. lia.
Qed.

Lemma option_map_app (a b : jsstring) x :
  option_map (app a) (option_map (app b) x) = option_map (app (a ++ b)) x.
Proof. destruct x; cbn [option_map]; [now rewrite app_assoc|reflexivity]. Qed.

(** A code unit other than a colon at a test for a colon. *)
Lemma colon_other {A} (x : N) (a b : A) :
  x <> 58%N -> match x with 58%N => a | _ => b end = b.
Proof.
  intros H. destruct x as [|p]; [reflexivity|].
  do 6 (try (destruct p as [p|p|]; try reflexivity)).
  congruence.
Qed.

Lemma plainText_no_brace s :
  isPlainText s = true -> forallb (fun c => negb (c =? 125)%N) s = true.
Proof.
  unfold isPlainText. rewrite !forallb_forall. intros H c Hc.
  specialize (H c Hc). unfold isPlainChar in H.
  apply andb_true_iff in H as [_ H]. apply negb_true_iff in H.
  apply orb_false_iff in H as [_ H]. now rewrite H.
Qed.

Lemma wordChar_plain c : isWordChar c = true -> isPlainChar c = true.
Proof.
  unfold isWordChar, isDigit, isPlainChar. intros H.
  repeat match type of H with
         | (_ || _)%bool = true => apply orb_true_iff in H as [H|H]
         | (_ && _)%bool = true => apply andb_true_iff in H as [? H]
         end;
    repeat match goal with
           | H : (_ <=? _)%N = true |- _ => apply N.leb_le in H
           | H : (_ =? _)%N = true |- _ => apply N.eqb_eq in H
           end;
    apply andb_true_iff; split;
    try (apply N.leb_le; lia);
    apply negb_true_iff; repeat (apply orb_false_iff; split);
    apply N.eqb_neq; lia.
Qed.

Lemma bareKey_plain k : isBareKey k = true -> isPlainText k = true.
Proof.
  destruct k as [|c r]; [discriminate|]. unfold isBareKey, isPlainText.
  rewrite !forallb_forall. intros H x Hx. apply wordChar_plain. now apply H.
Qed.

Lemma keyOk_plain bare k : keyOk bare k = true -> isPlainText k = true.
Proof. unfold keyOk. destruct (bare k); [apply bareKey_plain|auto]. Qed.

Lemma plainLiteral_object bare props :
  isPlainLiteral bare (VObj props) = true ->
  ownKeysOk (map fst props) = true /\
  Forall (fun kv => keyOk bare (fst kv) = true
                    /\ isPlainLiteral bare (snd kv) = true) props.
Proof.
  cbn [isPlainLiteral]. intros H. apply andb_true_iff in H as [Hk Hv].
  split; [exact Hk|]. apply Forall_forall. intros kv Hin.
  rewrite forallb_forall in Hv. specialize (Hv kv Hin).
  now apply andb_true_iff in Hv.
Qed.

End TextFacts.

Section WrittenLiterals.

Variable quote : N.
Variable bare : jsstring -> bool.
Hypothesis quote_kind : quote = 34%N \/ quote = 39%N.

Lemma writeLiteral_object props :
  writeLiteral quote bare (VObj props)
  = 123%N :: join [44%N] (map (writeMember quote bare) props) ++ [125%N].
Proof. reflexivity. Qed.

(** *** The lazy match *)

Lemma lazyObject_app s t :
  forallb (fun c => negb (c =? 125)%N) s = true ->
  lazyObject (s ++ t) = option_map (app s) (lazyObject t).
Proof.
  intros H. induction s as [|c s IH]; cbn [app lazyObject].
  - now destruct (lazyObject t).
  - cbn [forallb] in H. apply andb_true_iff in H as [Hc Hs].
    apply negb_true_iff in Hc. rewrite Hc. cbn [andb]. rewrite (IH Hs).
    now destruct (lazyObject t).
Qed.

Lemma factLookahead_closes t : closes t = true -> factLookahead t = false.
Proof.
  destruct t as [|c r]; [discriminate|]. cbn [closes]. intros H.
  apply orb_true_iff in H as [H|H]; apply N.eqb_eq in H; subst c; reflexivity.
Qed.

Lemma lazyObject_brace t :
  closes t = true ->
  lazyObject (125%N :: t) = option_map (cons 125%N) (lazyObject t).
Proof.
  intros H. cbn [lazyObject]. now rewrite (factLookahead_closes t H).
Qed.

Lemma writeKey_no_brace k :
  keyOk bare k = true ->
  forallb (fun c => negb (c =? 125)%N) (writeKey quote bare k ++ [58%N]) = true.
Proof.
  intros H. apply keyOk_plain, plainText_no_brace in H.
  unfold writeKey. destruct (bare k).
  - rewrite forallb_app, H. reflexivity.
  - cbn [app forallb]. rewrite !forallb_app, H. cbn [forallb].
    destruct quote_kind as [-> | ->]; reflexivity.
Qed.

(** The members of an object, and the brace that closes it, pass the
    lazy match when every value does. *)
Lemma lazyObject_members props : forall t,
  Forall (fun kv =>
            keyOk bare (fst kv) = true /\
            forall t', closes t' = true ->
              lazyObject (writeLiteral quote bare (snd kv) ++ t')
              = option_map (app (writeLiteral quote bare (snd kv)))
                  (lazyObject t')) props ->
  lazyObject (join [44%N] (map (writeMember quote bare) props) ++ 125%N :: t)
  = option_map (app (join [44%N] (map (writeMember quote bare) props)))
      (lazyObject (125%N :: t)).
Proof.
  induction props as [|kv [|kv' rest] IH]; intros t H.
  - cbn [map join app]. now destruct (lazyObject (125%N :: t)).
  - inversion H as [|? ? [Hk Hv] _]; subst. cbn [map join].
    unfold writeMember at 1 2. rewrite !app_assoc.
    rewrite <- (app_assoc _ (writeLiteral quote bare (snd kv))).
    rewrite (lazyObject_app _ _ (writeKey_no_brace _ Hk)).
    rewrite (Hv (125%N :: t)) by reflexivity.
    now rewrite option_map_app.
  - inversion H as [|? ? [Hk Hv] Hrest]; subst.
    change (map (writeMember quote bare) (kv :: kv' :: rest))
      with ((writeMember quote bare) kv :: map (writeMember quote bare) (kv' :: rest)).
    change (map (writeMember quote bare) (kv' :: rest))
      with ((writeMember quote bare) kv' :: map (writeMember quote bare) rest) at 1 2.
    rewrite !join_two.
    change ((writeMember quote bare) kv' :: map (writeMember quote bare) rest) with (map (writeMember quote bare) (kv' :: rest)).
    unfold writeMember at 1 3.
    rewrite <- !app_assoc.
    rewrite (app_assoc (writeKey quote bare (fst kv))).
    rewrite (lazyObject_app _ _ (writeKey_no_brace _ Hk)).
    rewrite (Hv _) by reflexivity.
    rewrite (lazyObject_app [44%N]) by reflexivity.
    rewrite (IH t Hrest).
    rewrite !option_map_app. now rewrite <- !app_assoc.
Qed.

Lemma lazyObject_written v :
  isPlainLiteral bare v = true ->
  forall t, closes t = true ->
    lazyObject (writeLiteral quote bare v ++ t)
    = option_map (app (writeLiteral quote bare v)) (lazyObject t).
Proof.
  induction v as [| | | |s|items _|props IH] using value_nested_ind;
    try discriminate; intros Hplain t Ht.
  - cbn [writeLiteral isPlainLiteral] in *.
    apply lazyObject_app. apply plainText_no_brace in Hplain.
    cbn [forallb]. rewrite forallb_app, Hplain. cbn [forallb].
    destruct quote_kind as [-> | ->]; reflexivity.
  - apply plainLiteral_object in Hplain as [_ Hall].
    rewrite writeLiteral_object.
    change (123%N :: join [44%N] (map (writeMember quote bare) props) ++ [125%N])
      with ([123%N] ++ join [44%N] (map (writeMember quote bare) props) ++ [125%N]).
    rewrite <- !app_assoc. rewrite (lazyObject_app [123%N]) by reflexivity.
    cbn [app]. rewrite lazyObject_members.
    + rewrite (lazyObject_brace t Ht).
      destruct (lazyObject t); cbn [option_map]; [|reflexivity].
      now rewrite <- !app_assoc.
    + rewrite Forall_forall in *. intros kv Hin.
      destruct (Hall kv Hin) as [Hk Hv]. split; [exact Hk|].
      intros t' Ht'. now apply IH.
Qed.

(** The expression matches the literal of an object whole when the
    lookahead holds behind it. *)
Lemma lazyObject_literal props after :
  isPlainLiteral bare (VObj props) = true ->
  factLookahead after = true ->
  option_map (cons 123%N)
    (lazyObject (join [44%N] (map (writeMember quote bare) props) ++ 125%N :: after))
  = Some (writeLiteral quote bare (VObj props)).
Proof.
  intros Hplain Hafter. apply plainLiteral_object in Hplain as [_ Hall].
  rewrite lazyObject_members.
  - cbn [lazyObject]. rewrite N.eqb_refl, Hafter. cbn [andb option_map].
    reflexivity.
  - rewrite Forall_forall in *. intros kv Hin.
    destruct (Hall kv Hin) as [Hk Hv]. split; [exact Hk|].
    intros t' Ht'. now apply lazyObject_written.
Qed.

Lemma matchFact_at txt m1 : matchFactAt txt = Some m1 -> matchFact txt = Some m1.
Proof. intros H. destruct txt; cbn [matchFact]; now rewrite H. Qed.

Lemma matchFact_assignment gap1 gap2 props after :
  forallb isWhiteSpace gap1 = true -> forallb isWhiteSpace gap2 = true ->
  isPlainLiteral bare (VObj props) = true ->
  factLookahead after = true ->
  matchFact (assignment gap1 gap2 (writeLiteral quote bare (VObj props)) after)
  = Some (writeLiteral quote bare (VObj props)).
Proof.
  intros H1 H2 Hplain Hafter. apply matchFact_at.
  unfold matchFactAt, assignment. change marker with (lit "DisconSchedule.fact").
  rewrite startsWith_app, skipn_length_app.
  cbn [app].
  rewrite (dropWhiteSpace_gap gap1 61%N) by (auto; reflexivity).
  rewrite writeLiteral_object. cbn [app].
  rewrite (dropWhiteSpace_gap gap2 123%N) by (auto; reflexivity).
  rewrite <- app_assoc. cbn [app].
  now apply lazyObject_literal.
Qed.

End WrittenLiterals.

Section QuoteFacts.

Variable quote : N.
Variable bare : jsstring -> bool.
Hypothesis quote_kind : quote = 34%N \/ quote = 39%N.

(** *** The first replacement *)

Lemma doubleQuotes_app a b : doubleQuotes (a ++ b) = doubleQuotes a ++ doubleQuotes b.
Proof. apply map_app. Qed.

Lemma doubleQuotes_plain s : isPlainText s = true -> doubleQuotes s = s.
Proof.
  unfold isPlainText, doubleQuotes. intros H.
  induction s as [|c s IH]; [reflexivity|]. cbn [forallb map] in *.
  apply andb_true_iff in H as [Hc Hs]. rewrite (IH Hs). f_equal.
  unfold isPlainChar in Hc. apply andb_true_iff in Hc as [_ Hc].
  apply negb_true_iff in Hc.
  apply orb_false_iff in Hc as [Hc _]. apply orb_false_iff in Hc as [Hc _].
  apply orb_false_iff in Hc as [Hc _]. apply orb_false_iff in Hc as [_ Hc].
  now rewrite Hc.
Qed.

Lemma doubleQuotes_quote : doubleQuotes [quote] = [34%N].
Proof. destruct quote_kind as [-> | ->]; reflexivity. Qed.

Lemma doubleQuotes_join sep parts :
  doubleQuotes (join sep parts)
  = join (doubleQuotes sep) (map doubleQuotes parts).
Proof.
  induction parts as [|p [|p' rest] IH]; [reflexivity|reflexivity|].
  rewrite join_two.
  change (map doubleQuotes (p :: p' :: rest))
    with (doubleQuotes p :: doubleQuotes p' :: map doubleQuotes rest).
  rewrite join_two, !doubleQuotes_app. now rewrite IH.
Qed.

Lemma doubleQuotes_key k :
  keyOk bare k = true ->
  doubleQuotes (writeKey quote bare k) = writeKey 34 bare k.
Proof.
  intros H. pose proof (keyOk_plain bare k H) as Hp. unfold writeKey.
  destruct (bare k); [now apply doubleQuotes_plain|].
  change (quote :: k ++ [quote]) with ([quote] ++ k ++ [quote]).
  rewrite !doubleQuotes_app, doubleQuotes_quote.
  now rewrite (doubleQuotes_plain k Hp).
Qed.

Lemma doubleQuotes_written v :
  isPlainLiteral bare v = true ->
  doubleQuotes (writeLiteral quote bare v) = writeLiteral 34 bare v.
Proof.
  induction v as [| | | |s|items _|props IH] using value_nested_ind;
    try discriminate; intros Hplain.
  - cbn [writeLiteral isPlainLiteral] in *.
    change (quote :: s ++ [quote]) with ([quote] ++ s ++ [quote]).
    rewrite !doubleQuotes_app, doubleQuotes_quote.
    now rewrite (doubleQuotes_plain s Hplain).
  - apply (plainLiteral_object bare) in Hplain as [_ Hall].
    rewrite !writeLiteral_object.
    change (123%N :: join [44%N] (map (writeMember quote bare) props) ++ [125%N])
      with ([123%N] ++ join [44%N] (map (writeMember quote bare) props) ++ [125%N]).
    rewrite !doubleQuotes_app, doubleQuotes_join, map_map.
    change (doubleQuotes [123%N]) with [123%N].
    change (doubleQuotes [44%N]) with [44%N].
    change (doubleQuotes [125%N]) with [125%N].
    cbn [app]. f_equal. f_equal. f_equal.
    apply map_ext_in. intros kv Hin. rewrite Forall_forall in *.
    destruct (Hall kv Hin) as [Hk Hv]. unfold writeMember.
    rewrite !doubleQuotes_app, (doubleQuotes_key _ Hk).
    now rewrite (IH kv Hin Hv).
Qed.

(** *** The second replacement *)

Lemma takeWord_app w rest :
  forallb isWordChar w = true -> atBoundary rest = true ->
  takeWord (w ++ rest) = (w, rest).
Proof.
  intros Hw Hr. induction w as [|c w IH]; cbn [app].
  - destruct rest as [|x r]; [reflexivity|]. cbn [takeWord].
    cbn [atBoundary] in Hr. apply negb_true_iff in Hr. now rewrite Hr.
  - cbn [forallb] in Hw. apply andb_true_iff in Hw as [Hc Hw].
    cbn [takeWord]. now rewrite Hc, (IH Hw).
Qed.

Lemma takeWord_split s :
  exists w rest,
    takeWord s = (w, rest) /\ s = w ++ rest /\
    forallb isWordChar w = true /\ atBoundary rest = true.
Proof.
  induction s as [|c s (w & rest & Ht & Hs & Hw & Hr)].
  - now exists [], [].
  - cbn [takeWord]. destruct (isWordChar c) eqn:Ec.
    + exists (c :: w), rest. rewrite Ht. cbn [app forallb].
      rewrite Ec, Hw, <- Hs. auto.
    + exists [], (c :: s). cbn [atBoundary]. rewrite Ec. auto.
Qed.

Lemma dropWhiteSpace_length s : (length (dropWhiteSpace s) <= length s)%nat.
Proof.
  induction s as [|c s IH]; cbn [dropWhiteSpace]; [lia|].
  destruct (isWhiteSpace c); cbn [length]; lia.
Qed.

(** Fuel beyond the length of the text changes nothing. *)
Lemma quoteKeysFrom_fuel n : forall fuel1 fuel2 s,
  (length s <= n)%nat -> (length s <= fuel1)%nat -> (length s <= fuel2)%nat ->
  quoteKeysFrom fuel1 s = quoteKeysFrom fuel2 s.
Proof.
  induction n as [|n IH]; intros fuel1 fuel2 s Hn H1 H2.
  - destruct s; [|cbn [length] in Hn; lia]. now destruct fuel1, fuel2.
  - destruct s as [|c r]; [now destruct fuel1, fuel2|].
    cbn [length] in *.
    destruct fuel1 as [|fuel1]; [lia|]. destruct fuel2 as [|fuel2]; [lia|].
    cbn [quoteKeysFrom]. destruct (isWordChar c) eqn:Ec.
    + destruct (takeWord_split r) as (w & rest & Ht & Hs & _ & _).
      cbn [takeWord]. rewrite Ec, Ht.
      assert (Hlen : (length rest <= length r)%nat)
        by (rewrite Hs, length_app; lia).
      pose proof (dropWhiteSpace_length rest) as Hdrop.
      destruct (dropWhiteSpace rest) as [|x rest'] eqn:Ed.
      * f_equal. apply IH; lia.
      * cbn [length] in Hdrop.
        assert (Ha : quoteKeysFrom fuel1 rest' = quoteKeysFrom fuel2 rest')
          by (apply IH; lia).
        assert (Hb : quoteKeysFrom fuel1 rest = quoteKeysFrom fuel2 rest)
          by (apply IH; lia).
        now rewrite Ha, Hb.
    + f_equal. apply IH; lia.
Qed.

Lemma quoteKeysFrom_enough fuel s :
  (length s <= fuel)%nat -> quoteKeysFrom fuel s = quoteKeys s.
Proof.
  intros H. unfold quoteKeys. now apply (quoteKeysFrom_fuel (length s)).
Qed.

Lemma quoteKeys_nonword c t :
  isWordChar c = false -> quoteKeys (c :: t) = c :: quoteKeys t.
Proof.
  intros H. unfold quoteKeys. cbn [length quoteKeysFrom]. now rewrite H.
Qed.

(** A bare key before its colon is put between double quotes. *)
Lemma quoteKeys_bare w t :
  isBareKey w = true ->
  quoteKeys (w ++ 58%N :: t) = 34%N :: w ++ [34%N; 58%N] ++ quoteKeys t.
Proof.
  destruct w as [|c w]; [discriminate|]. cbn [isBareKey]. intros Hw.
  pose proof Hw as Hc. cbn [forallb] in Hc. apply andb_true_iff in Hc as [Hc _].
  unfold quoteKeys at 1. cbn [app length quoteKeysFrom]. rewrite Hc.
  change (c :: w ++ 58%N :: t) with ((c :: w) ++ 58%N :: t).
  rewrite (takeWord_app (c :: w) (58%N :: t) Hw) by reflexivity.
  cbn [dropWhiteSpace]. change (isWhiteSpace 58) with false. cbv iota.
  rewrite quoteKeysFrom_enough by (rewrite length_app; cbn [length]; lia).
  reflexivity.
Qed.

(** A word that no colon follows stays as it is. *)
Lemma quoteKeys_word w rest :
  w <> [] -> forallb isWordChar w = true -> atBoundary rest = true ->
  (forall r, dropWhiteSpace rest <> 58%N :: r) ->
  quoteKeys (w ++ rest) = w ++ quoteKeys rest.
Proof.
  destruct w as [|c w]; [contradiction|]. intros _ Hw Hr Hcolon.
  pose proof Hw as Hc. cbn [forallb] in Hc. apply andb_true_iff in Hc as [Hc _].
  unfold quoteKeys at 1. cbn [app length quoteKeysFrom]. rewrite Hc.
  change (c :: w ++ rest) with ((c :: w) ++ rest).
  rewrite (takeWord_app (c :: w) rest Hw Hr).
  rewrite (quoteKeysFrom_enough _ rest) by (rewrite length_app; lia).
  destruct (dropWhiteSpace rest) as [|x rest'] eqn:Ed; [reflexivity|].
  apply colon_other. intros ->. exact (Hcolon rest' eq_refl).
Qed.

Lemma plainText_no_colon s x r :
  isPlainText s = true -> dropWhiteSpace (s ++ 34%N :: r) <> 58%N :: x.
Proof.
  unfold isPlainText. induction s as [|c s IH]; cbn [app dropWhiteSpace forallb].
  - change (isWhiteSpace 34) with false. cbv iota. discriminate.
  - intros H. apply andb_true_iff in H as [Hc Hs].
    destruct (isWhiteSpace c); [now apply IH|].
    intros [= -> _]. discriminate Hc.
Qed.

(** Plain text before a double quote stays as it is. *)
Lemma quoteKeys_plain n : forall k t,
  (length k <= n)%nat -> isPlainText k = true ->
  quoteKeys (k ++ 34%N :: t) = k ++ 34%N :: quoteKeys t.
Proof.
  induction n as [|n IH]; intros k t Hn Hk.
  - destruct k; [|cbn [length] in Hn; lia]. now apply quoteKeys_nonword.
  - destruct k as [|c r]; [now apply quoteKeys_nonword|].
    destruct (isWordChar c) eqn:Ec.
    + destruct (takeWord_split (c :: r)) as (w & rest & Ht & Hs & Hw & Hr).
      assert (Hne : w <> []).
      { cbn [takeWord] in Ht. rewrite Ec in Ht. destruct (takeWord r).
        injection Ht as <- _. discriminate. }
      assert (Hrest : isPlainText rest = true).
      { unfold isPlainText in *. rewrite Hs, forallb_app in Hk.
        now apply andb_true_iff in Hk. }
      rewrite Hs, <- app_assoc.
      rewrite quoteKeys_word; [| exact Hne | exact Hw | |].
      * rewrite IH; [apply app_assoc| |exact Hrest].
        assert (length (c :: r) = length (w ++ rest)) by now rewrite <- Hs.
        rewrite length_app in *. cbn [length] in *.
        destruct w; [contradiction|]. cbn [length] in *. lia.
      * destruct rest as [|x rest']; [reflexivity|exact Hr].
      * intros x. now apply plainText_no_colon.
    + cbn [app]. rewrite (quoteKeys_nonword c _ Ec). f_equal.
      apply IH; [cbn [length] in Hn; lia|].
      unfold isPlainText in *. cbn [forallb] in Hk.
      now apply andb_true_iff in Hk.
Qed.

Lemma quoteKeys_key k t :
  keyOk bare k = true ->
  quoteKeys (writeKey 34 bare k ++ 58%N :: t)
  = writeKey 34 (fun _ => false) k ++ 58%N :: quoteKeys t.
Proof.
  unfold keyOk, writeKey. destruct (bare k); intros H.
  - rewrite (quoteKeys_bare k t H). cbn [app]. now rewrite <- app_assoc.
  - cbn [app]. rewrite (quoteKeys_nonword 34) by reflexivity.
    rewrite <- app_assoc. cbn [app].
    rewrite (quoteKeys_plain (length k)) by auto.
    rewrite (quoteKeys_nonword 58) by reflexivity.
    cbn [app]. now rewrite <- app_assoc.
Qed.

Lemma quoteKeys_members props : forall t,
  Forall (fun kv =>
            keyOk bare (fst kv) = true /\
            forall t',
              quoteKeys (writeLiteral 34 bare (snd kv) ++ t')
              = writeLiteral 34 (fun _ => false) (snd kv) ++ quoteKeys t') props ->
  quoteKeys (join [44%N] (map (writeMember 34 bare) props) ++ 125%N :: t)
  = join [44%N] (map (writeMember 34 (fun _ => false)) props)
      ++ 125%N :: quoteKeys t.
Proof.
  induction props as [|kv [|kv' rest] IH]; intros t H.
  - cbn [map join app]. now apply quoteKeys_nonword.
  - inversion H as [|? ? [Hk Hv] _]; subst. cbn [map join].
    unfold writeMember. rewrite <- !app_assoc. cbn [app].
    rewrite (quoteKeys_key _ _ Hk), Hv.
    now rewrite (quoteKeys_nonword 125) by reflexivity.
  - inversion H as [|? ? [Hk Hv] Hrest]; subst.
    change (map (writeMember 34 bare) (kv :: kv' :: rest))
      with (writeMember 34 bare kv :: map (writeMember 34 bare) (kv' :: rest)).
    change (map (writeMember 34 (fun _ => false)) (kv :: kv' :: rest))
      with (writeMember 34 (fun _ => false) kv
              :: map (writeMember 34 (fun _ => false)) (kv' :: rest)).
    change (map (writeMember 34 bare) (kv' :: rest))
      with (writeMember 34 bare kv' :: map (writeMember 34 bare) rest) at 1.
    change (map (writeMember 34 (fun _ => false)) (kv' :: rest))
      with (writeMember 34 (fun _ => false) kv'
              :: map (writeMember 34 (fun _ => false)) rest) at 1.
    rewrite !join_two.
    change (writeMember 34 bare kv' :: map (writeMember 34 bare) rest)
      with (map (writeMember 34 bare) (kv' :: rest)).
    change (writeMember 34 (fun _ => false) kv'
              :: map (writeMember 34 (fun _ => false)) rest)
      with (map (writeMember 34 (fun _ => false)) (kv' :: rest)).
    unfold writeMember at 1 3. rewrite <- !app_assoc. cbn [app].
    rewrite (quoteKeys_key _ _ Hk), Hv.
    rewrite (quoteKeys_nonword 44) by reflexivity.
    now rewrite (IH t Hrest).
Qed.

Lemma quoteKeys_written v :
  isPlainLiteral bare v = true ->
  forall t,
    quoteKeys (writeLiteral 34 bare v ++ t)
    = writeLiteral 34 (fun _ => false) v ++ quoteKeys t.
Proof.
  induction v as [| | | |s|items _|props IH] using value_nested_ind;
    try discriminate; intros Hplain t.
  - cbn [writeLiteral isPlainLiteral app] in *. rewrite <- app_assoc. cbn [app].
    rewrite (quoteKeys_nonword 34) by reflexivity.
    rewrite (quoteKeys_plain (length s)) by auto.
    now rewrite <- app_assoc.
  - apply (plainLiteral_object bare) in Hplain as [_ Hall].
    rewrite !writeLiteral_object. cbn [app]. rewrite <- !app_assoc. cbn [app].
    rewrite (quoteKeys_nonword 123) by reflexivity.
    rewrite quoteKeys_members; [reflexivity|].
    rewrite Forall_forall in *. intros kv Hin.
    destruct (Hall kv Hin) as [Hk Hv]. split; [exact Hk|].
    intros t'. now apply IH.
Qed.

(** The two replacements turn the literal into its text in double
    quotes with every key quoted. *)
Lemma replacements_written v :
  isPlainLiteral bare v = true ->
  quoteKeys (doubleQuotes (writeLiteral quote bare v))
  = writeLiteral 34 (fun _ => false) v.
Proof.
  intros H. rewrite (doubleQuotes_written v H).
  rewrite <- (app_nil_r (writeLiteral 34 bare v)).
  rewrite (quoteKeys_written v H []). apply app_nil_r.
Qed.

End QuoteFacts.

(** *** [JSON.parse] of the text in double quotes *)

Section ParseFacts.

Lemma skipJsonSpace_hard c r :
  isJsonSpace c = false -> skipJsonSpace (c :: r) = c :: r.
Proof. intros H. cbn [skipJsonSpace]. now rewrite H. Qed.

Lemma parseStringBody_other c r acc :
  c <> 34%N -> c <> 92%N ->
  parseStringBody acc (c :: r)
  = if (c <? 32)%N then None else parseStringBody (acc ++ [c]) r.
Proof.
  intros H34 H92. destruct c as [|p]; [reflexivity|].
  do 7 (try (destruct p as [p|p|]; try reflexivity)); congruence.
Qed.

Lemma parseStringBody_plain s : forall acc t,
  isPlainText s = true ->
  parseStringBody acc (s ++ 34%N :: t) = Some (acc ++ s, t).
Proof.
  unfold isPlainText. induction s as [|c s IH]; intros acc t H.
  - cbn [app parseStringBody]. now rewrite app_nil_r.
  - cbn [forallb] in H. apply andb_true_iff in H as [Hc Hs].
    unfold isPlainChar in Hc. apply andb_true_iff in Hc as [Hlow Hc].
    apply negb_true_iff in Hc.
    apply orb_false_iff in Hc as [Hc _]. apply orb_false_iff in Hc as [Hc _].
    apply orb_false_iff in Hc as [Hc H92]. apply orb_false_iff in Hc as [H34 _].
    apply N.eqb_neq in H34, H92. apply N.leb_le in Hlow.
    cbn [app]. rewrite (parseStringBody_other c _ acc H34 H92).
    replace (c <? 32)%N with false by (symmetry; apply N.ltb_ge; exact Hlow).
    rewrite (IH _ _ Hs). now rewrite <- app_assoc.
Qed.

Lemma fold_setProp_ok (props : list (jsstring * value)) : forall acc,
  ownKeysOk (map fst (acc ++ props)) = true ->
  fold_left (fun a kv => setProp (fst kv) (snd kv) a) props acc = acc ++ props.
Proof.
  induction props as [|[k v] rest IH]; intros acc H; cbn [fold_left fst snd].
  - now rewrite app_nil_r.
  - assert (Hsnoc : setProp k v acc = acc ++ [(k, v)]).
    { apply setProp_snoc. rewrite map_app in H.
      apply ownKeysOk_app in H as (_ & _ & Hb).
      apply Forall_forall. intros kv Hin. apply Hb.
      - now apply in_map.
      - now left. }
    rewrite Hsnoc, IH; rewrite <- app_assoc; [reflexivity|exact H].
Qed.

Variable pv : jsstring -> option (value * jsstring).

(** The members of an object in double quotes, read by [parseMembers]
    when [pv] reads the text of every value. *)
Lemma parseMembers_written props : forall fuel acc t,
  props <> [] -> (length props <= fuel)%nat ->
  Forall (fun kv =>
            isPlainText (fst kv) = true /\
            forall t',
              pv (writeLiteral 34 (fun _ => false) (snd kv) ++ t')
              = Some (snd kv, t')) props ->
  parseMembers pv fuel acc
    (join [44%N] (map (writeMember 34 (fun _ => false)) props) ++ 125%N :: t)
  = Some (VObj (fold_left (fun a kv => setProp (fst kv) (snd kv) a) props acc),
          t).
Proof.
  induction props as [|kv [|kv' rest] IH]; intros fuel acc t Hne Hfuel H;
    [contradiction| |].
  - destruct fuel as [|fuel]; [cbn [length] in Hfuel; lia|].
    inversion H as [|? ? [Hk Hv] _]; subst. cbn [map join fold_left].
    unfold writeMember, writeKey. rewrite <- !app_assoc.
    cbn [app parseMembers].
    rewrite (skipJsonSpace_hard 34) by reflexivity. cbv iota.
    rewrite <- !app_assoc. cbn [app].
    rewrite (parseStringBody_plain _ [] _ Hk). cbn [app].
    rewrite (skipJsonSpace_hard 58) by reflexivity. cbv iota.
    rewrite Hv. rewrite (skipJsonSpace_hard 125) by reflexivity.
    reflexivity.
  - destruct fuel as [|fuel]; [cbn [length] in Hfuel; lia|].
    inversion H as [|? ? [Hk Hv] Hrest]; subst.
    change (map (writeMember 34 (fun _ => false)) (kv :: kv' :: rest))
      with (writeMember 34 (fun _ => false) kv
              :: map (writeMember 34 (fun _ => false)) (kv' :: rest)).
    change (map (writeMember 34 (fun _ => false)) (kv' :: rest))
      with (writeMember 34 (fun _ => false) kv'
              :: map (writeMember 34 (fun _ => false)) rest) at 1.
    rewrite join_two.
    change (writeMember 34 (fun _ => false) kv'
              :: map (writeMember 34 (fun _ => false)) rest)
      with (map (writeMember 34 (fun _ => false)) (kv' :: rest)).
    cbn [fold_left].
    unfold writeMember at 1. unfold writeKey. rewrite <- !app_assoc.
    cbn [app parseMembers].
    rewrite (skipJsonSpace_hard 34) by reflexivity. cbv iota.
    rewrite <- !app_assoc. cbn [app].
    rewrite (parseStringBody_plain _ [] _ Hk). cbn [app].
    rewrite (skipJsonSpace_hard 58) by reflexivity. cbv iota.
    rewrite Hv. rewrite (skipJsonSpace_hard 44) by reflexivity. cbv iota.
    apply (IH fuel (setProp (fst kv) (snd kv) acc) t);
      [discriminate|cbn [length] in *; lia|exact Hrest].
Qed.

End ParseFacts.

Section ReadBack.

Lemma plainLiteral_quoted bare v :
  isPlainLiteral bare v = true -> isPlainLiteral (fun _ => false) v = true.
Proof.
  induction v as [| | | |s|items _|props IH] using value_nested_ind;
    try discriminate; [auto|].
  intros H. apply plainLiteral_object in H as [Hkeys Hall].
  cbn [isPlainLiteral]. rewrite Hkeys. cbn [andb].
  apply forallb_forall. intros kv Hin. rewrite Forall_forall in *.
  destruct (Hall kv Hin) as [Hk Hv]. unfold keyOk at 1.
  now rewrite (keyOk_plain bare _ Hk), (IH kv Hin Hv).
Qed.

Lemma writeLiteral_length bare v :
  isPlainLiteral bare v = true ->
  (2 <= length (writeLiteral 34 bare v))%nat.
Proof.
  destruct v; try discriminate; intros _; cbn [writeLiteral app length];
    rewrite ?length_app; cbn [length]; lia.
Qed.

Lemma writeMember_length bare kv :
  (length (writeLiteral 34 bare (snd kv)) + 1
   <= length (writeMember 34 bare kv))%nat.
Proof. unfold writeMember. rewrite !length_app. cbn [length]. lia. Qed.

Lemma parseValue_written v :
  isPlainLiteral (fun _ => false) v = true ->
  forall width depth t,
    (length (writeLiteral 34 (fun _ => false) v) <= depth)%nat ->
    (length (writeLiteral 34 (fun _ => false) v) <= width)%nat ->
    parseValue width depth (writeLiteral 34 (fun _ => false) v ++ t)
    = Some (v, t).
Proof.
  induction v as [| | | |s|items _|props IH] using value_nested_ind;
    try discriminate; intros Hplain width depth t Hdepth Hwidth.
  - destruct depth as [|depth]; [cbn [writeLiteral length] in Hdepth; lia|].
    cbn [writeLiteral isPlainLiteral app parseValue] in *.
    rewrite (skipJsonSpace_hard 34) by reflexivity. cbv iota.
    rewrite <- app_assoc. cbn [app].
    now rewrite (parseStringBody_plain s [] t Hplain).
  - pose proof (writeLiteral_length _ _ Hplain) as Hlen.
    destruct depth as [|depth]; [lia|].
    apply plainLiteral_object in Hplain as [Hkeys Hall].
    rewrite writeLiteral_object in *. cbn [app parseValue].
    rewrite (skipJsonSpace_hard 123) by reflexivity. cbv iota.
    destruct props as [|kv rest].
    + cbn [map join app]. rewrite (skipJsonSpace_hard 125) by reflexivity.
      reflexivity.
    + assert (Hmembers :
        parseMembers (parseValue width depth) width []
          (join [44%N] (map (writeMember 34 (fun _ => false)) (kv :: rest))
           ++ 125%N :: t)
        = Some (VObj (kv :: rest), t)).
      { cbn [length] in Hdepth, Hwidth. rewrite length_app in Hdepth, Hwidth.
        rewrite parseMembers_written.
        - rewrite fold_setProp_ok by exact Hkeys. reflexivity.
        - discriminate.
        - pose proof (join_length_parts [44%N]
                        (map (writeMember 34 (fun _ => false)) (kv :: rest)))
            as Hparts.
          rewrite length_map in Hparts.
          assert (Hone : Forall (fun p : jsstring => (1 <= length p)%nat)
                           (map (writeMember 34 (fun _ => false)) (kv :: rest))).
          { apply Forall_forall. intros p Hp. apply in_map_iff in Hp as (x & <- & _).
            pose proof (writeMember_length (fun _ => false) x). lia. }
          specialize (Hparts Hone). change jsstring with (list N) in *. lia.
        - rewrite Forall_forall in *. intros x Hin.
          destruct (Hall x Hin) as [Hk Hv]. split; [exact Hk|].
          intros t'.
          pose proof (join_length_part [44%N]
                        (map (writeMember 34 (fun _ => false)) (kv :: rest))
                        (writeMember 34 (fun _ => false) x)
                        (in_map _ _ _ Hin)) as Hpart.
          pose proof (writeMember_length (fun _ => false) x) as Hx.
          change jsstring with (list N) in *.
          apply (IH x Hin Hv); lia. }
      rewrite <- app_assoc. cbn [app].
      destruct (join [44%N] (map (writeMember 34 (fun _ => false)) (kv :: rest))
                ++ 125%N :: t) as [|c r] eqn:Etext.
      * cbn [parseMembers] in Hmembers. destruct width; discriminate.
      * assert (Hc : c = 34%N).
        { destruct rest; cbn [map join] in Etext; unfold writeMember, writeKey in Etext;
            cbn [app] in Etext; now injection Etext as <- _. }
        subst c. rewrite (skipJsonSpace_hard 34) by reflexivity. cbv iota.
        exact Hmembers.
Qed.

Lemma JSON_parse_written v :
  isPlainLiteral (fun _ => false) v = true ->
  JSON_parse (writeLiteral 34 (fun _ => false) v) = Some v.
Proof.
  intros H. unfold JSON_parse.
  rewrite <- (app_nil_r (writeLiteral 34 (fun _ => false) v)) at 3.
  rewrite (parseValue_written v H) by lia. reflexivity.
Qed.

Variable host : Host.

Lemma parseFact_written quote bare v :
  quote = 34%N \/ quote = 39%N ->
  isPlainLiteral bare v = true ->
  parseFact host (writeLiteral quote bare v) = Normal v.
Proof.
  intros Hq H. unfold parseFact.
  rewrite (replacements_written quote bare Hq v H).
  now rewrite (JSON_parse_written v (plainLiteral_quoted bare v H)).
Qed.

Lemma fetchShutdowns_assignment quote bare gap1 gap2 props after :
  quote = 34%N \/ quote = 39%N ->
  forallb isWhiteSpace gap1 = true -> forallb isWhiteSpace gap2 = true ->
  isPlainLiteral bare (VObj props) = true ->
  factLookahead after = true ->
  fetchShutdowns host
    (pageOf (assignment gap1 gap2 (writeLiteral quote bare (VObj props)) after))
  = ([], Normal (VObj props)).
Proof.
  intros Hq H1 H2 Hplain Hafter.
  unfold fetchShutdowns, pageOf. cbn [ok scripts scriptLoop].
  rewrite (matchFact_assignment quote bare Hq gap1 gap2 props after H1 H2
             Hplain Hafter).
  rewrite (parseFact_written quote bare (VObj props) Hq Hplain).
  assert (Hmarker : includes marker
                      (assignment gap1 gap2
                         (writeLiteral quote bare (VObj props)) after) = true)
    by apply includes_prefix.
  rewrite Hmarker.
  destruct (assignment _ _ _ _) eqn:E; [discriminate E|reflexivity].
Qed.

End ReadBack.

(** X19.  The extractor reads back what a page assigns: for a script
    that assigns to the marker the literal of an object of objects and
    strings of plain text, in single or in double quotes, the keys quoted
    or, where they are words, bare, with any white space about the equals
    sign and either nothing or another statement of [DisconSchedule.]
    behind the literal, the extractor returns that object, its keys in
    the order of enumeration, without the evaluation of the literal. *)
Theorem extractor_reads_back_object_literal (host : Host) (quote : N)
    (bare : jsstring -> bool) (gap1 gap2 after : jsstring)
    (props : list (jsstring * value)) :
  quote = 34%N \/ quote = 39%N ->
  forallb isWhiteSpace gap1 = true -> forallb isWhiteSpace gap2 = true ->
  isPlainLiteral bare (VObj props) = true ->
  factLookahead after = true ->
  matchFact (assignment gap1 gap2 (writeLiteral quote bare (VObj props)) after)
  = Some (writeLiteral quote bare (VObj props)) /\
  quoteKeys (doubleQuotes (writeLiteral quote bare (VObj props)))
  = writeLiteral 34 (fun _ => false) (VObj props) /\
  JSON_parse (writeLiteral 34 (fun _ => false) (VObj props)) = Some (VObj props) /\
  fetchShutdowns host
    (pageOf (assignment gap1 gap2 (writeLiteral quote bare (VObj props)) after))
  = ([], Normal (VObj props)).
Proof.
  intros Hq H1 H2 Hplain Hafter.
  split; [now apply matchFact_assignment|].
  split; [now apply replacements_written|].
  split; [apply JSON_parse_written; now apply (plainLiteral_quoted bare)|].
  now apply fetchShutdowns_assignment.
Qed.

Lemma extractor_reads_back_object_literal_witness :
  bareScript
  = assignment (lit "  ") (lit " ")
      (writeLiteral 39 (fun k => streq k (lit "data"))
         (VObj [(lit "data", factDocument)]))
      (lit " DisconSchedule.done = 1;") /\
  fetchShutdowns exampleHost (pageOf bareScript)
  = ([], Normal (VObj [(lit "data", factDocument)])).
Proof.
  split; [reflexivity|].
  apply (extractor_reads_back_object_literal exampleHost 39
           (fun k => streq k (lit "data")) (lit "  ") (lit " ")
           (lit " DisconSchedule.done = 1;") [(lit "data", factDocument)]).
  - right; reflexivity.
  - reflexivity.
  - reflexivity.
  - vm_compute; reflexivity.
  - vm_compute; reflexivity.
Defined.

(** X20.  From the page to the messages: when the script assigns such a
    literal, with a schedule document under [data] and a status that is
    absent, falsy or ["ok"], the handler logs the document and sends the
    lines of the feeders ["GPV5.1"] and ["GPV3.2"], date after date, in
    messages of at most [MAX_MSG_LEN] units. *)
Theorem start_reports_assigned_document (host : Host) (from : user)
    (quote : N) (bare : jsstring -> bool) (gap1 gap2 after : jsstring)
    (props : list (jsstring * value)) (doc : value) :
  quote = 34%N \/ quote = 39%N ->
  forallb isWhiteSpace gap1 = true -> forallb isWhiteSpace gap2 = true ->
  isPlainLiteral bare (VObj props) = true ->
  factLookahead after = true ->
  lookup (lit "data") props = Some doc ->
  isScheduleDocument doc = true ->
  (forall st, lookup (lit "status") props = Some st ->
     truthy st = false \/ st = VStr (lit "ok")) ->
  startHandler host from
    (pageOf (assignment gap1 gap2 (writeLiteral quote bare (VObj props)) after))
  = [Log (startLogText from); Reply (greetingText from); LogValue doc]
    ++ sendText (join [10%N]
                   (reportLines host (arrayIncludes keysOfStart) (propsOf doc))).
Proof.
  intros Hq H1 H2 Hplain Hafter Hdata Hdoc Hstatus.
  unfold startHandler, startHandlerWith.
  rewrite (fetchShutdowns_assignment host quote bare gap1 gap2 props after
             Hq H1 H2 Hplain Hafter).
  cbn [andThen].
  rewrite (reportFlow_on_data host props doc Hdata Hdoc Hstatus).
  reflexivity.
Qed.

Lemma start_reports_assigned_document_witness :
  bareScript
  = assignment (lit "  ") (lit " ")
      (writeLiteral 39 (fun k => streq k (lit "data"))
         (VObj [(lit "data", factDocument)]))
      (lit " DisconSchedule.done = 1;") /\
  startHandler exampleHost exampleUser (pageOf bareScript)
  = [Log (startLogText exampleUser); Reply (greetingText exampleUser);
     LogValue factDocument]
    ++ sendText (join [10%N]
                   (reportLines exampleHost (arrayIncludes keysOfStart)
                      (propsOf factDocument))).
Proof.
  split; [reflexivity|].
  apply (start_reports_assigned_document exampleHost exampleUser 39
           (fun k => streq k (lit "data")) (lit "  ") (lit " ")
           (lit " DisconSchedule.done = 1;") [(lit "data", factDocument)]
           factDocument).
  - right; reflexivity.
  - reflexivity.
  - reflexivity.
  - vm_compute; reflexivity.
  - vm_compute; reflexivity.
  - reflexivity.
  - vm_compute; reflexivity.
  - intros st E. vm_compute in E. discriminate E.
Defined.
